(** * The node-management wrapper (wrapper.py): poll loop, supervisor, updates

    A shallow embedding of [src/wrapper.py].  The script is a sequence of
    effectful steps over the local file system, the management bucket, the
    wrapped process and a handful of module-level globals; the embedding
    threads one [State] record through a small state-and-exception monad and
    keeps the control flow of the source ([try]/[except], [continue],
    [sys.exit]) visible.

    Conventions of the model:
    - a decoded payload has the shape the script reads from it (a timestamp,
      a list of commands with their [nodes], [command] and [info] entries);
      JSON values of another shape are outside the model;
    - the decoding and signature libraries ([json], [base64], [OpenSSL],
      [uuid]) and the object store are collaborators: the former are the
      fields of [Externals], the latter is a finite map of objects;
    - a file's bytes are a [string] (one [ascii] per byte);
    - integers are [Z]; the clock counts milliseconds, [time.time()] is read
      at whole seconds, as the integer epoch timestamps of the feeds are;
    - paths are the strings handed to the system calls; they are taken to be
      absolute and normalised already, so [os.path.abspath] and
      [os.path.expanduser] leave them as they are, and [os.makedirs] of a
      parent directory is not tracked;
    - logging is not part of the state. *)

From Stdlib Require Import ZArith Ascii String List Lia.
From stdpp Require Import base option list gmap strings pretty.

Local Open Scope Z_scope.
Local Open Scope string_scope.

(** ** hashlib.sha256(...).hexdigest() *)

Module Sha256.

Definition w32 (x : Z) : Z := x mod 2 ^ 32.

Definition rotr (n x : Z) : Z :=
  w32 (Z.lor (Z.shiftr x n) (Z.shiftl x (32 - n))).

Definition ch (x y z : Z) : Z :=
  Z.lxor (Z.land x y) (Z.land (Z.lxor x (2 ^ 32 - 1)) z).

Definition maj (x y z : Z) : Z :=
  Z.lxor (Z.lxor (Z.land x y) (Z.land x z)) (Z.land y z).

Definition bsig0 (x : Z) : Z := Z.lxor (Z.lxor (rotr 2 x) (rotr 13 x)) (rotr 22 x).
Definition bsig1 (x : Z) : Z := Z.lxor (Z.lxor (rotr 6 x) (rotr 11 x)) (rotr 25 x).
Definition ssig0 (x : Z) : Z := Z.lxor (Z.lxor (rotr 7 x) (rotr 18 x)) (Z.shiftr x 3).
Definition ssig1 (x : Z) : Z := Z.lxor (Z.lxor (rotr 17 x) (rotr 19 x)) (Z.shiftr x 10).

(** Round constants and initial hash value, in decimal. *)
Definition round_constants : list Z :=
  [ 1116352408; 1899447441; 3049323471; 3921009573; 961987163; 1508970993;
    2453635748; 2870763221; 3624381080; 310598401; 607225278; 1426881987;
    1925078388; 2162078206; 2614888103; 3248222580; 3835390401; 4022224774;
    264347078; 604807628; 770255983; 1249150122; 1555081692; 1996064986;
    2554220882; 2821834349; 2952996808; 3210313671; 3336571891; 3584528711;
    113926993; 338241895; 666307205; 773529912; 1294757372; 1396182291;
    1695183700; 1986661051; 2177026350; 2456956037; 2730485921; 2820302411;
    3259730800; 3345764771; 3516065817; 3600352804; 4094571909; 275423344;
    430227734; 506948616; 659060556; 883997877; 958139571; 1322822218;
    1537002063; 1747873779; 1955562222; 2024104815; 2227730452; 2361852424;
    2428436474; 2756734187; 3204031479; 3329325298 ].

Definition initial_hash : list Z :=
  [ 1779033703; 3144134277; 1013904242; 2773480762;
    1359893119; 2600822924; 528734635; 1541459225 ].

Definition byte_values (s : string) : list Z :=
  List.map (fun a => Z.of_N (N_of_ascii a)) (list_ascii_of_string s).

(** Big-endian bytes of [x], [n] of them. *)
Fixpoint be_bytes (n : nat) (x : Z) : list Z :=
  match n with
  | O => []
  | S n' => (Z.shiftr x (8 * Z.of_nat n')) mod 256 :: be_bytes n' x
  end.

Definition padded (msg : list Z) : list Z :=
  let len := Z.of_nat (length msg) in
  msg ++ [128] ++ repeat 0 (Z.to_nat ((55 - len) mod 64)) ++ be_bytes 8 (8 * len).

Fixpoint words_of (fuel : nat) (bs : list Z) : list Z :=
  match fuel, bs with
  | S fuel', b0 :: b1 :: b2 :: b3 :: rest =>
      (b0 * 2 ^ 24 + b1 * 2 ^ 16 + b2 * 2 ^ 8 + b3) :: words_of fuel' rest
  | _, _ => []
  end.

Fixpoint blocks_of (fuel : nat) (ws : list Z) : list (list Z) :=
  match fuel, ws with
  | S fuel', _ :: _ => take 16 ws :: blocks_of fuel' (drop 16 ws)
  | _, _ => []
  end.

Definition word_at (ws : list Z) (i : nat) : Z := nth i ws 0.

(** Extends the message schedule by [n] words. *)
Fixpoint schedule (n : nat) (ws : list Z) : list Z :=
  match n with
  | O => ws
  | S n' =>
      let t := length ws in
      let w := w32 (ssig1 (word_at ws (t - 2)) + word_at ws (t - 7)
                    + ssig0 (word_at ws (t - 15)) + word_at ws (t - 16)) in
      schedule n' (ws ++ [w])
  end.

Definition round (st : list Z) (kw : Z * Z) : list Z :=
  match st with
  | [a; b; c; d; e; f; g; h] =>
      let t1 := h + bsig1 e + ch e f g + fst kw + snd kw in
      let t2 := bsig0 a + maj a b c in
      [w32 (t1 + t2); a; b; c; w32 (d + t1); e; f; g]
  | _ => st
  end.

Definition compress (hs : list Z) (block : list Z) : list Z :=
  let ws := schedule 48 block in
  let st := fold_left round (combine round_constants ws) hs in
  List.map (fun p => w32 (fst p + snd p)) (combine hs st).

Definition digest_words (s : string) : list Z :=
  let bs := padded (byte_values s) in
  let ws := words_of (length bs) bs in
  fold_left compress (blocks_of (length ws) ws) initial_hash.

Definition hex_digit (d : Z) : ascii :=
  nth (Z.to_nat d) (list_ascii_of_string "0123456789abcdef") "0"%char.

(** The [n] low hexadecimal digits of [x], most significant first. *)
Fixpoint hex_of (n : nat) (x : Z) : string :=
  match n with
  | O => EmptyString
  | S n' => String (hex_digit ((Z.shiftr x (4 * Z.of_nat n')) mod 16)) (hex_of n' x)
  end.

Definition hexdigest (s : string) : string :=
  fold_right (fun w acc => hex_of 8 w ++ acc) EmptyString (digest_words s).

End Sha256.

(** ** Data model *)

(** A directory entry: a regular file with its bytes, or a directory. *)
Record File := { is_dir : bool; data : string; mode : Z }.

(** A [subprocess.Popen] handle; [returncode] is what [poll()] returns. *)
Record Popen := { pid : nat; returncode : option Z }.

(** The decoded payload, at the shape the script reads it with [.get]:
    every field holds the value of the corresponding [.get(key, default)]. *)
Record Info := {
  info_time : Z;               (* info.get("time", 0) *)
  info_install_path : string;  (* info.get("install_path", "") *)
  info_path : string;          (* info.get("path", "") *)
  info_sha256sum : string      (* info.get("sha256sum", "") *)
}.

Record Command := {
  cmd_nodes : option (list string);  (* None: no "nodes" key *)
  cmd_command : string;              (* command.get("command", "") *)
  cmd_info : Info                    (* command.get("info", dict()) *)
}.

Record Batch := {
  timestamp : Z;                     (* signed_commands.get("timestamp", 0) *)
  commands : list Command            (* signed_commands.get("commands", list()) *)
}.

(** The second line of an envelope and the node id file, once decoded. *)
Record SigJson := { signature : option string }.
Record IdFile := { idf_id : option string }.

(** The calls the script makes on the world, in order: [Popen],
    [p.terminate()], [time.sleep], a bucket download (with its success),
    [os.replace], [os.chmod], [shutil.copyfile]. *)
Inductive event :=
  | EvPopen (bin : string) (args : list string) (child : nat)
  | EvTerminate (child : nat)
  | EvSleep (ms : Z)
  | EvDownload (src dst : string) (ok : bool)
  | EvReplace (src dst : string)
  | EvChmod (target : string) (m : Z)
  | EvCopyfile (src dst : string).

(** Module-level globals of the script plus the world it acts on. *)
Record State := {
  fs : gmap string File;         (* local file system *)
  bucket : gmap string string;   (* management bucket: key -> object bytes *)
  process : option Popen;        (* process *)
  next_pid : nat;
  timestamps : list Z;           (* timestamps *)
  read_node_id : option string;  (* read_node_id *)
  generated_uuid : option string;(* generated_uuid *)
  clock : Z;                     (* milliseconds since the epoch *)
  trace : list event
}.

Definition set_fs (f : gmap string File) (s : State) : State :=
  {| fs := f; bucket := bucket s; process := process s; next_pid := next_pid s;
     timestamps := timestamps s; read_node_id := read_node_id s;
     generated_uuid := generated_uuid s; clock := clock s; trace := trace s |}.

Definition set_process (p : option Popen) (s : State) : State :=
  {| fs := fs s; bucket := bucket s; process := p; next_pid := next_pid s;
     timestamps := timestamps s; read_node_id := read_node_id s;
     generated_uuid := generated_uuid s; clock := clock s; trace := trace s |}.

Definition set_next_pid (n : nat) (s : State) : State :=
  {| fs := fs s; bucket := bucket s; process := process s; next_pid := n;
     timestamps := timestamps s; read_node_id := read_node_id s;
     generated_uuid := generated_uuid s; clock := clock s; trace := trace s |}.

Definition set_timestamps (ts : list Z) (s : State) : State :=
  {| fs := fs s; bucket := bucket s; process := process s; next_pid := next_pid s;
     timestamps := ts; read_node_id := read_node_id s;
     generated_uuid := generated_uuid s; clock := clock s; trace := trace s |}.

Definition set_read_node_id (v : option string) (s : State) : State :=
  {| fs := fs s; bucket := bucket s; process := process s; next_pid := next_pid s;
     timestamps := timestamps s; read_node_id := v;
     generated_uuid := generated_uuid s; clock := clock s; trace := trace s |}.

Definition set_generated_uuid (v : option string) (s : State) : State :=
  {| fs := fs s; bucket := bucket s; process := process s; next_pid := next_pid s;
     timestamps := timestamps s; read_node_id := read_node_id s;
     generated_uuid := v; clock := clock s; trace := trace s |}.

Definition set_clock (c : Z) (s : State) : State :=
  {| fs := fs s; bucket := bucket s; process := process s; next_pid := next_pid s;
     timestamps := timestamps s; read_node_id := read_node_id s;
     generated_uuid := generated_uuid s; clock := c; trace := trace s |}.

Definition set_trace (t : list event) (s : State) : State :=
  {| fs := fs s; bucket := bucket s; process := process s; next_pid := next_pid s;
     timestamps := timestamps s; read_node_id := read_node_id s;
     generated_uuid := generated_uuid s; clock := clock s; trace := t |}.

(** Command line arguments and the variables derived from them. *)
Record Config := {
  disableupdates : bool;          (* args["disableupdates"] *)
  idpath : string;                (* args["idpath"] *)
  binary_path : string;           (* args["binary"] *)
  management_directory : string;  (* args["s3path"] *)
  rsa_certificate_path : string;
  log_path : string;
  err_output_path : option string;
  config_file : string;
  cmd_log_dir : string;
  wrapper_path : string           (* os.path.abspath(sys.argv[0]) *)
}.

Definition tmp_dir : string := "/tmp".
Definition version_file (cfg : Config) : string := management_directory cfg +:+ "/version.jsonl".
Definition command_file (cfg : Config) : string := management_directory cfg +:+ "/command.jsonl".
Definition remotes_paths (cfg : Config) : list string := [version_file cfg; command_file cfg].

(** The valid "install" paths, with their local paths for this machine. *)
Definition valid_paths (cfg : Config) : gmap string string :=
  <["binary" := binary_path cfg]>
  (<["wrapper" := wrapper_path cfg]>
  (<["config" := config_file cfg]>
  (<["cert" := rsa_certificate_path cfg]> ∅))).

Definition S_IEXEC : Z := 64.        (* stat.S_IEXEC = 0o100 *)
Definition default_mode : Z := 420.  (* 0o644, a newly created file *)
Definition command_frequency : Z := 10.

(** ** The effect monad: state, exceptions and [sys.exit] *)

Inductive exn := OSError | ValueError | IndexError | TypeError.

Inductive outcome (A : Type) :=
  | Ok (a : A)
  | Raise (e : exn)     (* an [Exception] propagating *)
  | Exit (code : Z).    (* [SystemExit], not caught by [except Exception] *)
Arguments Ok {A} a.
Arguments Raise {A} e.
Arguments Exit {A} code.

Definition M (A : Type) : Type := State → outcome A * State.

Definition ret {A} (a : A) : M A := fun s => (Ok a, s).

Definition bind {A B} (m : M A) (k : A → M B) : M B :=
  fun s =>
    match m s with
    | (Ok a, s') => k a s'
    | (Raise e, s') => (Raise e, s')
    | (Exit c, s') => (Exit c, s')
    end.

Notation "'let*' x ':=' m 'in' k" := (bind m (fun x => k))
  (at level 10, x name, m at level 100, k at level 200).
Notation "m '>>' k" := (bind m (fun _ => k))
  (at level 100, k at level 200, right associativity).

Definition raise {A} (e : exn) : M A := fun s => (Raise e, s).
Definition sys_exit {A} (code : Z) : M A := fun s => (Exit code, s).
Definition get {A} (f : State → A) : M A := fun s => (Ok (f s), s).
Definition modify (f : State → State) : M unit := fun s => (Ok tt, f s).
Definition emit (e : event) : M unit := modify (fun s => set_trace (trace s ++ [e]) s).

(** [try: m except <catches> as e: h e]. *)
Definition try_except {A} (m : M A) (catches : exn → bool) (h : exn → M A) : M A :=
  fun s =>
    match m s with
    | (Raise e, s') => if catches e then h e s' else (Raise e, s')
    | r => r
    end.

Definition any_exception (e : exn) : bool := true.
Definition is_IOError (e : exn) : bool :=
  match e with OSError => true | _ => false end.

Fixpoint for_each {A} (l : list A) (body : A → M unit) : M unit :=
  match l with
  | [] => ret tt
  | x :: rest => body x >> for_each rest body
  end.

(** ** String helpers: [os.path.basename], [str.split], [readline], [strip] *)

Definition slash : ascii := "/"%char.
Definition dot : ascii := "."%char.
Definition newline : ascii := "010"%char.
Definition carriage_return : ascii := "013"%char.

(** [s.split(sep)] for a one-character separator. *)
Fixpoint split_on (sep : ascii) (s : string) : list string :=
  match s with
  | EmptyString => [EmptyString]
  | String c rest =>
      if decide (c = sep) then EmptyString :: split_on sep rest
      else match split_on sep rest with
           | [] => [String c EmptyString]
           | w :: ws => String c w :: ws
           end
  end.

(** [os.path.basename(p)]: what follows the last slash. *)
Definition basename (p : string) : string := List.last (split_on slash p) EmptyString.

(** [f.readline()] from the start of [s]: the line with its newline, and
    what remains of the buffer.  The feed is read through a file opened in
    text mode, where a line also ends at a carriage return, alone or
    followed by a newline, and the line end is handed over as one newline. *)
Fixpoint readline (s : string) : string * string :=
  match s with
  | EmptyString => (EmptyString, EmptyString)
  | String c rest =>
      if decide (c = newline) then (String newline EmptyString, rest)
      else if decide (c = carriage_return) then
        (String newline EmptyString,
         match rest with
         | String c' rest' => if decide (c' = newline) then rest' else rest
         | EmptyString => rest
         end)
      else let '(l, r) := readline rest in (String c l, r)
  end.

(** White space of [str.strip()], in the ASCII range. *)
Definition is_space (c : ascii) : bool :=
  let n := Z.of_N (N_of_ascii c) in
  (Z.leb 9 n && Z.leb n 13) || (Z.leb 28 n && Z.leb n 32).

Fixpoint lstrip (l : list ascii) : list ascii :=
  match l with
  | c :: rest => if is_space c then lstrip rest else l
  | [] => []
  end.

Definition strip (s : string) : string :=
  string_of_list_ascii (rev (lstrip (rev (lstrip (list_ascii_of_string s))))).

(** ** System calls *)

Definition time_time : M Z := get (fun s => clock s / 1000).

(** [time.sleep(ms / 1000)]; a negative length raises [ValueError]. *)
Definition time_sleep_ms (ms : Z) : M unit :=
  if Z.ltb ms 0 then raise ValueError
  else modify (fun s => set_clock (clock s + ms) s) >> emit (EvSleep ms).

Definition os_path_exists (p : string) : M bool :=
  get (fun s => bool_decide (is_Some (fs s !! p))).

Definition os_path_isfile (p : string) : M bool :=
  get (fun s => match fs s !! p with Some f => negb (is_dir f) | None => false end).

(** [open(p, 'r').read()]. *)
Definition open_read (p : string) : M string :=
  fun s =>
    match fs s !! p with
    | Some f => if is_dir f then (Raise OSError, s) else (Ok (data f), s)
    | None => (Raise OSError, s)
    end.

(** [open(p, 'a')] and close: creates the file when it is missing. *)
Definition open_append (p : string) : M unit :=
  fun s =>
    match fs s !! p with
    | Some f => if is_dir f then (Raise OSError, s) else (Ok tt, s)
    | None => (Ok tt, set_fs (<[p := {| is_dir := false; data := ""; mode := default_mode |}]> (fs s)) s)
    end.

(** [os.replace(src, dst)]. *)
Definition os_replace (src dst : string) : M unit :=
  fun s =>
    match fs s !! src with
    | None => (Raise OSError, s)
    | Some f =>
        match fs s !! dst with
        | Some g =>
            if negb (Bool.eqb (is_dir f) (is_dir g)) then (Raise OSError, s)
            else (Ok tt, set_trace (trace s ++ [EvReplace src dst])
                           (set_fs (<[dst := f]> (delete src (fs s))) s))
        | None => (Ok tt, set_trace (trace s ++ [EvReplace src dst])
                            (set_fs (<[dst := f]> (delete src (fs s))) s))
        end
    end.

(** [os.chmod(p, m)]. *)
Definition os_chmod (p : string) (m : Z) : M unit :=
  fun s =>
    match fs s !! p with
    | None => (Raise OSError, s)
    | Some f =>
        (Ok tt, set_trace (trace s ++ [EvChmod p m])
                  (set_fs (<[p := {| is_dir := is_dir f; data := data f; mode := m |}]> (fs s)) s))
    end.

(** [shutil.copyfile(src, dst)]: the bytes only; an existing destination
    keeps its mode. *)
Definition shutil_copyfile (src dst : string) : M unit :=
  let* content := open_read src in
  fun s =>
    match fs s !! dst with
    | Some g =>
        if is_dir g then (Raise OSError, s)
        else (Ok tt, set_trace (trace s ++ [EvCopyfile src dst])
                       (set_fs (<[dst := {| is_dir := false; data := content; mode := mode g |}]> (fs s)) s))
    | None =>
        (Ok tt, set_trace (trace s ++ [EvCopyfile src dst])
                  (set_fs (<[dst := {| is_dir := false; data := content; mode := default_mode |}]> (fs s)) s))
    end.

(** A regular file with the owner-execute bit can be spawned. *)
Definition executable (f : File) : bool := negb (is_dir f) && Z.testbit (mode f) 6.

(** [subprocess.Popen([bin_path] + bin_args, ...)]. *)
Definition subprocess_Popen (bin_path : string) (bin_args : list string) : M Popen :=
  fun s =>
    match fs s !! bin_path with
    | Some f =>
        if executable f then
          (Ok {| pid := next_pid s; returncode := None |},
           set_trace (trace s ++ [EvPopen bin_path bin_args (next_pid s)])
             (set_next_pid (S (next_pid s)) s))
        else (Raise OSError, s)
    | None => (Raise OSError, s)
    end.

(** ** Functions of the script *)

(** [download]: fetches an object of the management bucket to [dst_path];
    every failure is logged and swallowed inside the function. *)
Definition download (src_path dst_path : string) : M unit :=
  fun s =>
    match bucket s !! src_path with
    | Some bytes =>
        match fs s !! dst_path with
        | Some g =>
            if is_dir g then (Ok tt, set_trace (trace s ++ [EvDownload src_path dst_path false]) s)
            else (Ok tt, set_trace (trace s ++ [EvDownload src_path dst_path true])
                           (set_fs (<[dst_path := {| is_dir := false; data := bytes; mode := default_mode |}]> (fs s)) s))
        | None =>
            (Ok tt, set_trace (trace s ++ [EvDownload src_path dst_path true])
                      (set_fs (<[dst_path := {| is_dir := false; data := bytes; mode := default_mode |}]> (fs s)) s))
        end
    | None => (Ok tt, set_trace (trace s ++ [EvDownload src_path dst_path false]) s)
    end.

Definition start_binary (bin_path log_file : string) (bin_args : list string) : M Popen :=
  open_append log_file >>
  let* p := subprocess_Popen bin_path bin_args in
  ret p.

(** [terminate_process(p)]: [p.terminate()] then [p.wait()]; the handle is
    the object the global [process] refers to, which now holds an exit code.
    [p.wait()] has no timeout: it returns when the child has exited, and
    the embedding gives the call that returns.  What is proved of a [stop]
    entry is therefore stated of a run that returns. *)
Definition terminate_process (p : option Popen) : M unit :=
  match p with
  | Some h =>
      emit (EvTerminate (pid h)) >>
      modify (set_process (Some {| pid := pid h;
                                   returncode := Some (default (-15) (returncode h)) |}))
  | None => ret tt
  end.

Definition truthy (s : string) : bool := negb (bool_decide (s = "")).

(** [save_cmd]: the copy of the envelope to the command log.  The log
    directory is taken to be in place: its creation at lines 276-277 is not
    tracked, like that of the other parent directories. *)
Definition save_cmd (file_path dest_dir : string) (valid : bool) (cmd_time : Z) : M unit :=
  let fparts := split_on dot (basename file_path) in
  match fparts with
  | f0 :: f1 :: _ =>
      let f0' := if valid then f0 else "INVALID_" +:+ f0 in
      let dest := dest_dir +:+ "/" +:+ f0' +:+ "_" +:+ pretty cmd_time +:+ "." +:+ f1 in
      shutil_copyfile file_path dest
  | _ => raise IndexError
  end.

(** The library calls whose results the script only consumes: PEM and JSON
    decoding, base64, the signature check and [uuid.uuid1].  [None] stands
    for a raised exception.  [json_loads] decodes line 1 of an envelope
    ([Some None] is the JSON value [null], which Python reads as [None]). *)
Record Externals := {
  load_certificate : string → option string;
  json_loads : string → option (option Batch);
  json_loads_sig : string → option SigJson;
  b64decode : string → option string;
  crypto_verify : string → string → string → bool;
  json_loads_idf : string → option IdFile;
  uuid1 : Z → string
}.

Section Wrapper.

Context (X : Externals).

(** The body of the [try] in [verify_cmd], once the certificate is read:
    every exception inside it is caught and turns into [False]. *)
Definition verify_cmd_try (pem inbuf : string) : option Batch * bool :=
  let command_json : option Batch := None in
  match load_certificate X pem with
  | None => (command_json, false)
  | Some key =>
      let '(line1, rest) := readline inbuf in
      let command := strip line1 in
      match json_loads X command with
      | None => (command_json, false)
      | Some command_json =>
          match json_loads_sig X (fst (readline rest)) with
          | None => (command_json, false)
          | Some sig_json =>
              match signature sig_json with
              | None => (command_json, false)   (* b64decode(None): TypeError *)
              | Some sig64 =>
                  match b64decode X sig64 with
                  | None => (command_json, false)
                  | Some sig =>
                      if crypto_verify X key sig command
                      then (command_json, true)
                      else (command_json, false)
                  end
              end
          end
      end
  end.

(** [verify_cmd(inbuf, public_key_path)]: the certificate is opened by the
    [with] statement, outside the [try]. *)
Definition verify_cmd (inbuf public_key_path : string) : M (option Batch * bool) :=
  let* file := open_read public_key_path in
  ret (verify_cmd_try file inbuf).

Definition get_node_id (id_path : string) : M string :=
  let* cached := get read_node_id in
  if truthy (default "" cached) then ret (default "" cached)
  else
    let* found :=
      try_except
        (let* ex := os_path_exists id_path in
         if ex then
           let* content := open_read id_path in
           match json_loads_idf X (strip content) with
           | None => raise ValueError
           | Some idf =>
               match idf_id idf with
               | Some new_node_id =>
                   if truthy new_node_id then
                     modify (set_read_node_id (Some new_node_id)) >>
                     ret (Some new_node_id)
                   else ret None
               | None => ret None
               end
           end
         else ret None)
        any_exception (fun _ => ret None) in
    match found with
    | Some new_node_id => ret new_node_id
    | None =>
        let* g := get generated_uuid in
        (if truthy (default "" g) then ret tt
         else let* now := get clock in
              modify (set_generated_uuid (Some (uuid1 X now)))) >>
        let* g' := get generated_uuid in
        ret (default "" g')
    end.

(** [timestamps[i]] and [timestamps[i] = timestamp]. *)
Definition get_timestamp (i : nat) : M Z :=
  fun s =>
    match timestamps s !! i with
    | Some t => (Ok t, s)
    | None => (Raise IndexError, s)
    end.

Definition set_timestamp (i : nat) (t : Z) : M unit :=
  fun s =>
    if decide (i < length (timestamps s))%nat
    then (Ok tt, set_timestamps (<[i := t]> (timestamps s)) s)
    else (Raise IndexError, s).

Context (cfg : Config).

(** Lines 531-545: move the verified download into place, make the binary
    executable, exit when the wrapper was updated. *)
Definition install_update (i : nat) (timestamp : Z) (tmp_path install_path : string) : M unit :=
  let* replaced :=
    try_except (os_replace tmp_path install_path >> ret true)
      any_exception (fun _ => set_timestamp i timestamp >> ret false) in
  if replaced then
    os_chmod (binary_path cfg) S_IEXEC >>
    if bool_decide (install_path = "wrapper") then sys_exit 0 else ret tt
  else ret tt.

(** The [update] branch of the dispatch (lines 495-545).  Each [continue]
    of the source is preceded by [timestamps[i] = timestamp]. *)
Definition update_command (i : nat) (timestamp : Z) (info : Info) : M unit :=
  if disableupdates cfg then set_timestamp i timestamp
  else
    let install_path := info_install_path info in
    match valid_paths cfg !! install_path with
    | None => set_timestamp i timestamp
    | Some install_path =>
        let update_path := management_directory cfg +:+ "/" +:+ info_path info in
        let tmp_path := install_path +:+ ".tmp" in
        download update_path tmp_path >>
        let* update_bytes := open_read tmp_path in
        let actual_hash := Sha256.hexdigest update_bytes in
        let expected_hash := info_sha256sum info in
        if negb (bool_decide (actual_hash = expected_hash))
        then set_timestamp i timestamp
        else install_update i timestamp tmp_path install_path
    end.

(** [process is None or process.poll() is not None]. *)
Definition not_running (p : option Popen) : bool :=
  match p with
  | None => true
  | Some h => bool_decide (is_Some (returncode h))
  end.

Definition launch : M unit :=
  let* has_config := os_path_isfile (config_file cfg) in
  let* p := start_binary (binary_path cfg) (log_path cfg)
              (if has_config then ["--config"; config_file cfg] else []) in
  modify (set_process (Some p)).

(** [node_targets and node_id not in node_targets], under ["nodes" in command]. *)
Definition not_for_us (node_id : string) (command : Command) : bool :=
  match cmd_nodes command with
  | Some node_targets =>
      negb (bool_decide (node_targets = [])) && negb (bool_decide (node_id ∈ node_targets))
  | None => false
  end.

(** One iteration of [for command in signed_commands.get("commands", list())]. *)
Definition run_command (i : nat) (timestamp : Z) (node_id : string)
    (command : Command) : M unit :=
  if not_for_us node_id command then set_timestamp i timestamp
  else
    let command_type := cmd_command command in
    let info := cmd_info command in
    if bool_decide (command_type = "start") then
      let* p := get process in
      if not_running p then launch else ret tt
    else if bool_decide (command_type = "stop") then
      let* p := get process in
      terminate_process p
    else if bool_decide (command_type = "delay") then
      time_sleep_ms (info_time info)
    else if bool_decide (command_type = "update") then
      update_command i timestamp info
    else ret tt.

(** Lines 446-549: a verified payload is logged, checked against the
    feed's timestamp and executed. *)
Definition process_batch (i : nat) (local_path : string)
    (signed_commands : Batch) (ok : bool) : M unit :=
  let timestamp := timestamp signed_commands in
  save_cmd local_path (cmd_log_dir cfg) ok timestamp >>
  let* last := get_timestamp i in
  if Z.leb timestamp last then ret tt
  else
    let* node_id := get_node_id (idpath cfg) in
    for_each (commands signed_commands) (run_command i timestamp node_id) >>
    set_timestamp i timestamp.

Definition local_path_of (remote_path : string) : string :=
  tmp_dir +:+ "/" +:+ basename remote_path.

(** Lines 427-434: download the feed and verify it. *)
Definition fetch_commands (remote_path : string) : M (option Batch * bool) :=
  let local_path := local_path_of remote_path in
  download remote_path local_path >>
  let* cmd_file := open_read local_path in
  verify_cmd cmd_file (rsa_certificate_path cfg).

(** The body of [for i, remote_path in enumerate(remotes_paths)], inside
    its [try ... except Exception]. *)
Definition poll_feed (i : nat) (remote_path : string) : M unit :=
  try_except
    (let local_path := local_path_of remote_path in
     let* r := fetch_commands remote_path in
     match r with
     | (None, _) =>
         let* now := time_time in
         save_cmd local_path (cmd_log_dir cfg) false now
     | (Some signed_commands, ok) =>
         if negb ok then
           let* now := time_time in
           save_cmd local_path (cmd_log_dir cfg) ok now
         else process_batch i local_path signed_commands ok
     end)
    any_exception (fun _ => ret tt).

(** Lines 410-422: restart the binary when the error file is present. *)
Definition restart_on_error : M unit :=
  match err_output_path cfg with
  | Some p =>
      if truthy p then
        let* present := os_path_isfile p in
        if present then
          try_except
            (let* p := get process in
             match p with
             | Some h =>
                 if not_running p then ret tt
                 else emit (EvTerminate (pid h))   (* process.terminate() *)
             | None => ret tt
             end >>
             launch)
            is_IOError (fun _ => ret tt)
        else ret tt
      else ret tt
  | None => ret tt
  end.

Definition enumerate {A} (l : list A) : list (nat * A) := combine (seq 0 (length l)) l.

(** One iteration of the main [while True] loop. *)
Definition tick : M unit :=
  time_sleep_ms (command_frequency * 1000) >>
  restart_on_error >>
  for_each (enumerate (remotes_paths cfg)) (fun ir => poll_feed (fst ir) (snd ir)).

(** [n] iterations of the main loop; [sys.exit] ends it. *)
Fixpoint main_loop (n : nat) : M unit :=
  match n with
  | O => ret tt
  | S n' => tick >> main_loop n'
  end.

(** Module initialisation (lines 382-392): the globals, then the first
    [get_node_id].  [now] is the clock in milliseconds. *)
Definition startup (now : Z) (files : gmap string File)
    (objects : gmap string string) (first_pid : nat) : State :=
  snd (get_node_id (idpath cfg)
         {| fs := files; bucket := objects; process := None; next_pid := first_pid;
            timestamps := [0; now / 1000]; read_node_id := None;
            generated_uuid := None; clock := now; trace := [] |}).

End Wrapper.

(** ** A concrete instance for running the model

    A stand-in for the decoding and signature libraries, simple enough to
    evaluate: an envelope's first line is looked up in a code book of
    payloads, a signature is valid when it is the key followed by the
    signed line, and the id file holds the bare node id. *)

Module Sample.

Definition book_lookup (book : list (string * Batch)) (line : string) : option Batch :=
  snd <$> List.find (fun e => bool_decide (fst e = line)) book.

Definition externals (book : list (string * Batch)) : Externals :=
  {| load_certificate := fun pem => if bool_decide (pem = "") then None else Some pem;
     json_loads := fun line =>
       if bool_decide (line = "null") then Some None
       else match book_lookup book line with
            | Some b => Some (Some b)
            | None => None
            end;
     json_loads_sig := fun line =>
       if bool_decide (strip line = "") then None
       else Some {| signature := Some (strip line) |};
     b64decode := fun s => Some s;
     crypto_verify := fun key sig payload => bool_decide (sig = key +:+ payload);
     json_loads_idf := fun content =>
       if bool_decide (content = "") then None else Some {| idf_id := Some content |};
     uuid1 := fun now => "uuid-" +:+ pretty now |}.

Definition cfg : Config :=
  {| disableupdates := false;
     idpath := "/opt/xxnetwork/logs/IDF.json";
     binary_path := "/opt/xxnetwork/bin/node";
     management_directory := "mgmt";
     rsa_certificate_path := "/opt/xxnetwork/creds/network_management.crt";
     log_path := "/opt/xxnetwork/logs/xx.log";
     err_output_path := None;
     config_file := "/opt/xxnetwork/node.yaml";
     cmd_log_dir := "/opt/xxnetwork/cmdlog";
     wrapper_path := "/opt/xxnetwork/wrapper.py" |}.

Definition regular (bytes : string) (m : Z) : File :=
  {| is_dir := false; data := bytes; mode := m |}.

Definition no_info : Info :=
  {| info_time := 0; info_install_path := ""; info_path := ""; info_sha256sum := "" |}.

Definition simple (kind : string) : Command :=
  {| cmd_nodes := None; cmd_command := kind; cmd_info := no_info |}.

Definition delay (ms : Z) : Command :=
  {| cmd_nodes := None; cmd_command := "delay";
     cmd_info := {| info_time := ms; info_install_path := ""; info_path := "";
                    info_sha256sum := "" |} |}.

Definition update (key remote sum : string) : Command :=
  {| cmd_nodes := None; cmd_command := "update";
     cmd_info := {| info_time := 0; info_install_path := key; info_path := remote;
                    info_sha256sum := sum |} |}.

(** An envelope for [line] signed with the certificate [pem]. *)
Definition envelope (pem line : string) : string :=
  line +:+ String newline (pem +:+ line +:+ String newline "").

Definition pem : string := "-----BEGIN CERTIFICATE-----".

(** The machine after start-up at [now] ms: certificate and node id in
    place, the binary installed and executable, nothing running. *)
Definition files : gmap string File :=
  <[rsa_certificate_path cfg := regular pem 420]>
  (<[idpath cfg := regular "node-1" 420]>
  (<[binary_path cfg := regular "v1" 493]> ∅)).

Definition machine (now : Z) (objects : gmap string string) : State :=
  {| fs := files;
     bucket := objects; process := None; next_pid := 100%nat;
     timestamps := [0; now / 1000]; read_node_id := None; generated_uuid := None;
     clock := now; trace := [] |}.

End Sample.

(** * Vocabulary of the properties *)

Local Open Scope Z_scope.

(** The final state of [m] is [R]-related to the initial one, whatever the
    outcome. *)
Definition preserves {A} (R : relation State) (m : M A) : Prop := ∀ s, R s (m s).2.

Definition same_timestamps : relation State :=
  fun s s' => timestamps s' = timestamps s.

(** Within one batch every assignment to [timestamps] writes the batch's
    timestamp at the feed's index. *)
Definition stamped (i : nat) (t : Z) : relation State :=
  fun s s' => timestamps s' = timestamps s ∨ timestamps s' = <[i := t]> (timestamps s).

Definition nondecreasing : relation State :=
  fun s s' => Forall2 Z.le (timestamps s) (timestamps s').

(** The poll loop's own traffic for a feed: fetching the envelope and
    copying it to the command log. *)
Definition feed_io (remote_path : string) (e : event) : Prop :=
  (∃ ok, e = EvDownload remote_path (local_path_of remote_path) ok)
  ∨ (∃ dest, e = EvCopyfile (local_path_of remote_path) dest).

(** No Supervisor or Update effect: the wrapped process and the timestamps
    are as before, the only system calls are the feed's own traffic, and
    the only files written are the scratch copy of the feed and entries of
    the command log. *)
Definition quiet (cfg : Config) (remote_path : string) : relation State :=
  fun s s' =>
    process s' = process s
    ∧ timestamps s' = timestamps s
    ∧ (∃ evs : list event, trace s' = (trace s ++ evs)%list ∧ Forall (feed_io remote_path) evs)
    ∧ (∀ p, p ≠ local_path_of remote_path →
            (∀ name, p ≠ cmd_log_dir cfg +:+ "/" +:+ name) →
            fs s' !! p = fs s !! p).

(** The agent's history: poll ticks interleaved with changes made by the
    rest of the world (files, bucket, the child exiting, time passing),
    which never write the script's [timestamps]. *)
Inductive evolves (X : Externals) (cfg : Config) : relation State :=
  | evolves_here s : evolves X cfg s s
  | evolves_tick s s' : evolves X cfg s s' → evolves X cfg s (tick X cfg s').2
  | evolves_world s s' w :
      evolves X cfg s s' → timestamps w = timestamps s' → evolves X cfg s w.

(** [str.lower()] on ASCII letters. *)
Definition ascii_lower (c : ascii) : ascii :=
  let n := N_of_ascii c in
  if (N.leb 65 n && N.leb n 90)%bool then ascii_of_N (n + 32) else c.

Fixpoint lower (s : string) : string :=
  match s with
  | EmptyString => EmptyString
  | String c rest => String (ascii_lower c) (lower rest)
  end.

(** The state [os.chmod(binary_path, stat.S_IEXEC)] leaves when the binary
    is the entry [f]. *)
Definition chmod_binary (cfg : Config) (f : File) (s : State) : State :=
  set_trace (trace s ++ [EvChmod (binary_path cfg) S_IEXEC])
    (set_fs (<[binary_path cfg := {| is_dir := is_dir f; data := data f; mode := S_IEXEC |}]> (fs s)) s).

(** Every file that changed sits at a registry path or at the [.tmp]
    sibling of one. *)
Definition confined (cfg : Config) : relation State :=
  fun s s' =>
    ∀ p, (∀ k target, valid_paths cfg !! k = Some target →
                      p ≠ target ∧ p ≠ target +:+ ".tmp") →
         fs s' !! p = fs s !! p.

Definition never_exits {A} (m : M A) : Prop := ∀ s c, (m s).1 ≠ Exit c.

(** An entry that is skipped or rejected without raising: not addressed
    to this node, or an update that is disabled, names an unknown install
    path, fails the digest comparison or fails at the rename. *)
Definition skipped_or_rejected (cfg : Config) (node_id : string) (c : Command)
    (s : State) : Prop :=
  not_for_us node_id c = true
  ∨ (not_for_us node_id c = false
     ∧ cmd_command c = "update"
     ∧ (disableupdates cfg = true
        ∨ valid_paths cfg !! info_install_path (cmd_info c) = None
        ∨ ∃ target bytes,
            disableupdates cfg = false
            ∧ valid_paths cfg !! info_install_path (cmd_info c) = Some target
            ∧ let s1 := (download (management_directory cfg +:+ "/" +:+ info_path (cmd_info c))
                           (target +:+ ".tmp") s).2 in
              open_read (target +:+ ".tmp") s1 = (Ok bytes, s1)
              ∧ (Sha256.hexdigest bytes ≠ info_sha256sum (cmd_info c)
                 ∨ ∃ e, os_replace (target +:+ ".tmp") target s1 = (Raise e, s1)))).

(** ** Concrete runs *)

Module Runs.
Import Sample.

Definition stop_then_delay (t : Z) : Batch :=
  {| timestamp := t; commands := [simple "stop"; delay 5] |}.

(** The command feed carries a batch stamped 150; the agent started at
    second 200. *)
Definition book150 : list (string * Batch) := [("batch-150", stop_then_delay 150)].

Definition started_at_200 : State :=
  machine 200000 (<[command_file cfg := envelope pem "batch-150"]> ∅).

(** An update of [key] from the object "v2/node" (bytes "v2"). *)
Definition with_artifact : State := machine 100000 (<["mgmt/v2/node" := "v2"]> ∅).

Definition v2_digest : string :=
  "fb04dcb6970e4c3d1873de51fd5a50d7bb46b3383113602665c350ec40b5f990".
Definition v2_digest_upper : string :=
  "FB04DCB6970E4C3D1873DE51FD5A50D7BB46B3383113602665C350EC40B5F990".

Definition update_info (key sum : string) : Info :=
  {| info_time := 0; info_install_path := key; info_path := "v2/node";
     info_sha256sum := sum |}.

(** A batch that replaces the wrapper itself and then sleeps 5 ms. *)
Definition wrapper_batch : Batch :=
  {| timestamp := 150;
     commands := [ update "wrapper" "v2/wrapper.py"
                     "959b06ecf899214a905f849305349ff9dc149f208bf1d4c795af93265830f8fa";
                   delay 5 ] |}.

Definition wrapper_book : list (string * Batch) := [("batch-w", wrapper_batch)].

Definition wrapper_published : State :=
  machine 100000
    (<[command_file cfg := envelope pem "batch-w"]>
     (<["mgmt/v2/wrapper.py" := "new wrapper"]> ∅)).

(** Started at second 200 with a batch stamped 150 on the version feed. *)
Definition version_objects : gmap string string :=
  <[version_file cfg := envelope pem "batch-150"]> ∅.

(** The binary is missing; the command feed asks to start it, then to
    sleep 5 ms. *)
Definition start_then_delay : Batch :=
  {| timestamp := 150; commands := [simple "start"; delay 5] |}.

Definition start_book : list (string * Batch) := [("batch-s", start_then_delay)].

Definition binary_missing : State :=
  let s := machine 100000 (<[command_file cfg := envelope pem "batch-s"]> ∅) in
  set_fs (delete (binary_path cfg) (fs s)) s.

(** Two rejected updates (unknown path, wrong digest) and a delay. *)
Definition mixed_batch : Batch :=
  {| timestamp := 150;
     commands := [ update "../etc/passwd" "v2/node" v2_digest;
                   update "binary" "v2/node" "0000";
                   delay 5 ] |}.

Definition mixed_book : list (string * Batch) := [("batch-m", mixed_batch)].

Definition mixed_published : State :=
  machine 100000
    (<[command_file cfg := envelope pem "batch-m"]> (<["mgmt/v2/node" := "v2"]> ∅)).

End Runs.


(** * The log backup service *)

(** [upload] and [backup_log] run in a second thread with their own
    bucket and rotation index; the embedding gives one iteration of the
    loop, run without interleaving with the poll loop.  [put_succeeds]
    says whether the object store accepts the [put_object] of this
    iteration. *)
Record BackupState := {
  world : State;
  log_bucket : gmap string string;   (* the S3 log bucket: key -> object bytes *)
  log_index : Z;                     (* log_index *)
  put_succeeds : bool
}.

Definition megabyte : Z := 1048576.
Definition backup_frequency : Z := 10.

(** [upload]: reads the local file and stores it under [dst_path]; every
    failure, of the local read or of the store, is logged and swallowed
    inside the function. *)
Definition upload (src_path dst_path : string) (b : BackupState) : BackupState :=
  match open_read src_path (world b) with
  | (Ok upload_data, _) =>
      if put_succeeds b then
        {| world := world b;
           log_bucket := <[dst_path := upload_data]> (log_bucket b);
           log_index := log_index b;
           put_succeeds := put_succeeds b |}
      else b
  | _ => b
  end.

(** [os.path.getsize(p)]. *)
Definition os_path_getsize (p : string) : M Z :=
  fun s =>
    match fs s !! p with
    | Some f => (Ok (Z.of_nat (String.length (data f))), s)
    | None => (Raise OSError, s)
    end.

(** [open(p, 'w').close()]: truncates in place, or creates an empty file. *)
Definition open_truncate (p : string) : M unit :=
  fun s =>
    match fs s !! p with
    | Some f =>
        if is_dir f then (Raise OSError, s)
        else (Ok tt, set_fs (<[p := {| is_dir := false; data := ""; mode := mode f |}]> (fs s)) s)
    | None =>
        (Ok tt, set_fs (<[p := {| is_dir := false; data := ""; mode := default_mode |}]> (fs s)) s)
    end.

(** ["{}-{}-{}".format(log_prefix, log_index, log_name)]. *)
Definition backup_object_key (log_prefix : string) (index : Z) (log_name : string) : string :=
  log_prefix +:+ "-" +:+ pretty index +:+ "-" +:+ log_name.

(** One iteration of the [while True] of [backup_log]. *)
Definition backup_log_iteration (X : Externals) (src_path id_path : string)
    (b : BackupState) : BackupState :=
  let log_name := basename src_path in
  let w1 := (time_sleep_ms (backup_frequency * 1000) (world b)).2 in
  match get_node_id X id_path w1 with
  | (Ok log_prefix, w2) =>
      let b2 := upload src_path (backup_object_key log_prefix (log_index b) log_name)
                  {| world := w2; log_bucket := log_bucket b; log_index := log_index b;
                     put_succeeds := put_succeeds b |} in
      match os_path_getsize src_path (world b2) with
      | (Ok log_size, _) =>
          if Z.ltb (100 * megabyte) log_size then
            match open_truncate src_path (world b2) with
            | (Ok _, w3) =>
                {| world := w3; log_bucket := log_bucket b2; log_index := log_index b2 + 1;
                   put_succeeds := put_succeeds b |}
            | (_, w3) =>
                {| world := w3; log_bucket := log_bucket b2; log_index := log_index b2;
                   put_succeeds := put_succeeds b |}
            end
          else b2
      | _ => b2
      end
  | (_, w2) => {| world := w2; log_bucket := log_bucket b; log_index := log_index b;
                  put_succeeds := put_succeeds b |}
  end.

(** * Further vocabulary *)

(** How a computation may end: it raises only exceptions accepted by [R],
    and exits only if [E]. *)
Definition ends {A} (R : exn → bool) (E : bool) (m : M A) : Prop :=
  ∀ s, match (m s).1 with
       | Ok _ => True
       | Raise e => R e = true
       | Exit _ => E = true
       end.

Definition no_exception (e : exn) : bool := false.

(** The node id caches are as before. *)
Definition same_identity : relation State :=
  fun s s' => read_node_id s' = read_node_id s ∧ generated_uuid s' = generated_uuid s.

(** A non-empty cached id, read or generated, is never replaced. *)
Definition identity_kept : relation State :=
  fun s s' =>
    (∀ v, read_node_id s = Some v → truthy v = true → read_node_id s' = Some v)
    ∧ (∀ u, generated_uuid s = Some u → truthy u = true → generated_uuid s' = Some u).

(** The clock does not run backwards. *)
Definition later : relation State := fun s s' => (clock s ≤ clock s')%Z.

(** [os.replace] and [os.chmod], the calls that install an update. *)
Definition is_install (e : event) : bool :=
  match e with
  | EvReplace _ _ | EvChmod _ _ => true
  | _ => false
  end.

(** The calls made from [s] to [s'] install nothing. *)
Definition installs_nothing : relation State :=
  fun s s' =>
    ∃ evs : list event, trace s' = (trace s ++ evs)%list ∧ Forall (fun e => is_install e = false) evs.

(** The name under which [save_cmd] logs a command file. *)
Definition cmd_log_name (dest_dir f0 f1 : string) (valid : bool) (cmd_time : Z) : string :=
  dest_dir +:+ "/" +:+ (if valid then f0 else "INVALID_" +:+ f0) +:+ "_"
    +:+ pretty cmd_time +:+ "." +:+ f1.

(** An entry that is not addressed to this node, or whose kind is none of
    [start], [stop], [delay], [update]. *)
Definition inert (node_id : string) (c : Command) : Prop :=
  not_for_us node_id c = true
  ∨ cmd_command c ∉ ["start"; "stop"; "delay"; "update"].

(** The wrapped binary can be spawned: it is an executable regular file and
    the log file can be opened for appending. *)
Definition spawnable (cfg : Config) (s : State) : Prop :=
  (∃ f, fs s !! binary_path cfg = Some f ∧ executable f = true)
  ∧ (∀ g, fs s !! log_path cfg = Some g → is_dir g = false).

(** The arguments [launch] passes to the binary. *)
Definition launch_args (cfg : Config) (s : State) : list string :=
  match fs s !! config_file cfg with
  | Some f => if is_dir f then [] else ["--config"; config_file cfg]
  | None => []
  end.

(** The state a successful [launch] leaves: the log file exists, a new
    child runs under the next pid. *)
Definition launched (cfg : Config) (s : State) : State :=
  let s0 := (open_append (log_path cfg) s).2 in
  set_process (Some {| pid := next_pid s; returncode := None |})
    (set_trace (trace s ++ [EvPopen (binary_path cfg) (launch_args cfg s) (next_pid s)])
       (set_next_pid (S (next_pid s)) s0)).


(** What [os.chmod(p, stat.S_IEXEC)] makes of an entry. *)
Definition as_executable (f : File) : File :=
  {| is_dir := is_dir f; data := data f; mode := S_IEXEC |}.

(** The file system an update leaves once the entry [nf] at
    [<target>.tmp] has passed the digest comparison: the rename, then the
    chmod of the binary. *)
Definition installed_fs (cfg : Config) (target : string) (nf : File)
    (m : gmap string File) : gmap string File :=
  let m2 := <[target := nf]> (delete (target +:+ ".tmp") m) in
  match m2 !! binary_path cfg with
  | Some f => <[binary_path cfg := as_executable f]> m2
  | None => m2
  end.

(** The entry a download creates. *)
Definition downloaded (bytes : string) : File :=
  {| is_dir := false; data := bytes; mode := default_mode |}.

(** What [open(p, 'w').close()] makes of a regular file. *)
Definition emptied (f : File) : File :=
  {| is_dir := false; data := ""; mode := mode f |}.

(** A string without a line end (newline or carriage return), and a
    string of white space only. *)
Definition one_line (l : string) : Prop :=
  Forall (fun c => c ≠ newline ∧ c ≠ carriage_return) (list_ascii_of_string l).

Definition blank (pad : string) : Prop :=
  Forall (fun c => is_space c = true) (list_ascii_of_string pad).

Module Supervised.
Import Sample.

Definition start_cmd : Command := simple "start".
Definition stop_cmd : Command := simple "stop".

(** The machine with a child running under pid 7. *)
Definition running : State :=
  set_process (Some {| pid := 7; returncode := None |}) (machine 100000 ∅).


(** The sample configuration started with [--disableupdates]. *)
Definition cfg_no_updates : Config :=
  {| disableupdates := true; idpath := idpath cfg;
     binary_path := binary_path cfg; management_directory := management_directory cfg;
     rsa_certificate_path := rsa_certificate_path cfg; log_path := log_path cfg;
     err_output_path := err_output_path cfg;
     config_file := config_file cfg; cmd_log_dir := cmd_log_dir cfg;
     wrapper_path := wrapper_path cfg |}.

(** The command feed carries an envelope signed with another key. *)
Definition forged_feed : State :=
  machine 100000 (<[command_file cfg := envelope "forged" "batch-150"]> ∅).

(** A batch for two other nodes, with an entry of an unknown kind. *)
Definition foreign_batch : list Command :=
  [ {| cmd_nodes := Some ["node-2"; "node-3"]; cmd_command := "stop"; cmd_info := no_info |};
    simple "reboot" ].

(** The backup thread at rotation index 3, the binary's log holding one
    line, the node id already read. *)
Definition logging : BackupState :=
  let s := machine 100000 ∅ in
  {| world := set_read_node_id (Some "node-1")
                (set_fs (<[log_path cfg := regular "started" 420]> (fs s)) s);
     log_bucket := ∅;
     log_index := 3;
     put_succeeds := true |}.

(** The machine with the command-log directory in place and the command
    feed fetched to its scratch copy. *)
Definition directory : File := {| is_dir := true; data := ""; mode := 493 |}.

Definition with_cmdlog : State :=
  let s := machine 200000 ∅ in
  set_fs (<[cmd_log_dir cfg := directory]>
          (<["/tmp/command.jsonl" := regular "first" 420]> (fs s))) s.

(** The command feed carries an update of the binary, then a delay; the
    object of the update was never published. *)
Definition unpublished_batch : Batch :=
  {| timestamp := 150;
     commands := [ update "binary" "v3/node" Runs.v2_digest; delay 5 ] |}.

Definition unpublished_book : list (string * Batch) := [("batch-u", unpublished_batch)].

Definition unpublished : State :=
  machine 100000 (<[command_file cfg := envelope pem "batch-u"]> ∅).


End Supervised.
(** * Properties *)

(** ** Test vectors of the digest *)

Example sha256_empty :
  Sha256.hexdigest "" = "e3b0c44298fc1c149afbf4c8996fb92427ae41e4649b934ca495991b7852b855".
Proof. vm_compute. reflexivity. Qed.

Example sha256_abc :
  Sha256.hexdigest "abc" = "ba7816bf8f01cfea414140de5dae2223b00361a396177a9cb410ff61f20015ad".
Proof. vm_compute. reflexivity. Qed.

Example sha256_two_blocks :
  Sha256.hexdigest "aaaaaaaaaaaaaaaaaaaaaaaaaaaaaaaaaaaaaaaaaaaaaaaaaaaaaaaa"
  = "b35439a4ac6f0948b6d6f9e3c6af0f5f590ce20f1bde7090ef7970686ec6738a".
Proof. vm_compute. reflexivity. Qed.


(** ** Frame reasoning: what a computation leaves related *)

Section Frames.

Context (R : relation State) `{!Reflexive R} `{!Transitive R}.

Lemma preserves_ret {A} (a : A) : preserves R (ret a).
Proof. intros s. reflexivity. Qed.

Lemma preserves_raise {A} (e : exn) : preserves R (@raise A e).
Proof. intros s. reflexivity. Qed.

Lemma preserves_sys_exit {A} (c : Z) : preserves R (@sys_exit A c).
Proof. intros s. reflexivity. Qed.

Lemma preserves_get {A} (f : State → A) : preserves R (get f).
Proof. intros s. reflexivity. Qed.

Lemma preserves_modify (f : State → State) : (∀ s, R s (f s)) → preserves R (modify f).
Proof. intros Hf s. apply Hf. Qed.

Lemma preserves_bind {A B} (m : M A) (k : A → M B) :
  preserves R m → (∀ a, preserves R (k a)) → preserves R (bind m k).
Proof.
  intros Hm Hk s. unfold bind. specialize (Hm s).
  destruct (m s) as [[a | e | c] s1]; simpl in *; [|done..].
  etransitivity; [exact Hm | apply Hk].
Qed.

Lemma preserves_try_except {A} (m : M A) (catches : exn → bool) (h : exn → M A) :
  preserves R m → (∀ e, preserves R (h e)) → preserves R (try_except m catches h).
Proof.
  intros Hm Hh s. unfold try_except. specialize (Hm s).
  destruct (m s) as [[a | e | c] s1]; simpl in *; [done | | done].
  destruct (catches e); [|done].
  etransitivity; [exact Hm | apply Hh].
Qed.

Lemma preserves_for_each {A} (l : list A) (body : A → M unit) :
  (∀ x, preserves R (body x)) → preserves R (for_each l body).
Proof.
  intros Hb. induction l as [|x l IH]; simpl.
  - apply preserves_ret.
  - apply preserves_bind; [apply Hb | intros _; exact IH].
Qed.

End Frames.

Lemma preserves_weaken {A} (R R' : relation State) (m : M A) :
  (∀ s s', R s s' → R' s s') → preserves R m → preserves R' m.
Proof. intros HR Hm s. apply HR, Hm. Qed.

(** Structural steps of a frame proof: split binds, handlers and loops,
    case on the conditions of the source. *)
Ltac frame_step :=
  lazymatch goal with
  | |- preserves _ _ =>
      first
        [ apply preserves_ret; typeclasses eauto
        | apply preserves_raise; typeclasses eauto
        | apply preserves_sys_exit; typeclasses eauto
        | apply preserves_get; typeclasses eauto
        | apply preserves_bind; try typeclasses eauto
        | apply preserves_try_except; try typeclasses eauto
        | apply preserves_for_each; try typeclasses eauto
        | progress cbv zeta
        | case_match ]
  | |- ∀ _, _ => intro
  end.

Ltac frame_with db :=
  repeat first [ solve [ auto 1 with db nocore ] | frame_step ].

(** ** The timestamps are touched by [timestamps[i] = timestamp] only *)

#[global] Instance same_timestamps_refl : Reflexive same_timestamps.
Proof. intros s. reflexivity. Qed.

#[global] Instance same_timestamps_trans : Transitive same_timestamps.
Proof. intros s1 s2 s3 H12 H23. unfold same_timestamps in *. congruence. Qed.

Create HintDb keeps_ts.

(** A primitive written as an explicit state function. *)
Ltac prim_keeps_ts f :=
  intros s; unfold f, same_timestamps; repeat case_match; reflexivity.

Lemma time_sleep_ms_keeps_ts ms : preserves same_timestamps (time_sleep_ms ms).
Proof.
  unfold time_sleep_ms, emit. frame_with keeps_ts;
    apply preserves_modify; intros ?; reflexivity.
Qed.
#[global] Hint Resolve time_sleep_ms_keeps_ts : keeps_ts.

Lemma emit_keeps_ts e : preserves same_timestamps (emit e).
Proof. apply preserves_modify; intros ?; reflexivity. Qed.
#[global] Hint Resolve emit_keeps_ts : keeps_ts.

Lemma open_read_keeps_ts p : preserves same_timestamps (open_read p).
Proof. prim_keeps_ts open_read. Qed.
#[global] Hint Resolve open_read_keeps_ts : keeps_ts.

Lemma open_append_keeps_ts p : preserves same_timestamps (open_append p).
Proof. prim_keeps_ts open_append. Qed.
#[global] Hint Resolve open_append_keeps_ts : keeps_ts.

Lemma os_replace_keeps_ts a b : preserves same_timestamps (os_replace a b).
Proof. prim_keeps_ts os_replace. Qed.
#[global] Hint Resolve os_replace_keeps_ts : keeps_ts.

Lemma os_chmod_keeps_ts p m : preserves same_timestamps (os_chmod p m).
Proof. prim_keeps_ts os_chmod. Qed.
#[global] Hint Resolve os_chmod_keeps_ts : keeps_ts.

Lemma subprocess_Popen_keeps_ts b a : preserves same_timestamps (subprocess_Popen b a).
Proof. prim_keeps_ts subprocess_Popen. Qed.
#[global] Hint Resolve subprocess_Popen_keeps_ts : keeps_ts.

Lemma download_keeps_ts a b : preserves same_timestamps (download a b).
Proof. prim_keeps_ts download. Qed.
#[global] Hint Resolve download_keeps_ts : keeps_ts.

Lemma shutil_copyfile_keeps_ts a b : preserves same_timestamps (shutil_copyfile a b).
Proof.
  unfold shutil_copyfile. apply preserves_bind; try typeclasses eauto; [auto with keeps_ts |].
  intros content s. unfold same_timestamps. repeat case_match; reflexivity.
Qed.
#[global] Hint Resolve shutil_copyfile_keeps_ts : keeps_ts.

Lemma save_cmd_keeps_ts f d v t : preserves same_timestamps (save_cmd f d v t).
Proof. unfold save_cmd. frame_with keeps_ts. Qed.
#[global] Hint Resolve save_cmd_keeps_ts : keeps_ts.

Lemma start_binary_keeps_ts b l a : preserves same_timestamps (start_binary b l a).
Proof. unfold start_binary. frame_with keeps_ts. Qed.
#[global] Hint Resolve start_binary_keeps_ts : keeps_ts.

Lemma terminate_process_keeps_ts p : preserves same_timestamps (terminate_process p).
Proof.
  unfold terminate_process. frame_with keeps_ts.
  apply preserves_modify; intros ?; reflexivity.
Qed.
#[global] Hint Resolve terminate_process_keeps_ts : keeps_ts.

Lemma verify_cmd_keeps_ts X inbuf p : preserves same_timestamps (verify_cmd X inbuf p).
Proof. unfold verify_cmd. frame_with keeps_ts. Qed.
#[global] Hint Resolve verify_cmd_keeps_ts : keeps_ts.

Lemma get_node_id_keeps_ts X p : preserves same_timestamps (get_node_id X p).
Proof.
  unfold get_node_id, os_path_exists. frame_with keeps_ts;
    apply preserves_modify; intros ?; reflexivity.
Qed.
#[global] Hint Resolve get_node_id_keeps_ts : keeps_ts.

Lemma launch_keeps_ts cfg : preserves same_timestamps (launch cfg).
Proof.
  unfold launch, os_path_isfile. frame_with keeps_ts.
  apply preserves_modify; intros ?; reflexivity.
Qed.
#[global] Hint Resolve launch_keeps_ts : keeps_ts.

#[global] Instance stamped_refl i t : Reflexive (stamped i t).
Proof. intros s. by left. Qed.

#[global] Instance stamped_trans i t : Transitive (stamped i t).
Proof.
  intros s1 s2 s3 [H12 | H12] [H23 | H23]; unfold stamped; rewrite H23, H12;
    rewrite ?list_insert_insert_eq; auto.
Qed.

Lemma keeps_ts_stamped {A} i t (m : M A) :
  preserves same_timestamps m → preserves (stamped i t) m.
Proof. apply preserves_weaken. intros s s' H. by left. Qed.

Lemma set_timestamp_stamped i t : preserves (stamped i t) (set_timestamp i t).
Proof. intros s. unfold set_timestamp. case_decide; simpl; [by right | by left]. Qed.

Create HintDb stamps.
#[global] Hint Resolve set_timestamp_stamped : stamps.
#[global] Hint Extern 1 (preserves (stamped _ _) _) =>
  apply keeps_ts_stamped; solve [ auto 1 with keeps_ts nocore ] : stamps.

Lemma install_update_stamped cfg i t tmp target :
  preserves (stamped i t) (install_update cfg i t tmp target).
Proof. unfold install_update. frame_with stamps. Qed.
#[global] Hint Resolve install_update_stamped : stamps.

Lemma update_command_stamped cfg i t info :
  preserves (stamped i t) (update_command cfg i t info).
Proof. unfold update_command. frame_with stamps. Qed.
#[global] Hint Resolve update_command_stamped : stamps.

Lemma run_command_stamped cfg i t node_id c :
  preserves (stamped i t) (run_command cfg i t node_id c).
Proof. unfold run_command. frame_with stamps. Qed.
#[global] Hint Resolve run_command_stamped : stamps.

(** ** Timestamps never decrease *)

#[global] Instance nondecreasing_refl : Reflexive nondecreasing.
Proof. intros s. unfold nondecreasing. apply Forall2_same_length_lookup_2; [done |]. intros; simplify_eq; lia. Qed.

#[global] Instance nondecreasing_trans : Transitive nondecreasing.
Proof.
  intros s1 s2 s3 H12 H23. unfold nondecreasing in *.
  eapply Forall2_trans; [| exact H12 | exact H23]. intros; lia.
Qed.

Lemma insert_newer_nondecreasing (l : list Z) (i : nat) (last t : Z) :
  l !! i = Some last → last ≤ t → Forall2 Z.le l (<[i := t]> l).
Proof.
  intros Hl Hle. apply Forall2_same_length_lookup_2; [by rewrite length_insert |].
  intros j x y Hx Hy. destruct (decide (i = j)) as [-> | Hne].
  - rewrite list_lookup_insert_eq in Hy by (by eapply lookup_lt_Some).
    simplify_eq. lia.
  - rewrite list_lookup_insert_ne in Hy by done. simplify_eq. lia.
Qed.

Lemma keeps_ts_nondecreasing {A} (m : M A) :
  preserves same_timestamps m → preserves nondecreasing m.
Proof.
  apply preserves_weaken. intros s s' H. unfold nondecreasing. rewrite H.
  apply (nondecreasing_refl s).
Qed.

Create HintDb mono.
#[global] Hint Extern 1 (preserves nondecreasing _) =>
  apply keeps_ts_nondecreasing; solve [ auto 1 with keeps_ts nocore ] : mono.

Lemma dispatch_stamped X cfg i t cmds :
  preserves (stamped i t)
    (let* node_id := get_node_id X (idpath cfg) in
     for_each cmds (run_command cfg i t node_id) >> set_timestamp i t).
Proof. frame_with stamps. Qed.

Lemma process_batch_nondecreasing X cfg i local b ok :
  preserves nondecreasing (process_batch X cfg i local b ok).
Proof.
  intros s. unfold process_batch, bind at 1.
  pose proof (save_cmd_keeps_ts local (cmd_log_dir cfg) ok (timestamp b) s) as Hsave.
  destruct (save_cmd _ _ _ _ s) as [[[] | e | c] s0]; unfold same_timestamps in Hsave;
    simpl in Hsave; unfold nondecreasing; simpl;
    try (rewrite Hsave; apply (nondecreasing_refl s)).
  unfold bind at 1, get_timestamp.
  destruct (timestamps s0 !! i) as [last |] eqn:Hlast; simpl;
    [| rewrite Hsave; apply (nondecreasing_refl s)].
  destruct (Z.leb_spec (timestamp b) last) as [Hstale | Hnew]; simpl;
    [rewrite Hsave; apply (nondecreasing_refl s) |].
  destruct (dispatch_stamped X cfg i (timestamp b) (commands b) s0) as [Hd | Hd];
    rewrite Hd, <- Hsave; [apply (nondecreasing_refl s0) |].
  eapply insert_newer_nondecreasing; [exact Hlast | lia].
Qed.
#[global] Hint Resolve process_batch_nondecreasing : mono.

Lemma fetch_commands_keeps_ts X cfg remote :
  preserves same_timestamps (fetch_commands X cfg remote).
Proof. unfold fetch_commands. frame_with keeps_ts. Qed.
#[global] Hint Resolve fetch_commands_keeps_ts : keeps_ts.

Lemma poll_feed_nondecreasing X cfg i remote :
  preserves nondecreasing (poll_feed X cfg i remote).
Proof. unfold poll_feed, time_time. frame_with mono. Qed.
#[global] Hint Resolve poll_feed_nondecreasing : mono.

Lemma restart_on_error_keeps_ts cfg : preserves same_timestamps (restart_on_error cfg).
Proof. unfold restart_on_error, os_path_isfile. frame_with keeps_ts. Qed.
#[global] Hint Resolve restart_on_error_keeps_ts : keeps_ts.

Lemma tick_nondecreasing X cfg : preserves nondecreasing (tick X cfg).
Proof. unfold tick. frame_with mono. Qed.

Lemma main_loop_nondecreasing X cfg n : preserves nondecreasing (main_loop X cfg n).
Proof.
  induction n as [|n IH]; simpl.
  - apply preserves_ret. typeclasses eauto.
  - apply preserves_bind; try typeclasses eauto; [apply tick_nondecreasing | intros _; exact IH].
Qed.

Lemma evolves_nondecreasing X cfg s w : evolves X cfg s w → nondecreasing s w.
Proof.
  induction 1 as [s | s s' _ IH | s s' w _ IH Hw].
  - reflexivity.
  - etransitivity; [exact IH | apply tick_nondecreasing].
  - unfold nondecreasing in *. by rewrite Hw.
Qed.

(** ** Polling a feed without dispatching anything *)

#[global] Instance quiet_refl cfg remote : Reflexive (quiet cfg remote).
Proof.
  intros s. split; [done |]. split; [done |]. split; [| done].
  exists []. by rewrite app_nil_r.
Qed.

#[global] Instance quiet_trans cfg remote : Transitive (quiet cfg remote).
Proof.
  intros s1 s2 s3 (Hp & Ht & (evs & He & Hf) & Hfs) (Hp' & Ht' & (evs' & He' & Hf') & Hfs').
  split; [congruence |]. split; [congruence |]. split.
  - exists (evs ++ evs')%list. rewrite He', He, <- app_assoc. split; [done |].
    by apply Forall_app.
  - intros p Hl Hd. rewrite Hfs', Hfs; done.
Qed.

Lemma quiet_event cfg remote s e :
  feed_io remote e → quiet cfg remote s (set_trace (trace s ++ [e]) s).
Proof.
  intros He. split; [done |]. split; [done |]. split; [| done].
  exists [e]. split; [done |]. by apply Forall_singleton.
Qed.

Lemma quiet_write cfg remote s p f e :
  feed_io remote e →
  p = local_path_of remote ∨ (∃ name, p = cmd_log_dir cfg +:+ "/" +:+ name) →
  quiet cfg remote s (set_trace (trace s ++ [e]) (set_fs (<[p := f]> (fs s)) s)).
Proof.
  intros He Hp. split; [done |]. split; [done |]. split.
  - exists [e]. split; [done |]. by apply Forall_singleton.
  - intros q Hl Hd. simpl. apply lookup_insert_ne.
    destruct Hp as [-> | [name ->]]; [done |]. intros <-. by eapply Hd.
Qed.

Lemma download_quiet cfg remote :
  preserves (quiet cfg remote) (download remote (local_path_of remote)).
Proof.
  intros s. unfold download.
  repeat case_match; simpl;
    first [ apply quiet_write; [left; eauto | by left]
          | apply quiet_event; left; eauto ].
Qed.

Lemma open_read_same p s : (open_read p s).2 = s.
Proof. unfold open_read. by repeat case_match. Qed.

Lemma verify_cmd_same X inbuf p s : (verify_cmd X inbuf p s).2 = s.
Proof.
  unfold verify_cmd, bind. pose proof (open_read_same p s) as H.
  by destruct (open_read p s) as [[a | e | c] s'].
Qed.

Lemma fetch_commands_quiet X cfg remote :
  preserves (quiet cfg remote) (fetch_commands X cfg remote).
Proof.
  unfold fetch_commands. apply preserves_bind; try typeclasses eauto.
  - apply download_quiet.
  - intros _. apply preserves_bind; try typeclasses eauto.
    + intros s. rewrite open_read_same. reflexivity.
    + intros f s. rewrite verify_cmd_same. reflexivity.
Qed.

Lemma shutil_copyfile_quiet cfg remote name :
  preserves (quiet cfg remote)
    (shutil_copyfile (local_path_of remote) (cmd_log_dir cfg +:+ "/" +:+ name)).
Proof.
  intros s. unfold shutil_copyfile, bind.
  pose proof (open_read_same (local_path_of remote) s) as Hsame.
  destruct (open_read (local_path_of remote) s) as [[a | e | c] s0];
    simpl in Hsame; subst s0; try reflexivity.
  repeat case_match; simpl;
    first [ reflexivity | apply quiet_write; [right; eauto | right; eauto] ].
Qed.

Lemma save_cmd_quiet cfg remote valid t :
  preserves (quiet cfg remote) (save_cmd (local_path_of remote) (cmd_log_dir cfg) valid t).
Proof.
  intros s. unfold save_cmd. repeat case_match; try reflexivity;
    apply shutil_copyfile_quiet.
Qed.

Lemma try_except_state {A} (m : M A) (a : A) s :
  (try_except m any_exception (fun _ => ret a) s).2 = (m s).2.
Proof. unfold try_except. by destruct (m s) as [[x | e | c] s']. Qed.

(** A poll of a feed either stays quiet, or its envelope verified and
    carries a timestamp strictly above the feed's. *)
Lemma poll_feed_quiet_or_newer X cfg i remote s :
  quiet cfg remote s (poll_feed X cfg i remote s).2
  ∨ ∃ b s1 last,
      fetch_commands X cfg remote s = (Ok (Some b, true), s1)
      ∧ timestamps s !! i = Some last
      ∧ last < timestamp b.
Proof.
  unfold poll_feed. rewrite try_except_state. unfold bind at 1.
  pose proof (fetch_commands_quiet X cfg remote s) as Hfetch.
  destruct (fetch_commands X cfg remote s) as [[[[b |] ok] | e | c] s1] eqn:Hf;
    simpl in Hfetch; [| | by left..].
  - destruct ok; simpl.
    + unfold process_batch, bind at 1.
      pose proof (save_cmd_quiet cfg remote true (timestamp b) s1) as Hsave.
      destruct (save_cmd _ _ _ _ s1) as [[[] | e | c] s2]; simpl in Hsave;
        [| left; simpl; by etransitivity..].
      unfold bind at 1, get_timestamp.
      destruct (timestamps s2 !! i) as [last |] eqn:Hlast;
        [| left; simpl; by etransitivity].
      destruct (Z.leb_spec (timestamp b) last) as [Hstale | Hnew].
      * left. simpl. by etransitivity.
      * right. exists b, s1, last. repeat split; [| done].
        destruct Hfetch as (_ & Ht1 & _), Hsave as (_ & Ht2 & _). congruence.
    + left. unfold bind, time_time, get. simpl.
      etransitivity; [exact Hfetch | apply save_cmd_quiet].
  - left. unfold bind, time_time, get. simpl.
    etransitivity; [exact Hfetch | apply save_cmd_quiet].
Qed.

Lemma save_cmd_no_exit f d v t s c : (save_cmd f d v t s).1 ≠ Exit c.
Proof.
  unfold save_cmd, shutil_copyfile, bind, open_read, raise.
  repeat case_match; simplify_eq; done.
Qed.

(** A verified batch whose timestamp does not exceed the feed's stays quiet. *)
Lemma stale_batch_quiet X cfg i remote s b s1 last :
  fetch_commands X cfg remote s = (Ok (Some b, true), s1) →
  timestamps s !! i = Some last →
  timestamp b ≤ last →
  (poll_feed X cfg i remote s).1 = Ok tt
  ∧ quiet cfg remote s (poll_feed X cfg i remote s).2.
Proof.
  intros Hf Hlast Hstale. split.
  - pose proof (save_cmd_keeps_ts (local_path_of remote) (cmd_log_dir cfg) true
                  (timestamp b) s1) as Hsave.
    pose proof (save_cmd_no_exit (local_path_of remote) (cmd_log_dir cfg) true
                  (timestamp b) s1) as Hexit.
    pose proof (fetch_commands_keeps_ts X cfg remote s) as Hfe. rewrite Hf in Hfe.
    unfold same_timestamps in *. simpl in *.
    unfold poll_feed, try_except, bind at 1. rewrite Hf. simpl.
    unfold process_batch, bind at 1.
    destruct (save_cmd _ _ _ _ s1) as [[[] | e | c'] s2]; simpl in *;
      [| done | exfalso; by apply (Hexit c')].
    unfold bind at 1, get_timestamp. rewrite Hsave, Hfe, Hlast.
    by destruct (Z.leb_spec (timestamp b) last); [| lia].
  - destruct (poll_feed_quiet_or_newer X cfg i remote s)
      as [Hq | (b' & s1' & last' & Hf' & Hl' & Hlt)]; [exact Hq |].
    rewrite Hf in Hf'. simplify_eq. lia.
Qed.

(** ** The update branch, step by step *)

#[global] Arguments Sha256.hexdigest : simpl never.

Lemma tmp_path_differs (p : string) : p +:+ ".tmp" ≠ p.
Proof. induction p as [|a p IH]; simpl; [done |]. intros [=]. auto. Qed.

Lemma valid_paths_unknown cfg (k : string) :
  k ∉ ["binary"; "wrapper"; "config"; "cert"] → valid_paths cfg !! k = None.
Proof.
  intros Hk. unfold valid_paths.
  rewrite !lookup_insert_ne, lookup_empty; [done | intros <-; apply Hk..].
  - do 3 right. left.
  - do 2 right. left.
  - right. left.
  - left.
Qed.

Lemma valid_paths_binary cfg : valid_paths cfg !! "binary" = Some (binary_path cfg).
Proof. unfold valid_paths. by rewrite lookup_insert_eq. Qed.

Lemma update_command_unknown cfg i t info s :
  valid_paths cfg !! info_install_path info = None →
  update_command cfg i t info s = set_timestamp i t s.
Proof. intros Hk. unfold update_command. rewrite Hk. by destruct (disableupdates cfg). Qed.

Lemma set_timestamp_frame i t s :
  let s' := (set_timestamp i t s).2 in
  fs s' = fs s ∧ bucket s' = bucket s ∧ trace s' = trace s ∧ process s' = process s.
Proof. unfold set_timestamp. by case_decide. Qed.

Lemma set_timestamp_in_range i t s :
  (i < length (timestamps s))%nat →
  set_timestamp i t s = (Ok tt, set_timestamps (<[i := t]> (timestamps s)) s).
Proof. intros Hi. unfold set_timestamp. by case_decide. Qed.

Lemma download_returns a b s : download a b s = (Ok tt, (download a b s).2).
Proof. unfold download. by repeat case_match. Qed.

(** What [download] leaves outside its destination. *)
Lemma download_frame a b s :
  let s' := (download a b s).2 in
  timestamps s' = timestamps s ∧ process s' = process s
  ∧ (∀ p, p ≠ b → fs s' !! p = fs s !! p).
Proof.
  unfold download. repeat case_match; simpl; repeat split; try done;
    intros p Hp; by rewrite lookup_insert_ne.
Qed.

Section UpdateSteps.

Context (cfg : Config) (i : nat) (t : Z) (info : Info) (target : string) (s : State).

Let tmp := target +:+ ".tmp".
Let s1 := (download (management_directory cfg +:+ "/" +:+ info_path info) tmp s).2.

Hypothesis Henabled : disableupdates cfg = false.
Hypothesis Hkey : valid_paths cfg !! info_install_path info = Some target.

(** Up to the comparison of the digests. *)
Lemma update_command_hash_check bytes :
  open_read tmp s1 = (Ok bytes, s1) →
  update_command cfg i t info s
  = if bool_decide (Sha256.hexdigest bytes = info_sha256sum info)
    then install_update cfg i t tmp target s1
    else set_timestamp i t s1.
Proof.
  intros Hread. unfold update_command. rewrite Henabled, Hkey.
  unfold bind at 1. rewrite download_returns. fold tmp s1.
  unfold bind at 1. rewrite Hread. by case_bool_decide.
Qed.

(** After a successful rename, with the binary present. *)
Lemma install_update_replaced s2 f :
  os_replace tmp target s1 = (Ok tt, s2) →
  fs s2 !! binary_path cfg = Some f →
  install_update cfg i t tmp target s1
  = (if bool_decide (target = "wrapper") then Exit 0 else Ok tt, chmod_binary cfg f s2).
Proof.
  intros Hmv Hbin. unfold install_update, bind at 1, try_except, bind at 1.
  rewrite Hmv. simpl. unfold bind at 1, os_chmod. rewrite Hbin.
  by case_bool_decide.
Qed.

End UpdateSteps.

(** ** The replay guard *)

(** C1: a batch is dispatched only if its timestamp strictly exceeds the
    feed's entry of [timestamps], and that entry never decreases across
    poll ticks.  For a feed whose envelope verifies to batch [b]: when
    [timestamp b] is at most the feed's timestamp, polling the feed returns
    normally and is quiet (process, timestamps and every file outside the
    feed's scratch copy and the command log are unchanged, no system call
    besides the feed's own download and log copy); a poll of the feed from
    any state is quiet unless its envelope verified with a strictly greater
    timestamp; and along any history of ticks and outside changes every
    feed's timestamp is at least what it was. *)
Theorem replay_guard (X : Externals) (cfg : Config) (i : nat) (remote_path : string)
    (s s1 : State) (b : Batch) (last : Z)
    (Hfetch : fetch_commands X cfg remote_path s = (Ok (Some b, true), s1))
    (Hlast : timestamps s !! i = Some last) :
  (timestamp b ≤ last →
     (poll_feed X cfg i remote_path s).1 = Ok tt
     ∧ quiet cfg remote_path s (poll_feed X cfg i remote_path s).2)
  ∧ (¬ quiet cfg remote_path s (poll_feed X cfg i remote_path s).2 → last < timestamp b)
  ∧ (∀ s0, quiet cfg remote_path s0 (poll_feed X cfg i remote_path s0).2
           ∨ ∃ b0 s2 last0,
               fetch_commands X cfg remote_path s0 = (Ok (Some b0, true), s2)
               ∧ timestamps s0 !! i = Some last0 ∧ last0 < timestamp b0)
  ∧ (∀ w, evolves X cfg s w → Forall2 Z.le (timestamps s) (timestamps w)).
Proof.
  split; [| split; [| split]].
  - intros Hstale. by eapply stale_batch_quiet.
  - intros Hloud. destruct (Z.le_gt_cases (timestamp b) last) as [Hstale | Hnew]; [| lia].
    exfalso. apply Hloud. by eapply stale_batch_quiet.
  - intros s0. apply poll_feed_quiet_or_newer.
  - intros w Hw. by apply evolves_nondecreasing in Hw.
Qed.

Lemma replay_guard_witness :
  let X := Sample.externals Runs.book150 in
  let s := Runs.started_at_200 in
  let remote := command_file Sample.cfg in
  fetch_commands X Sample.cfg remote s
    = (Ok (Some (Runs.stop_then_delay 150), true), (fetch_commands X Sample.cfg remote s).2)
  ∧ timestamps s !! 1%nat = Some 200
  ∧ (poll_feed X Sample.cfg 1 remote s).1 = Ok tt
  ∧ quiet Sample.cfg remote s (poll_feed X Sample.cfg 1 remote s).2.
Proof.
  intros X s remote.
  assert (Hfetch : fetch_commands X Sample.cfg remote s
    = (Ok (Some (Runs.stop_then_delay 150), true), (fetch_commands X Sample.cfg remote s).2))
    by (vm_compute; reflexivity).
  assert (Hlast : timestamps s !! 1%nat = Some 200) by reflexivity.
  split; [exact Hfetch |]. split; [exact Hlast |].
  apply (proj1 (replay_guard X Sample.cfg 1 remote s _ _ 200 Hfetch Hlast)).
  simpl. lia.
Defined.

Lemma open_read_Ok p s bytes s' :
  open_read p s = (Ok bytes, s') →
  ∃ f, fs s !! p = Some f ∧ is_dir f = false ∧ data f = bytes.
Proof.
  unfold open_read. destruct (fs s !! p) as [f |]; [| done].
  destruct (is_dir f) eqn:Hd; [done |]. intros [= <- <-]. eauto.
Qed.

Lemma os_replace_Ok a b s s2 :
  os_replace a b s = (Ok tt, s2) →
  ∃ f, fs s !! a = Some f
       ∧ s2 = set_trace (trace s ++ [EvReplace a b]) (set_fs (<[b := f]> (delete a (fs s))) s).
Proof.
  unfold os_replace. destruct (fs s !! a) as [f |]; [| done].
  repeat case_match; intros [= <-]; eauto.
Qed.

(** ** Unknown install paths *)

#[global] Instance confined_refl cfg : Reflexive (confined cfg).
Proof. by intros s p Hp. Qed.

#[global] Instance confined_trans cfg : Transitive (confined cfg).
Proof. intros s1 s2 s3 H12 H23 p Hp. rewrite H23, H12; done. Qed.

Create HintDb confine.

Lemma set_timestamp_confined cfg i t : preserves (confined cfg) (set_timestamp i t).
Proof. intros s p Hp. unfold set_timestamp. by case_decide. Qed.
#[global] Hint Resolve set_timestamp_confined : confine.

Lemma open_read_confined cfg p : preserves (confined cfg) (open_read p).
Proof. intros s. rewrite open_read_same. reflexivity. Qed.
#[global] Hint Resolve open_read_confined : confine.

Lemma download_confined cfg k target src :
  valid_paths cfg !! k = Some target →
  preserves (confined cfg) (download src (target +:+ ".tmp")).
Proof.
  intros Hk s p Hp. destruct (Hp k target Hk) as [_ Hne].
  destruct (download_frame src (target +:+ ".tmp") s) as (_ & _ & Hfs). by apply Hfs.
Qed.

Lemma os_replace_confined cfg k target :
  valid_paths cfg !! k = Some target →
  preserves (confined cfg) (os_replace (target +:+ ".tmp") target).
Proof.
  intros Hk s p Hp. destruct (Hp k target Hk) as [Hne Hne'].
  unfold os_replace. repeat case_match; simpl; try done;
    by rewrite lookup_insert_ne, lookup_delete_ne.
Qed.

Lemma os_chmod_confined cfg m : preserves (confined cfg) (os_chmod (binary_path cfg) m).
Proof.
  intros s p Hp. destruct (Hp _ _ (valid_paths_binary cfg)) as [Hne _].
  unfold os_chmod. case_match; simpl; [| done]. by rewrite lookup_insert_ne.
Qed.
#[global] Hint Resolve os_chmod_confined : confine.

Lemma update_command_confined cfg i t info :
  preserves (confined cfg) (update_command cfg i t info).
Proof.
  unfold update_command.
  destruct (disableupdates cfg); [auto with confine |].
  destruct (valid_paths cfg !! info_install_path info) as [target |] eqn:Hk;
    [| auto with confine].
  pose proof (download_confined cfg _ target
                (management_directory cfg +:+ "/" +:+ info_path info) Hk).
  pose proof (os_replace_confined cfg _ target Hk).
  unfold install_update. frame_with confine.
Qed.

(** C9 fails as stated in its second part: the update of the binary below
    is rejected for its digest, and the download stays at
    [/opt/xxnetwork/bin/node.tmp], a file that did not exist before and
    that is none of the registry's four paths. *)
Lemma rejected_update_writes_beside_the_registry :
  let cfg := Sample.cfg in
  let p := "/opt/xxnetwork/bin/node.tmp" in
  let r := update_command cfg 1 150 (Runs.update_info "binary" "0000") Runs.with_artifact in
  (p ∉ [binary_path cfg; wrapper_path cfg; config_file cfg; rsa_certificate_path cfg])
  ∧ fs Runs.with_artifact !! p = None
  ∧ r.1 = Ok tt
  ∧ fs r.2 !! p = Some (Sample.regular "v2" 420).
Proof.
  split; [| vm_compute; repeat split; reflexivity].
  intros H. repeat (apply elem_of_cons in H as [H | H]; [discriminate H |]).
  by apply elem_of_nil in H.
Qed.

(** C9, amended: an update command whose install-path key is not one of
    [binary], [wrapper], [config], [cert] is rejected before any download:
    the entry only records the batch's timestamp; the file system, the
    bucket, the trace of system calls and the wrapped process are exactly
    as before, so no local file at all is written.  And whatever its key,
    an update changes no local file besides the registry's four paths and
    their [.tmp] siblings, where the download is put (and left, when the
    digest does not match or the rename fails). *)
Theorem unknown_install_path_rejected (cfg : Config) (i : nat) (t : Z)
    (node_id : string) (c : Command) (s : State)
    (Hkind : cmd_command c = "update")
    (Hkey : info_install_path (cmd_info c) ∉ ["binary"; "wrapper"; "config"; "cert"]) :
  run_command cfg i t node_id c s = set_timestamp i t s
  ∧ fs (run_command cfg i t node_id c s).2 = fs s
  ∧ bucket (run_command cfg i t node_id c s).2 = bucket s
  ∧ trace (run_command cfg i t node_id c s).2 = trace s
  ∧ process (run_command cfg i t node_id c s).2 = process s
  ∧ (∀ info0 s0 p,
       (∀ k target, valid_paths cfg !! k = Some target →
                    p ≠ target ∧ p ≠ target +:+ ".tmp") →
       fs (update_command cfg i t info0 s0).2 !! p = fs s0 !! p).
Proof.
  assert (Hrun : run_command cfg i t node_id c s = set_timestamp i t s).
  { unfold run_command. destruct (not_for_us node_id c); [done |].
    rewrite Hkind. simpl. by apply update_command_unknown, valid_paths_unknown. }
  rewrite Hrun. split; [done |].
  destruct (set_timestamp_frame i t s) as (? & ? & ? & ?).
  repeat (split; [done |]).
  intros info0 s0 p Hp. by apply update_command_confined.
Qed.

Lemma unknown_install_path_rejected_witness :
  let c := Sample.update "../etc/passwd" "v2/node" Runs.v2_digest in
  cmd_command c = "update"
  ∧ (info_install_path (cmd_info c) ∉ ["binary"; "wrapper"; "config"; "cert"])
  ∧ fs (run_command Sample.cfg 1 150 "node-1" c Runs.with_artifact).2 = fs Runs.with_artifact
  ∧ trace (run_command Sample.cfg 1 150 "node-1" c Runs.with_artifact).2 = [].
Proof.
  intros c.
  assert (Hkind : cmd_command c = "update") by reflexivity.
  assert (Hkey : info_install_path (cmd_info c) ∉ ["binary"; "wrapper"; "config"; "cert"])
    by (vm_compute; intros H; repeat (inversion H as [| ? ? ? H']; clear H; rename H' into H);
        inversion H).
  split; [exact Hkind |]. split; [exact Hkey |].
  pose proof (unknown_install_path_rejected Sample.cfg 1 150 "node-1" c Runs.with_artifact
                Hkind Hkey) as (_ & Hfs & _ & Htr & _).
  auto.
Defined.

(** ** The chmod after an update *)

(** C10: after an update command that completes the rename step, whatever
    its registry key, the file at the configured binary path has mode
    exactly [S_IEXEC] (0o100, no read or write bit left), its kind and bytes
    unchanged; when the install target is another path, its entry is what
    the rename put there, with the mode of the downloaded temporary file:
    the chmod step does not touch it. *)
Theorem chmod_hits_the_binary (cfg : Config) (i : nat) (t : Z) (info : Info)
    (target : string) (s s1 s2 : State) (bytes : string) (f : File)
    (Henabled : disableupdates cfg = false)
    (Hkey : valid_paths cfg !! info_install_path info = Some target)
    (Hdl : download (management_directory cfg +:+ "/" +:+ info_path info)
             (target +:+ ".tmp") s = (Ok tt, s1))
    (Hread : open_read (target +:+ ".tmp") s1 = (Ok bytes, s1))
    (Hhash : Sha256.hexdigest bytes = info_sha256sum info)
    (Hmv : os_replace (target +:+ ".tmp") target s1 = (Ok tt, s2))
    (Hbin : fs s2 !! binary_path cfg = Some f) :
  let s' := (update_command cfg i t info s).2 in
  fs s' !! binary_path cfg
    = Some {| is_dir := is_dir f; data := data f; mode := S_IEXEC |}
  ∧ S_IEXEC = 64
  ∧ Z.land S_IEXEC 438 = 0
  ∧ (target ≠ binary_path cfg →
       fs s' !! target = fs s2 !! target
       ∧ fs s' !! target = fs s1 !! (target +:+ ".tmp")).
Proof.
  assert (Hs1 : s1 = (download (management_directory cfg +:+ "/" +:+ info_path info)
                        (target +:+ ".tmp") s).2) by (by rewrite Hdl).
  intros s'. subst s'. rewrite Hs1 in Hread, Hmv.
  rewrite (update_command_hash_check cfg i t info target s Henabled Hkey bytes Hread).
  rewrite bool_decide_eq_true_2 by done.
  rewrite (install_update_replaced cfg i t info target s s2 f Hmv Hbin).
  simpl. rewrite lookup_insert_eq. repeat split.
  - by rewrite lookup_insert_ne.
  - rewrite lookup_insert_ne by done.
    apply os_replace_Ok in Hmv as (g & Hg & ->). simpl.
    by rewrite lookup_insert_eq, <- Hs1 in *.
Qed.

Lemma chmod_hits_the_binary_witness :
  let cfg := Sample.cfg in
  let info := Runs.update_info "config" Runs.v2_digest in
  let target := config_file cfg in
  let s := Runs.with_artifact in
  let s1 := (download "mgmt/v2/node" (target +:+ ".tmp") s).2 in
  let s2 := (os_replace (target +:+ ".tmp") target s1).2 in
  let s' := (update_command cfg 1 150 info s).2 in
  fs s2 !! binary_path cfg = Some (Sample.regular "v1" 493)
  ∧ fs s' !! binary_path cfg = Some (Sample.regular "v1" 64)
  ∧ fs s' !! target = Some (Sample.regular "v2" 420).
Proof.
  intros cfg info target s s1 s2 s'.
  assert (Hbin : fs s2 !! binary_path cfg = Some (Sample.regular "v1" 493))
    by (vm_compute; reflexivity).
  pose proof (chmod_hits_the_binary cfg 1 150 info target s s1 s2 "v2"
                (Sample.regular "v1" 493)
                eq_refl ltac:(vm_compute; reflexivity) ltac:(vm_compute; reflexivity)
                ltac:(vm_compute; reflexivity) ltac:(vm_compute; reflexivity)
                ltac:(vm_compute; reflexivity) Hbin) as (Hb & _ & _ & Ht).
  split; [exact Hbin |]. split; [exact Hb |].
  destruct Ht as [_ Ht]; [by vm_compute |].
  etransitivity; [exact Ht | vm_compute; reflexivity].
Defined.

(** C6 fails as stated: the update of the [config] key below completes the
    rename, and the installed configuration file is left with the mode of
    the download (0o644), without the owner-execute bit. *)
Lemma config_update_not_executable :
  let cfg := Sample.cfg in
  let r := update_command cfg 1 150 (Runs.update_info "config" Runs.v2_digest)
             Runs.with_artifact in
  r.1 = Ok tt
  ∧ trace r.2 = [EvDownload "mgmt/v2/node" "/opt/xxnetwork/node.yaml.tmp" true;
                 EvReplace "/opt/xxnetwork/node.yaml.tmp" "/opt/xxnetwork/node.yaml";
                 EvChmod "/opt/xxnetwork/bin/node" 64]
  ∧ fs r.2 !! config_file cfg = Some (Sample.regular "v2" 420)
  ∧ executable (Sample.regular "v2" 420) = false.
Proof. vm_compute. repeat split; reflexivity. Qed.

(** C6, amended: for every update command that completes the rename step,
    the chmod goes to the binary's path, whatever the key.  When the
    install target is the binary's path (as it is for the [binary] key),
    the file there holds the downloaded bytes and is owner-executable
    afterwards.  When the target is another path, the target is the entry
    that was at [<target>.tmp], with its mode: it is owner-executable only
    if that file was, and it is not when the download of this update
    produced it; the one chmod of the update is that of the binary. *)
Theorem only_the_binary_becomes_executable (cfg : Config) (i : nat) (t : Z) (info : Info)
    (target : string) (s s1 s2 : State) (bytes : string)
    (Henabled : disableupdates cfg = false)
    (Hkey : valid_paths cfg !! info_install_path info = Some target)
    (Hdl : download (management_directory cfg +:+ "/" +:+ info_path info)
             (target +:+ ".tmp") s = (Ok tt, s1))
    (Hread : open_read (target +:+ ".tmp") s1 = (Ok bytes, s1))
    (Hhash : Sha256.hexdigest bytes = info_sha256sum info)
    (Hmv : os_replace (target +:+ ".tmp") target s1 = (Ok tt, s2)) :
  let s' := (update_command cfg i t info s).2 in
  (info_install_path info = "binary" → target = binary_path cfg)
  ∧ (target = binary_path cfg →
       fs s' !! target = Some {| is_dir := false; data := bytes; mode := S_IEXEC |}
       ∧ executable {| is_dir := false; data := bytes; mode := S_IEXEC |} = true
       ∧ trace s' = (trace s2 ++ [EvChmod (binary_path cfg) S_IEXEC])%list)
  ∧ (target ≠ binary_path cfg →
       ∃ f, fs s1 !! (target +:+ ".tmp") = Some f
            ∧ data f = bytes
            ∧ fs s' !! target = Some f
            ∧ (is_Some (bucket s !! (management_directory cfg +:+ "/" +:+ info_path info)) →
               mode f = default_mode ∧ executable f = false)
            ∧ (∀ g, fs s2 !! binary_path cfg = Some g →
                    trace s' = (trace s2 ++ [EvChmod (binary_path cfg) S_IEXEC])%list
                    ∧ fs s' !! binary_path cfg
                      = Some {| is_dir := is_dir g; data := data g; mode := S_IEXEC |})
            ∧ (fs s2 !! binary_path cfg = None → trace s' = trace s2)).
Proof.
  assert (Hs1 : s1 = (download (management_directory cfg +:+ "/" +:+ info_path info)
                        (target +:+ ".tmp") s).2) by (by rewrite Hdl).
  intros s'. subst s'.
  destruct (open_read_Ok _ _ _ _ Hread) as (f & Hf & Hdir & Hdata).
  destruct (os_replace_Ok _ _ _ _ Hmv) as (g & Hg & Hs2).
  assert (g = f) by congruence. subst g.
  assert (Hrun : update_command cfg i t info s = install_update cfg i t (target +:+ ".tmp") target s1).
  { rewrite Hs1 in Hread.
    rewrite (update_command_hash_check cfg i t info target s Henabled Hkey bytes Hread).
    by rewrite bool_decide_eq_true_2, <- Hs1 by done. }
  assert (Hinst : ∀ g, fs s2 !! binary_path cfg = Some g →
            (install_update cfg i t (target +:+ ".tmp") target s1).2 = chmod_binary cfg g s2).
  { intros g Hbin. rewrite Hs1 in Hmv |- *.
    by rewrite (install_update_replaced cfg i t info target s s2 g Hmv Hbin). }
  rewrite Hrun. split; [| split].
  - intros Hk. rewrite Hk, valid_paths_binary in Hkey. by injection Hkey as <-.
  - intros ->.
    assert (Hbin : fs s2 !! binary_path cfg = Some f)
      by (rewrite Hs2; simpl; apply lookup_insert_eq).
    rewrite (Hinst f Hbin). simpl. rewrite lookup_insert_eq.
    split; [by rewrite Hdir, Hdata | by split].
  - intros Hne. exists f. split; [done |]. split; [done |].
    assert (Htarget2 : fs s2 !! target = Some f)
      by (rewrite Hs2; simpl; apply lookup_insert_eq).
    split; [| split; [| split]].
    + destruct (fs s2 !! binary_path cfg) as [g |] eqn:Hbin.
      * rewrite (Hinst g eq_refl). simpl. by rewrite lookup_insert_ne.
      * unfold install_update, bind at 1, try_except, bind at 1. rewrite Hmv. simpl.
        unfold bind at 1, os_chmod. by rewrite Hbin.
    + intros [obj Hobj]. unfold download in Hdl. rewrite Hobj in Hdl.
      destruct (fs s !! (target +:+ ".tmp")) as [h |] eqn:Hh.
      * destruct (is_dir h) eqn:Hhd.
        -- injection Hdl as <-. simpl in Hf. rewrite Hh in Hf. injection Hf as <-.
           by rewrite Hdir in Hhd.
        -- injection Hdl as <-. simpl in Hf. rewrite lookup_insert_eq in Hf.
           by injection Hf as <-.
      * injection Hdl as <-. simpl in Hf. rewrite lookup_insert_eq in Hf.
        by injection Hf as <-.
    + intros g Hbin. rewrite (Hinst g Hbin). simpl. by rewrite lookup_insert_eq.
    + intros Hbin. unfold install_update, bind at 1, try_except, bind at 1.
      rewrite Hmv. simpl. unfold bind at 1, os_chmod. by rewrite Hbin.
Qed.

Lemma only_the_binary_becomes_executable_witness :
  let cfg := Sample.cfg in
  let s := Runs.with_artifact in
  let bin := Runs.update_info "binary" Runs.v2_digest in
  let conf := Runs.update_info "config" Runs.v2_digest in
  Sha256.hexdigest "v2" = Runs.v2_digest
  ∧ fs (update_command cfg 1 150 bin s).2 !! binary_path cfg
    = Some (Sample.regular "v2" 64)
  ∧ ∃ f, fs (update_command cfg 1 150 conf s).2 !! config_file cfg = Some f
         ∧ executable f = false.
Proof.
  intros cfg s bin conf.
  assert (Hhash : Sha256.hexdigest "v2" = Runs.v2_digest) by (vm_compute; reflexivity).
  split; [exact Hhash |]. split.
  - set (s1 := (download "mgmt/v2/node" (binary_path cfg +:+ ".tmp") s).2).
    set (s2 := (os_replace (binary_path cfg +:+ ".tmp") (binary_path cfg) s1).2).
    destruct (only_the_binary_becomes_executable cfg 1 150 bin (binary_path cfg) s s1 s2 "v2"
                eq_refl ltac:(vm_compute; reflexivity) ltac:(vm_compute; reflexivity)
                ltac:(vm_compute; reflexivity) Hhash ltac:(vm_compute; reflexivity))
      as (_ & Hbin & _).
    exact (proj1 (Hbin eq_refl)).
  - set (s1 := (download "mgmt/v2/node" (config_file cfg +:+ ".tmp") s).2).
    set (s2 := (os_replace (config_file cfg +:+ ".tmp") (config_file cfg) s1).2).
    destruct (only_the_binary_becomes_executable cfg 1 150 conf (config_file cfg) s s1 s2 "v2"
                eq_refl ltac:(vm_compute; reflexivity) ltac:(vm_compute; reflexivity)
                ltac:(vm_compute; reflexivity) Hhash ltac:(vm_compute; reflexivity))
      as (_ & _ & Hother).
    destruct Hother as (f & _ & _ & Htarget & Hmode & _); [by vm_compute |].
    exists f. split; [exact Htarget |].
    apply Hmode. eexists. vm_compute. reflexivity.
Defined.

(** ** A digest that does not match *)

(** C8 fails as stated: after the hash mismatch below the downloaded
    temporary file is still there, next to the untouched binary. *)
Lemma mismatch_keeps_temporary_file :
  let cfg := Sample.cfg in
  let r := update_command cfg 1 150 (Runs.update_info "binary" "0000") Runs.with_artifact in
  Sha256.hexdigest "v2" ≠ "0000"
  ∧ r.1 = Ok tt
  ∧ fs r.2 !! (binary_path cfg +:+ ".tmp") = Some (Sample.regular "v2" 420)
  ∧ fs r.2 !! binary_path cfg = Some (Sample.regular "v1" 493).
Proof. vm_compute. repeat split; try reflexivity. discriminate. Qed.

(** C8, amended: for every update command whose downloaded bytes hash to a
    value different from the expected one, the entry is rejected (it
    returns normally, only recording the batch's timestamp, with no rename
    and no chmod), the file at the target path is exactly what it was, and
    every other path but the temporary one is untouched; the downloaded
    temporary file is left in place at [<target>.tmp]. *)
Theorem hash_mismatch_keeps_target (cfg : Config) (i : nat) (t : Z) (info : Info)
    (target : string) (s s1 : State) (bytes : string)
    (Henabled : disableupdates cfg = false)
    (Hkey : valid_paths cfg !! info_install_path info = Some target)
    (Hi : (i < length (timestamps s))%nat)
    (Hdl : download (management_directory cfg +:+ "/" +:+ info_path info)
             (target +:+ ".tmp") s = (Ok tt, s1))
    (Hread : open_read (target +:+ ".tmp") s1 = (Ok bytes, s1))
    (Hne : Sha256.hexdigest bytes ≠ info_sha256sum info) :
  let s' := (update_command cfg i t info s).2 in
  update_command cfg i t info s = (Ok tt, set_timestamps (<[i := t]> (timestamps s)) s1)
  ∧ fs s' !! target = fs s !! target
  ∧ (∀ p, p ≠ target +:+ ".tmp" → fs s' !! p = fs s !! p)
  ∧ (∃ f, fs s' !! (target +:+ ".tmp") = Some f ∧ is_dir f = false ∧ data f = bytes)
  ∧ trace s' = trace s1.
Proof.
  assert (Hs1 : s1 = (download (management_directory cfg +:+ "/" +:+ info_path info)
                        (target +:+ ".tmp") s).2) by (by rewrite Hdl).
  destruct (download_frame (management_directory cfg +:+ "/" +:+ info_path info)
              (target +:+ ".tmp") s) as (Hts & _ & Hfs).
  rewrite <- Hs1 in Hts, Hfs.
  assert (Hrun : update_command cfg i t info s
                 = (Ok tt, set_timestamps (<[i := t]> (timestamps s)) s1)).
  { pose proof Hread as Hread'. rewrite Hs1 in Hread'.
    rewrite (update_command_hash_check cfg i t info target s Henabled Hkey bytes Hread').
    rewrite bool_decide_eq_false_2 by done. rewrite <- Hs1.
    rewrite set_timestamp_in_range by (by rewrite Hts). by rewrite Hts. }
  intros s'. subst s'. rewrite Hrun. simpl. split; [done |]. split; [| split; [| split]].
  - apply Hfs. intros Heq. by apply (tmp_path_differs target).
  - exact Hfs.
  - by apply open_read_Ok in Hread.
  - done.
Qed.

Lemma hash_mismatch_keeps_target_witness :
  let cfg := Sample.cfg in
  let info := Runs.update_info "binary" "0000" in
  let s := Runs.with_artifact in
  let s1 := (download "mgmt/v2/node" (binary_path cfg +:+ ".tmp") s).2 in
  Sha256.hexdigest "v2" ≠ info_sha256sum info
  ∧ fs (update_command cfg 1 150 info s).2 !! binary_path cfg = fs s !! binary_path cfg.
Proof.
  intros cfg info s s1.
  assert (Hne : Sha256.hexdigest "v2" ≠ info_sha256sum info) by (vm_compute; discriminate).
  split; [exact Hne |].
  exact (proj1 (proj2 (hash_mismatch_keeps_target cfg 1 150 info (binary_path cfg) s s1 "v2"
                  eq_refl eq_refl ltac:(vm_compute; lia) ltac:(vm_compute; reflexivity)
                  ltac:(vm_compute; reflexivity) Hne))).
Defined.

(** ** How the digests are compared *)

(** C5 fails as stated: the expected hash below is the digest of the
    downloaded bytes in upper case; the update is rejected and the binary
    keeps its old bytes. *)
Lemma uppercase_digest_rejected :
  let cfg := Sample.cfg in
  let r := update_command cfg 1 150 (Runs.update_info "binary" Runs.v2_digest_upper)
             Runs.with_artifact in
  lower Runs.v2_digest_upper = Sha256.hexdigest "v2"
  ∧ r.1 = Ok tt
  ∧ trace r.2 = [EvDownload "mgmt/v2/node" "/opt/xxnetwork/bin/node.tmp" true]
  ∧ fs r.2 !! binary_path cfg = Some (Sample.regular "v1" 493).
Proof. vm_compute. repeat split; reflexivity. Qed.

Lemma lower_app (a b : string) : lower (a +:+ b) = lower a +:+ lower b.
Proof. induction a as [|c a IH]; simpl; [done | by rewrite IH]. Qed.

Lemma hex_digit_lower (d : Z) : ascii_lower (Sha256.hex_digit d) = Sha256.hex_digit d.
Proof.
  unfold Sha256.hex_digit. generalize (Z.to_nat d). intros n.
  do 16 (destruct n as [|n]; [reflexivity |]). by destruct n.
Qed.

Lemma hex_of_lower (n : nat) (x : Z) : lower (Sha256.hex_of n x) = Sha256.hex_of n x.
Proof. induction n as [|n IH]; simpl; [done |]. by rewrite hex_digit_lower, IH. Qed.

(** [hexdigest()] is in lower case. *)
Lemma hexdigest_lower (bytes : string) :
  lower (Sha256.hexdigest bytes) = Sha256.hexdigest bytes.
Proof.
  unfold Sha256.hexdigest. induction (Sha256.digest_words bytes) as [|w ws IH]; [done |].
  cbn [fold_right]. by rewrite lower_app, hex_of_lower, IH.
Qed.

(** C5, amended: for every update command, the SHA-256 hex digest of the
    downloaded bytes is compared against the expected hash by exact string
    equality: the install proceeds when they are equal, the entry is
    rejected when they differ.  The digest is in lower case, so an expected
    hash that differs from it only in the case of its letters, and any
    expected hash with an upper-case letter, is rejected. *)
Theorem digest_compared_exactly (cfg : Config) (i : nat) (t : Z) (info : Info)
    (target : string) (s s1 : State) (bytes : string)
    (Henabled : disableupdates cfg = false)
    (Hkey : valid_paths cfg !! info_install_path info = Some target)
    (Hdl : download (management_directory cfg +:+ "/" +:+ info_path info)
             (target +:+ ".tmp") s = (Ok tt, s1))
    (Hread : open_read (target +:+ ".tmp") s1 = (Ok bytes, s1)) :
  (info_sha256sum info = Sha256.hexdigest bytes →
     update_command cfg i t info s
     = install_update cfg i t (target +:+ ".tmp") target s1)
  ∧ (info_sha256sum info ≠ Sha256.hexdigest bytes →
     update_command cfg i t info s = set_timestamp i t s1)
  ∧ (lower (info_sha256sum info) = Sha256.hexdigest bytes →
     lower (info_sha256sum info) ≠ info_sha256sum info →
     update_command cfg i t info s = set_timestamp i t s1)
  ∧ (lower (info_sha256sum info) ≠ info_sha256sum info →
     update_command cfg i t info s = set_timestamp i t s1).
Proof.
  assert (Hs1 : s1 = (download (management_directory cfg +:+ "/" +:+ info_path info)
                        (target +:+ ".tmp") s).2) by (by rewrite Hdl).
  pose proof Hread as Hread'. rewrite Hs1 in Hread'.
  pose proof (update_command_hash_check cfg i t info target s Henabled Hkey bytes Hread')
    as Hcheck.
  rewrite <- Hs1 in Hcheck. rewrite Hcheck. split; [| split; [| split]].
  - intros Heq. by rewrite bool_decide_eq_true_2.
  - intros Hne. by rewrite bool_decide_eq_false_2.
  - intros Hlow Hcase. rewrite bool_decide_eq_false_2; [done | congruence].
  - intros Hcase. rewrite bool_decide_eq_false_2; [done |].
    intros Heq. apply Hcase. rewrite <- Heq. apply hexdigest_lower.
Qed.

Lemma digest_compared_exactly_witness :
  let cfg := Sample.cfg in
  let info := Runs.update_info "binary" Runs.v2_digest_upper in
  let s := Runs.with_artifact in
  let s1 := (download "mgmt/v2/node" (binary_path cfg +:+ ".tmp") s).2 in
  lower (info_sha256sum info) = Sha256.hexdigest "v2"
  ∧ update_command cfg 1 150 info s = set_timestamp 1 150 s1.
Proof.
  intros cfg info s s1.
  assert (Hlow : lower (info_sha256sum info) = Sha256.hexdigest "v2")
    by (vm_compute; reflexivity).
  split; [exact Hlow |].
  apply (proj1 (proj2 (proj2 (digest_compared_exactly cfg 1 150 info (binary_path cfg)
                  s s1 "v2" eq_refl eq_refl ltac:(vm_compute; reflexivity)
                  ltac:(vm_compute; reflexivity))))); [exact Hlow |].
  vm_compute. discriminate.
Defined.

(** ** Updating the wrapper itself *)

Lemma never_exits_bind {A B} (m : M A) (k : A → M B) :
  never_exits m → (∀ a, never_exits (k a)) → never_exits (bind m k).
Proof.
  intros Hm Hk s c. unfold bind. specialize (Hm s).
  destruct (m s) as [[a | e | c'] s1]; simpl in *; [apply Hk | done |].
  exfalso. by apply (Hm c').
Qed.

Lemma set_timestamp_never_exits i t : never_exits (set_timestamp i t).
Proof. intros s c. unfold set_timestamp. by case_decide. Qed.

(** The comparison with the literal "wrapper" is made after [install_path]
    was rebound to the resolved path: unless a registry path is itself the
    string "wrapper", no update ever exits. *)
Lemma update_command_never_exits cfg i t info :
  (∀ k, valid_paths cfg !! k ≠ Some "wrapper") →
  never_exits (update_command cfg i t info).
Proof.
  intros Hreg. unfold update_command.
  destruct (disableupdates cfg); [apply set_timestamp_never_exits |].
  destruct (valid_paths cfg !! info_install_path info) as [target |] eqn:Hk;
    [| apply set_timestamp_never_exits].
  assert (Hne : target ≠ "wrapper") by (intros ->; by apply (Hreg _ Hk)).
  apply never_exits_bind; [intros s c; by rewrite download_returns |].
  intros _. apply never_exits_bind; [intros s c; unfold open_read; by repeat case_match |].
  intros bytes. case_match; [apply set_timestamp_never_exits |].
  unfold install_update. apply never_exits_bind.
  - intros s c. unfold try_except, bind, os_replace, set_timestamp, ret.
    repeat case_match; simplify_eq; done.
  - intros []; [| by intros s c].
    apply never_exits_bind; [intros s c; unfold os_chmod; by repeat case_match |].
    intros _. rewrite bool_decide_eq_false_2 by done. by intros s c.
Qed.

(** C2, evaluated on the code: a verified batch updates the [wrapper] key
    with the right digest and then asks for a 5 ms delay.  The wrapper's file
    is replaced, and the poll loop goes on: the delay is executed and the
    poll returns normally instead of exiting with status 0. *)
Theorem wrapper_update_keeps_polling :
  let cfg := Sample.cfg in
  let r := poll_feed (Sample.externals Runs.wrapper_book) cfg 1 (command_file cfg)
             Runs.wrapper_published in
  r.1 = Ok tt
  ∧ fs r.2 !! wrapper_path cfg = Some (Sample.regular "new wrapper" 420)
  ∧ trace r.2
    = [ EvDownload "mgmt/command.jsonl" "/tmp/command.jsonl" true;
        EvCopyfile "/tmp/command.jsonl" "/opt/xxnetwork/cmdlog/command_150.jsonl";
        EvDownload "mgmt/v2/wrapper.py" "/opt/xxnetwork/wrapper.py.tmp" true;
        EvReplace "/opt/xxnetwork/wrapper.py.tmp" "/opt/xxnetwork/wrapper.py";
        EvChmod "/opt/xxnetwork/bin/node" 64;
        EvSleep 5 ]
  ∧ timestamps r.2 = [0; 150].
Proof. vm_compute. repeat split; reflexivity. Qed.

(** ** The command verifier *)

(** C7 fails as stated: with no file at the certificate path the call
    raises to its caller. *)
Lemma unreadable_certificate_raises :
  verify_cmd (Sample.externals []) (Sample.envelope Sample.pem "batch")
    "/opt/xxnetwork/creds/missing.crt" (Sample.machine 0 ∅)
  = (Raise OSError, Sample.machine 0 ∅).
Proof. vm_compute. reflexivity. Qed.

Lemma verify_cmd_try_true X pem inbuf payload :
  verify_cmd_try X pem inbuf = (payload, true) ↔
  ∃ key sig_json sig64 sig,
    load_certificate X pem = Some key
    ∧ json_loads X (strip (readline inbuf).1) = Some payload
    ∧ json_loads_sig X (readline (readline inbuf).2).1 = Some sig_json
    ∧ signature sig_json = Some sig64
    ∧ b64decode X sig64 = Some sig
    ∧ crypto_verify X key sig (strip (readline inbuf).1) = true.
Proof.
  unfold verify_cmd_try. destruct (readline inbuf) as [line1 rest]. simpl. split.
  - intros H. repeat case_match; simplify_eq. eauto 10.
  - intros (key & sj & s64 & sg & -> & -> & -> & -> & -> & ->). done.
Qed.

Lemma verify_cmd_try_false X pem inbuf payload :
  verify_cmd_try X pem inbuf = (payload, false) →
  payload = None ∨ json_loads X (strip (readline inbuf).1) = Some payload.
Proof.
  unfold verify_cmd_try. destruct (readline inbuf) as [line1 rest]. simpl.
  intros H. repeat case_match; simplify_eq; auto.
Qed.

(** C7, amended: when the certificate file can be opened, the Command
    Verifier returns to its caller without raising and without touching the
    state; it returns [(payload, true)] exactly when the certificate loads,
    line 1 decodes to [payload], line 2 decodes to a signature and the
    signature verifies over the stripped line 1, and every other case
    collapses to a returned [(payload, false)] where [payload] is the
    decoded line 1 or [None].  When the
    certificate file cannot be opened, the call raises to its caller. *)
Theorem verify_cmd_collapses_errors (X : Externals) (inbuf public_key_path : string)
    (s : State) (pem : string)
    (Hcert : open_read public_key_path s = (Ok pem, s)) :
  (∃ payload ok,
      verify_cmd X inbuf public_key_path s = (Ok (payload, ok), s)
      ∧ (ok = true ↔
         ∃ key sig_json sig64 sig,
           load_certificate X pem = Some key
           ∧ json_loads X (strip (readline inbuf).1) = Some payload
           ∧ json_loads_sig X (readline (readline inbuf).2).1 = Some sig_json
           ∧ signature sig_json = Some sig64
           ∧ b64decode X sig64 = Some sig
           ∧ crypto_verify X key sig (strip (readline inbuf).1) = true)
      ∧ (ok = false →
         payload = None ∨ json_loads X (strip (readline inbuf).1) = Some payload))
  ∧ (∀ s0, fs s0 !! public_key_path = None →
           verify_cmd X inbuf public_key_path s0 = (Raise OSError, s0)).
Proof.
  split.
  - destruct (verify_cmd_try X pem inbuf) as [payload ok] eqn:Htry.
    exists payload, ok. split; [| split].
    + unfold verify_cmd, bind. by rewrite Hcert, Htry.
    + rewrite <- verify_cmd_try_true, Htry. split; [by intros -> | by intros [= ->]].
    + intros ->. by eapply verify_cmd_try_false.
  - intros s0 Hmissing. unfold verify_cmd, bind, open_read. by rewrite Hmissing.
Qed.

Lemma verify_cmd_collapses_errors_witness :
  let X := Sample.externals Runs.book150 in
  let s := Runs.started_at_200 in
  let cert := rsa_certificate_path Sample.cfg in
  open_read cert s = (Ok Sample.pem, s)
  ∧ verify_cmd X (Sample.envelope Sample.pem "batch-150") cert s
    = (Ok (Some (Runs.stop_then_delay 150), true), s)
  ∧ verify_cmd X (Sample.envelope "forged" "batch-150") cert s
    = (Ok (Some (Runs.stop_then_delay 150), false), s).
Proof.
  intros X s cert.
  assert (Hcert : open_read cert s = (Ok Sample.pem, s)) by (vm_compute; reflexivity).
  split; [exact Hcert |].
  destruct (verify_cmd_collapses_errors X (Sample.envelope Sample.pem "batch-150") cert s
              Sample.pem Hcert) as [(payload & ok & Hrun & _) _].
  split; [| vm_compute; reflexivity].
  rewrite Hrun. vm_compute in Hrun. by injection Hrun as <- <-.
Defined.

(** ** What a batch leaves behind *)

Lemma get_node_id_returns X p s :
  ∃ node_id, get_node_id X p s = (Ok node_id, (get_node_id X p s).2).
Proof.
  unfold get_node_id, bind, try_except, get, ret, modify, raise, os_path_exists, open_read.
  repeat (case_match; simplify_eq; simpl in * ); eauto.
Qed.

Lemma for_each_step {A} (x : A) (rest : list A) (body : A → M unit) s s' :
  body x s = (Ok tt, s') → for_each (x :: rest) body s = for_each rest body s'.
Proof. intros H. simpl. unfold bind. by rewrite H. Qed.

Lemma skipped_or_rejected_returns cfg i t node_id c s :
  (i < length (timestamps s))%nat →
  skipped_or_rejected cfg node_id c s →
  ∃ s', run_command cfg i t node_id c s = (Ok tt, s') ∧ timestamps s' !! i = Some t.
Proof.
  intros Hi Hrej. unfold run_command.
  destruct Hrej as [-> | (-> & -> & Hrej)].
  { rewrite set_timestamp_in_range by done. eexists. split; [done |]. simpl.
    by apply list_lookup_insert_eq. }
  simpl. destruct Hrej as [Hoff | [Hunknown | (target & bytes & Hon & Hkey & Hread & Hfail)]].
  - unfold update_command. rewrite Hoff, set_timestamp_in_range by done.
    eexists. split; [done |]. simpl. by apply list_lookup_insert_eq.
  - rewrite update_command_unknown, set_timestamp_in_range by done.
    eexists. split; [done |]. simpl. by apply list_lookup_insert_eq.
  - rewrite (update_command_hash_check cfg i t _ target s Hon Hkey bytes Hread).
    destruct (download_frame (management_directory cfg +:+ "/" +:+ info_path (cmd_info c))
                (target +:+ ".tmp") s) as (Hts & _).
    set (s1 := (download _ _ s).2) in *.
    assert (Hi1 : (i < length (timestamps s1))%nat) by (by rewrite Hts).
    case_bool_decide as Hhash.
    + destruct Hfail as [Hne | [e Hmv]]; [done |].
      unfold install_update, bind at 1, try_except, bind at 1. rewrite Hmv. simpl.
      unfold bind at 1. rewrite set_timestamp_in_range by done. simpl.
      eexists. split; [done |]. simpl. by apply list_lookup_insert_eq.
    + rewrite set_timestamp_in_range by done.
      eexists. split; [done |]. simpl. by apply list_lookup_insert_eq.
Qed.

Lemma for_each_raise {A} (pre : list A) (x : A) (rest : list A) (body : A → M unit)
    s sm e se :
  for_each pre body s = (Ok tt, sm) →
  body x sm = (Raise e, se) →
  for_each (pre ++ x :: rest) body s = (Raise e, se).
Proof.
  revert s. induction pre as [| y pre IH]; intros s Hpre Hx; simpl in *.
  - unfold ret in Hpre. injection Hpre as <-. unfold bind. by rewrite Hx.
  - unfold bind in *. destruct (body y s) as [[[] | e' | c'] s']; [| done..].
    by apply IH.
Qed.

(** Past the guard, a poll is the dispatch of the batch inside the feed's
    handler. *)
Lemma poll_feed_dispatches X cfg i remote s s1 s2 b last :
  fetch_commands X cfg remote s = (Ok (Some b, true), s1) →
  save_cmd (local_path_of remote) (cmd_log_dir cfg) true (timestamp b) s1 = (Ok tt, s2) →
  timestamps s !! i = Some last →
  last < timestamp b →
  poll_feed X cfg i remote s
  = try_except
      (let* node_id := get_node_id X (idpath cfg) in
       for_each (commands b) (run_command cfg i (timestamp b) node_id) >>
       set_timestamp i (timestamp b))
      any_exception (fun _ => ret tt) s2.
Proof.
  intros Hf Hsave Hlast Hnew.
  pose proof (fetch_commands_keeps_ts X cfg remote s) as Hk0.
  pose proof (save_cmd_keeps_ts (local_path_of remote) (cmd_log_dir cfg) true
                (timestamp b) s1) as Hk1.
  rewrite Hf in Hk0. rewrite Hsave in Hk1. unfold same_timestamps in *. simpl in *.
  unfold poll_feed, try_except, bind at 1. rewrite Hf. simpl.
  unfold process_batch, bind at 1. rewrite Hsave.
  unfold bind at 1, get_timestamp. rewrite Hk1, Hk0, Hlast.
  by destruct (Z.leb_spec (timestamp b) last) as [Hstale | _]; [lia |].
Qed.

(** C3 fails as stated: the binary is missing, so the [start] entry of the
    verified batch stamped 150 (the feed is at 100) raises; the [delay]
    entry after it is never run and the feed's timestamp stays at 100. *)
Lemma spawn_failure_drops_the_batch :
  let cfg := Sample.cfg in
  let X := Sample.externals Runs.start_book in
  let r := poll_feed X cfg 1 (command_file cfg) Runs.binary_missing in
  (fetch_commands X cfg (command_file cfg) Runs.binary_missing).1
    = Ok (Some Runs.start_then_delay, true)
  ∧ timestamps Runs.binary_missing = [0; 100]
  ∧ r.1 = Ok tt
  ∧ timestamps r.2 = [0; 100]
  ∧ trace r.2
    = [ EvDownload "mgmt/command.jsonl" "/tmp/command.jsonl" true;
        EvCopyfile "/tmp/command.jsonl" "/opt/xxnetwork/cmdlog/command_150.jsonl" ].
Proof. vm_compute. repeat split; reflexivity. Qed.

(** C3, amended: for a verified batch that passes the replay guard, when
    all its entries return without raising, they are processed in order and
    the feed's timestamp is then set to the batch's timestamp.  Entries that
    are skipped or rejected (not addressed to this node, updates disabled,
    unknown install path, digest mismatch, failed rename) return without
    raising, record the batch's timestamp themselves and do not stop the
    processing of the remaining entries.  An entry that raises ends the
    batch: the entries after it are not run, the final assignment of the
    timestamp is not made, and the poll of the feed returns normally, from
    its outer handler, in the state the raising entry left. *)
Theorem batch_consumed_unless_an_entry_raises (X : Externals) (cfg : Config)
    (i : nat) (remote : string) (b : Batch) (sp s s0 s0' : State) (last : Z)
    (node_id : string)
    (Hfetch : fetch_commands X cfg remote sp = (Ok (Some b, true), s))
    (Hsave : save_cmd (local_path_of remote) (cmd_log_dir cfg) true (timestamp b) s
             = (Ok tt, s0))
    (Hlast : timestamps s !! i = Some last)
    (Hguard : last < timestamp b)
    (Hid : get_node_id X (idpath cfg) s0 = (Ok node_id, s0')) :
  (∀ s1,
     for_each (commands b) (run_command cfg i (timestamp b) node_id) s0' = (Ok tt, s1) →
     process_batch X cfg i (local_path_of remote) b true s
       = (Ok tt, set_timestamps (<[i := timestamp b]> (timestamps s1)) s1)
     ∧ <[i := timestamp b]> (timestamps s1) !! i = Some (timestamp b)
     ∧ poll_feed X cfg i remote sp
       = (Ok tt, set_timestamps (<[i := timestamp b]> (timestamps s1)) s1))
  ∧ (∀ c rest st,
       (i < length (timestamps st))%nat →
       skipped_or_rejected cfg node_id c st →
       ∃ st', run_command cfg i (timestamp b) node_id c st = (Ok tt, st')
              ∧ timestamps st' !! i = Some (timestamp b)
              ∧ for_each (c :: rest) (run_command cfg i (timestamp b) node_id) st
                = for_each rest (run_command cfg i (timestamp b) node_id) st')
  ∧ (∀ pre c rest sm e se,
       commands b = (pre ++ c :: rest)%list →
       for_each pre (run_command cfg i (timestamp b) node_id) s0' = (Ok tt, sm) →
       run_command cfg i (timestamp b) node_id c sm = (Raise e, se) →
       for_each (commands b) (run_command cfg i (timestamp b) node_id) s0' = (Raise e, se)
       ∧ process_batch X cfg i (local_path_of remote) b true s = (Raise e, se)
       ∧ poll_feed X cfg i remote sp = (Ok tt, se)).
Proof.
  pose proof (save_cmd_keeps_ts (local_path_of remote) (cmd_log_dir cfg) true
                (timestamp b) s) as Hk0.
  pose proof (get_node_id_keeps_ts X (idpath cfg) s0) as Hk1.
  pose proof (fetch_commands_keeps_ts X cfg remote sp) as Hkf.
  rewrite Hsave in Hk0. rewrite Hid in Hk1. rewrite Hfetch in Hkf.
  unfold same_timestamps in *. simpl in *.
  assert (Hbatch : process_batch X cfg i (local_path_of remote) b true s
                   = (for_each (commands b) (run_command cfg i (timestamp b) node_id) >>
                      set_timestamp i (timestamp b)) s0').
  { unfold process_batch, bind at 1. rewrite Hsave.
    unfold bind at 1, get_timestamp. rewrite Hk0, Hlast.
    destruct (Z.leb_spec (timestamp b) last) as [Hstale | _]; [lia |].
    unfold bind at 1. by rewrite Hid. }
  assert (Hpoll : poll_feed X cfg i remote sp
                  = try_except (process_batch X cfg i (local_path_of remote) b true)
                      any_exception (fun _ => ret tt) s).
  { unfold poll_feed, try_except, bind at 1. by rewrite Hfetch. }
  split; [| split].
  - intros s1 Hrun.
    pose proof (preserves_for_each (stamped i (timestamp b)) (commands b)
                  (run_command cfg i (timestamp b) node_id)
                  (run_command_stamped cfg i (timestamp b) node_id) s0') as Hk2.
    rewrite Hrun in Hk2. simpl in Hk2.
    assert (Hlen : (i < length (timestamps s1))%nat).
    { apply lookup_lt_Some in Hlast. rewrite <- Hk0, <- Hk1 in Hlast.
      destruct Hk2 as [-> | ->]; [done | by rewrite length_insert]. }
    assert (Hdone : process_batch X cfg i (local_path_of remote) b true s
                    = (Ok tt, set_timestamps (<[i := timestamp b]> (timestamps s1)) s1)).
    { rewrite Hbatch. unfold bind. rewrite Hrun. by apply set_timestamp_in_range. }
    split; [exact Hdone |]. split; [by apply list_lookup_insert_eq |].
    rewrite Hpoll. unfold try_except. by rewrite Hdone.
  - intros c rest st Hi Hrej.
    destruct (skipped_or_rejected_returns cfg i (timestamp b) node_id c st Hi Hrej)
      as (st' & Hc & Hts).
    exists st'. split; [done |]. split; [done |]. by apply for_each_step.
  - intros pre c rest sm e se Hsplit Hpre Hc.
    assert (Hraise : for_each (commands b) (run_command cfg i (timestamp b) node_id) s0'
                     = (Raise e, se)).
    { rewrite Hsplit. by eapply for_each_raise. }
    assert (Hfail : process_batch X cfg i (local_path_of remote) b true s = (Raise e, se)).
    { rewrite Hbatch. unfold bind. by rewrite Hraise. }
    split; [exact Hraise |]. split; [exact Hfail |].
    rewrite Hpoll. unfold try_except. by rewrite Hfail.
Qed.

Lemma batch_consumed_unless_an_entry_raises_witness :
  let cfg := Sample.cfg in
  let X := Sample.externals Runs.mixed_book in
  let b := Runs.mixed_batch in
  let sp := Runs.mixed_published in
  let s := (fetch_commands X cfg (command_file cfg) sp).2 in
  let s0 := (save_cmd "/tmp/command.jsonl" (cmd_log_dir cfg) true 150 s).2 in
  let s0' := (get_node_id X (idpath cfg) s0).2 in
  let s1 := (for_each (commands b) (run_command cfg 1 150 "node-1") s0').2 in
  timestamps s !! 1%nat = Some 100
  ∧ for_each (commands b) (run_command cfg 1 150 "node-1") s0' = (Ok tt, s1)
  ∧ process_batch X cfg 1 "/tmp/command.jsonl" b true s
    = (Ok tt, set_timestamps (<[1%nat := 150]> (timestamps s1)) s1)
  ∧ trace s1
    = [ EvDownload "mgmt/command.jsonl" "/tmp/command.jsonl" true;
        EvCopyfile "/tmp/command.jsonl" "/opt/xxnetwork/cmdlog/command_150.jsonl";
        EvDownload "mgmt/v2/node" "/opt/xxnetwork/bin/node.tmp" true;
        EvSleep 5 ].
Proof.
  intros cfg X b sp s s0 s0' s1.
  assert (Hlast : timestamps s !! 1%nat = Some 100) by (vm_compute; reflexivity).
  assert (Hrun : for_each (commands b) (run_command cfg 1 150 "node-1") s0' = (Ok tt, s1))
    by (vm_compute; reflexivity).
  split; [exact Hlast |]. split; [exact Hrun |]. split; [| vm_compute; reflexivity].
  destruct (batch_consumed_unless_an_entry_raises X cfg 1 (command_file cfg) b sp s s0 s0'
              100 "node-1") as [Hall _];
    [vm_compute; reflexivity | vm_compute; reflexivity | exact Hlast | simpl; lia
    | vm_compute; reflexivity |].
  exact (proj1 (Hall s1 Hrun)).
Defined.

(** ** The timestamps at start-up *)






(** * Further properties of the script *)

(** ** How computations end *)

Lemma ends_ret {A} R E (a : A) : ends R E (ret a).
Proof. by intros s. Qed.

Lemma ends_get {A} R E (f : State → A) : ends R E (get f).
Proof. by intros s. Qed.

Lemma ends_modify R E (f : State → State) : ends R E (modify f).
Proof. by intros s. Qed.

Lemma ends_raise {A} (R : exn → bool) E e : R e = true → ends R E (@raise A e).
Proof. by intros He s. Qed.

Lemma ends_bind {A B} R E (m : M A) (k : A → M B) :
  ends R E m → (∀ a, ends R E (k a)) → ends R E (bind m k).
Proof.
  intros Hm Hk s. unfold bind. specialize (Hm s).
  destruct (m s) as [[a | e | c] s1]; simpl in *; [apply Hk | done..].
Qed.

Lemma ends_for_each {A} R E (l : list A) (body : A → M unit) :
  (∀ x, ends R E (body x)) → ends R E (for_each l body).
Proof.
  intros Hb. induction l as [|x l IH]; simpl; [apply ends_ret |].
  apply ends_bind; [apply Hb | intros _; exact IH].
Qed.

(** A handler that catches everything the body may raise. *)
Lemma ends_try_except {A} R R' E (m : M A) catches (h : exn → M A) :
  ends R E m → (∀ e, R e = true → catches e = true) → (∀ e, ends R' E (h e)) →
  ends R' E (try_except m catches h).
Proof.
  intros Hm Hc Hh s. unfold try_except. specialize (Hm s).
  destruct (m s) as [[a | e | c] s1]; simpl in *; [done | | done].
  rewrite (Hc e Hm). apply Hh.
Qed.

Lemma ends_weaken {A} (R R' : exn → bool) (E E' : bool) (m : M A) :
  (∀ e, R e = true → R' e = true) → (E = true → E' = true) →
  ends R E m → ends R' E' m.
Proof.
  intros HR HE Hm s. specialize (Hm s).
  destruct (m s) as [[a | e | c] s1]; simpl in *; auto.
Qed.

Lemma ends_any {A} R E (m : M A) : ends R false m → ends any_exception E m.
Proof. apply ends_weaken; done. Qed.

Create HintDb ends_db.

Ltac ends_step :=
  lazymatch goal with
  | |- ends _ _ _ =>
      first
        [ apply ends_ret | apply ends_get | apply ends_modify
        | apply ends_bind | apply ends_for_each
        | progress cbv zeta
        | case_match ]
  | |- ∀ _, _ => intro
  end.

Ltac ends_with db :=
  repeat first [ solve [ auto 2 with db nocore ] | ends_step ].

#[global] Hint Extern 5 (ends any_exception _ _) =>
  eapply ends_any; solve [ auto 1 with ends_db nocore ] : ends_db.

Ltac prim_ends f := intros s; unfold f; repeat case_match; simplify_eq/=; done.

Lemma download_ends a b : ends no_exception false (download a b).
Proof. prim_ends download. Qed.
#[global] Hint Resolve download_ends : ends_db.

Lemma open_read_ends p : ends is_IOError false (open_read p).
Proof. prim_ends open_read. Qed.
#[global] Hint Resolve open_read_ends : ends_db.

Lemma open_append_ends p : ends is_IOError false (open_append p).
Proof. prim_ends open_append. Qed.
#[global] Hint Resolve open_append_ends : ends_db.

Lemma os_replace_ends a b : ends is_IOError false (os_replace a b).
Proof. prim_ends os_replace. Qed.
#[global] Hint Resolve os_replace_ends : ends_db.

Lemma os_chmod_ends p m : ends is_IOError false (os_chmod p m).
Proof. prim_ends os_chmod. Qed.
#[global] Hint Resolve os_chmod_ends : ends_db.

Lemma subprocess_Popen_ends b a : ends is_IOError false (subprocess_Popen b a).
Proof. prim_ends subprocess_Popen. Qed.
#[global] Hint Resolve subprocess_Popen_ends : ends_db.

Lemma get_timestamp_ends i : ends any_exception false (get_timestamp i).
Proof. prim_ends get_timestamp. Qed.
#[global] Hint Resolve get_timestamp_ends : ends_db.

Lemma set_timestamp_ends i t E : ends any_exception E (set_timestamp i t).
Proof. intros s. unfold set_timestamp. by case_decide. Qed.
#[global] Hint Resolve set_timestamp_ends : ends_db.

Lemma emit_ends R E e : ends R E (emit e).
Proof. apply ends_modify. Qed.
#[global] Hint Resolve emit_ends : ends_db.

Lemma time_sleep_ms_ends ms E : ends any_exception E (time_sleep_ms ms).
Proof. unfold time_sleep_ms. case_match; [by apply ends_raise |]. ends_with ends_db. Qed.
#[global] Hint Resolve time_sleep_ms_ends : ends_db.

Lemma time_sleep_ms_returns ms R E : 0 ≤ ms → ends R E (time_sleep_ms ms).
Proof.
  intros Hms. unfold time_sleep_ms.
  destruct (Z.ltb_spec ms 0); [lia |]. ends_with ends_db.
Qed.

Lemma shutil_copyfile_ends a b : ends is_IOError false (shutil_copyfile a b).
Proof.
  unfold shutil_copyfile. apply ends_bind; [auto with ends_db |].
  intros content s. repeat case_match; simplify_eq/=; done.
Qed.
#[global] Hint Resolve shutil_copyfile_ends : ends_db.

Lemma save_cmd_ends f d v t E : ends any_exception E (save_cmd f d v t).
Proof. unfold save_cmd. ends_with ends_db; by apply ends_raise. Qed.
#[global] Hint Resolve save_cmd_ends : ends_db.

Lemma start_binary_ends b l a : ends is_IOError false (start_binary b l a).
Proof. unfold start_binary. ends_with ends_db. Qed.
#[global] Hint Resolve start_binary_ends : ends_db.

Lemma launch_ends cfg : ends is_IOError false (launch cfg).
Proof. unfold launch, os_path_isfile. ends_with ends_db. Qed.
#[global] Hint Resolve launch_ends : ends_db.

Lemma terminate_process_ends p R E : ends R E (terminate_process p).
Proof. unfold terminate_process. ends_with ends_db. Qed.
#[global] Hint Resolve terminate_process_ends : ends_db.

Lemma verify_cmd_ends X inbuf p : ends is_IOError false (verify_cmd X inbuf p).
Proof. unfold verify_cmd. ends_with ends_db. Qed.
#[global] Hint Resolve verify_cmd_ends : ends_db.

Lemma get_node_id_ends X p R E : ends R E (get_node_id X p).
Proof.
  unfold get_node_id. ends_with ends_db.
  eapply (ends_try_except any_exception); [| done | intros; apply ends_ret].
  unfold os_path_exists. ends_with ends_db. by apply ends_raise.
Qed.
#[global] Hint Resolve get_node_id_ends : ends_db.

Lemma fetch_commands_ends X cfg remote E : ends any_exception E (fetch_commands X cfg remote).
Proof. unfold fetch_commands. ends_with ends_db. Qed.
#[global] Hint Resolve fetch_commands_ends : ends_db.

(** [sys.exit] is reachable only through a registry path that is the
    literal "wrapper". *)
Lemma install_update_ends cfg i t tmp target E :
  (E = false → target ≠ "wrapper") →
  ends any_exception E (install_update cfg i t tmp target).
Proof.
  intros Htarget. unfold install_update. apply ends_bind.
  - eapply (ends_try_except any_exception); [| done | intros; ends_with ends_db].
    ends_with ends_db.
  - intros []; [| apply ends_ret]. apply ends_bind; [auto with ends_db |]. intros _.
    case_bool_decide as Hw; [| apply ends_ret].
    destruct E; [by intros s |]. by destruct (Htarget eq_refl).
Qed.

Lemma update_command_ends cfg i t info E :
  (E = false → ∀ k, valid_paths cfg !! k ≠ Some "wrapper") →
  ends any_exception E (update_command cfg i t info).
Proof.
  intros Hreg. unfold update_command.
  destruct (disableupdates cfg); [auto with ends_db |].
  destruct (valid_paths cfg !! info_install_path info) as [target |] eqn:Hk;
    [| auto with ends_db].
  assert (Hinst : ends any_exception E
                    (install_update cfg i t (target +:+ ".tmp") target)).
  { apply install_update_ends. intros HE ->. by apply (Hreg HE _ Hk). }
  ends_with ends_db.
Qed.

Lemma run_command_ends cfg i t node_id c E :
  (E = false → ∀ k, valid_paths cfg !! k ≠ Some "wrapper") →
  ends any_exception E (run_command cfg i t node_id c).
Proof.
  intros Hreg. pose proof (update_command_ends cfg i t (cmd_info c) E Hreg).
  unfold run_command. ends_with ends_db.
Qed.

Lemma process_batch_ends X cfg i local b ok E :
  (E = false → ∀ k, valid_paths cfg !! k ≠ Some "wrapper") →
  ends any_exception E (process_batch X cfg i local b ok).
Proof.
  intros Hreg. pose proof (fun id c => run_command_ends cfg i (timestamp b) id c E Hreg).
  unfold process_batch. ends_with ends_db.
Qed.

Lemma poll_feed_ends X cfg i remote E :
  (E = false → ∀ k, valid_paths cfg !! k ≠ Some "wrapper") →
  ends no_exception E (poll_feed X cfg i remote).
Proof.
  intros Hreg. pose proof (fun l b ok => process_batch_ends X cfg i l b ok E Hreg).
  unfold poll_feed.
  eapply (ends_try_except any_exception); [| done | intros; apply ends_ret].
  unfold time_time. ends_with ends_db.
Qed.

Lemma restart_on_error_ends cfg E : ends no_exception E (restart_on_error cfg).
Proof.
  unfold restart_on_error.
  destruct (err_output_path cfg) as [p |]; [| apply ends_ret].
  destruct (truthy p); [| apply ends_ret].
  apply ends_bind; [apply ends_get |]. intros [|]; [| apply ends_ret].
  eapply (ends_try_except is_IOError); [| done | intros; apply ends_ret].
  apply (ends_weaken is_IOError is_IOError false E); [done | done |].
  apply ends_bind; [apply ends_get |]. intros h.
  apply ends_bind; [| intros; apply launch_ends].
  destruct h; [case_match; [apply ends_ret | apply emit_ends] | apply ends_ret].
Qed.

Lemma tick_ends X cfg E :
  (E = false → ∀ k, valid_paths cfg !! k ≠ Some "wrapper") →
  ends no_exception E (tick X cfg).
Proof.
  intros Hreg. unfold tick. apply ends_bind; [by apply time_sleep_ms_returns |].
  intros _. apply ends_bind; [apply restart_on_error_ends |].
  intros _. apply ends_for_each. intros ir. by apply poll_feed_ends.
Qed.

Lemma main_loop_ends X cfg n E :
  (E = false → ∀ k, valid_paths cfg !! k ≠ Some "wrapper") →
  ends no_exception E (main_loop X cfg n).
Proof.
  intros Hreg. induction n as [|n IH]; simpl; [apply ends_ret |].
  apply ends_bind; [by apply tick_ends | intros _; exact IH].
Qed.

(** X1: no exception ever escapes the main loop.  Whatever the feeds hold
    and whatever state the machine is in, any number of iterations ends
    either normally or by [sys.exit]: a failing feed, a binary that cannot
    be spawned or a malformed batch never raise out of a tick. *)
Theorem main_loop_never_raises (X : Externals) (cfg : Config) (n : nat) (s : State) :
  ∀ e, (main_loop X cfg n s).1 ≠ Raise e.
Proof.
  intros e He. pose proof (main_loop_ends X cfg n true ltac:(done) s) as H.
  by rewrite He in H.
Qed.

Lemma registry_paths cfg k p :
  valid_paths cfg !! k = Some p →
  p ∈ [binary_path cfg; wrapper_path cfg; config_file cfg; rsa_certificate_path cfg].
Proof.
  unfold valid_paths. rewrite !lookup_insert_Some, lookup_empty.
  intros [[_ <-] | [_ [[_ <-] | [_ [[_ <-] | [_ [[_ <-] | [_ ?]]]]]]]];
    [set_solver.. | done].
Qed.

(** X2: [sys.exit] is unreachable.  When no path of the install registry is
    the literal string "wrapper", no iteration of the main loop ends the
    script through [sys.exit], for any feeds and any machine state: the
    test of line 543 compares a registry path with the key. *)
Theorem sys_exit_is_unreachable (X : Externals) (cfg : Config)
    (Hreg : ∀ k, valid_paths cfg !! k ≠ Some "wrapper") (n : nat) (s : State) :
  ∀ code, (main_loop X cfg n s).1 ≠ Exit code.
Proof.
  intros code Hexit.
  pose proof (main_loop_ends X cfg n false (fun _ => Hreg) s) as H.
  by rewrite Hexit in H.
Qed.

Lemma sys_exit_is_unreachable_witness :
  (∀ k, valid_paths Sample.cfg !! k ≠ Some "wrapper")
  ∧ ∀ code,
      (main_loop (Sample.externals Runs.wrapper_book) Sample.cfg 2 Runs.wrapper_published).1
      ≠ Exit code.
Proof.
  assert (Hreg : ∀ k, valid_paths Sample.cfg !! k ≠ Some "wrapper").
  { intros k Hk. apply registry_paths in Hk.
    repeat (apply elem_of_cons in Hk as [Hk | Hk]; [discriminate Hk |]).
    by apply elem_of_nil in Hk. }
  split; [exact Hreg |].
  exact (sys_exit_is_unreachable (Sample.externals Runs.wrapper_book) Sample.cfg Hreg 2
           Runs.wrapper_published).
Defined.

(** ** The node identity *)

#[global] Instance same_identity_refl : Reflexive same_identity.
Proof. by intros s. Qed.

#[global] Instance same_identity_trans : Transitive same_identity.
Proof. intros s1 s2 s3 [? ?] [? ?]. split; congruence. Qed.

#[global] Instance identity_kept_refl : Reflexive identity_kept.
Proof. by intros s. Qed.

#[global] Instance identity_kept_trans : Transitive identity_kept.
Proof. intros s1 s2 s3 [Hr Hg] [Hr' Hg']. split; eauto. Qed.

Create HintDb keeps_id.

Ltac prim_keeps_id f :=
  intros s; unfold f, same_identity; repeat case_match; done.

Lemma modify_keeps_id (f : State → State) :
  (∀ s, read_node_id (f s) = read_node_id s ∧ generated_uuid (f s) = generated_uuid s) →
  preserves same_identity (modify f).
Proof. intros Hf s. apply Hf. Qed.

Lemma emit_keeps_id e : preserves same_identity (emit e).
Proof. by apply modify_keeps_id. Qed.
#[global] Hint Resolve emit_keeps_id : keeps_id.

Lemma time_sleep_ms_keeps_id ms : preserves same_identity (time_sleep_ms ms).
Proof. unfold time_sleep_ms. frame_with keeps_id. by apply modify_keeps_id. Qed.
#[global] Hint Resolve time_sleep_ms_keeps_id : keeps_id.

Lemma open_read_keeps_id p : preserves same_identity (open_read p).
Proof. prim_keeps_id open_read. Qed.
#[global] Hint Resolve open_read_keeps_id : keeps_id.

Lemma open_append_keeps_id p : preserves same_identity (open_append p).
Proof. prim_keeps_id open_append. Qed.
#[global] Hint Resolve open_append_keeps_id : keeps_id.

Lemma os_replace_keeps_id a b : preserves same_identity (os_replace a b).
Proof. prim_keeps_id os_replace. Qed.
#[global] Hint Resolve os_replace_keeps_id : keeps_id.

Lemma os_chmod_keeps_id p m : preserves same_identity (os_chmod p m).
Proof. prim_keeps_id os_chmod. Qed.
#[global] Hint Resolve os_chmod_keeps_id : keeps_id.

Lemma subprocess_Popen_keeps_id b a : preserves same_identity (subprocess_Popen b a).
Proof. prim_keeps_id subprocess_Popen. Qed.
#[global] Hint Resolve subprocess_Popen_keeps_id : keeps_id.

Lemma download_keeps_id a b : preserves same_identity (download a b).
Proof. prim_keeps_id download. Qed.
#[global] Hint Resolve download_keeps_id : keeps_id.

Lemma get_timestamp_keeps_id i : preserves same_identity (get_timestamp i).
Proof. prim_keeps_id get_timestamp. Qed.
#[global] Hint Resolve get_timestamp_keeps_id : keeps_id.

Lemma set_timestamp_keeps_id i t : preserves same_identity (set_timestamp i t).
Proof. intros s. unfold set_timestamp. by case_decide. Qed.
#[global] Hint Resolve set_timestamp_keeps_id : keeps_id.

Lemma shutil_copyfile_keeps_id a b : preserves same_identity (shutil_copyfile a b).
Proof.
  unfold shutil_copyfile. apply preserves_bind; try typeclasses eauto;
    [auto with keeps_id |].
  intros content s. unfold same_identity. by repeat case_match.
Qed.
#[global] Hint Resolve shutil_copyfile_keeps_id : keeps_id.

Lemma save_cmd_keeps_id f d v t : preserves same_identity (save_cmd f d v t).
Proof. unfold save_cmd. frame_with keeps_id. Qed.
#[global] Hint Resolve save_cmd_keeps_id : keeps_id.

Lemma start_binary_keeps_id b l a : preserves same_identity (start_binary b l a).
Proof. unfold start_binary. frame_with keeps_id. Qed.
#[global] Hint Resolve start_binary_keeps_id : keeps_id.

Lemma launch_keeps_id cfg : preserves same_identity (launch cfg).
Proof. unfold launch, os_path_isfile. frame_with keeps_id. by apply modify_keeps_id. Qed.
#[global] Hint Resolve launch_keeps_id : keeps_id.

Lemma terminate_process_keeps_id p : preserves same_identity (terminate_process p).
Proof. unfold terminate_process. frame_with keeps_id. by apply modify_keeps_id. Qed.
#[global] Hint Resolve terminate_process_keeps_id : keeps_id.

Lemma verify_cmd_keeps_id X inbuf p : preserves same_identity (verify_cmd X inbuf p).
Proof. unfold verify_cmd. frame_with keeps_id. Qed.
#[global] Hint Resolve verify_cmd_keeps_id : keeps_id.

Lemma fetch_commands_keeps_id X cfg remote :
  preserves same_identity (fetch_commands X cfg remote).
Proof. unfold fetch_commands. frame_with keeps_id. Qed.
#[global] Hint Resolve fetch_commands_keeps_id : keeps_id.

Lemma install_update_keeps_id cfg i t tmp target :
  preserves same_identity (install_update cfg i t tmp target).
Proof. unfold install_update. frame_with keeps_id. Qed.
#[global] Hint Resolve install_update_keeps_id : keeps_id.

Lemma update_command_keeps_id cfg i t info :
  preserves same_identity (update_command cfg i t info).
Proof. unfold update_command. frame_with keeps_id. Qed.
#[global] Hint Resolve update_command_keeps_id : keeps_id.

Lemma run_command_keeps_id cfg i t node_id c :
  preserves same_identity (run_command cfg i t node_id c).
Proof. unfold run_command. frame_with keeps_id. Qed.
#[global] Hint Resolve run_command_keeps_id : keeps_id.

Lemma restart_on_error_keeps_id cfg : preserves same_identity (restart_on_error cfg).
Proof. unfold restart_on_error, os_path_isfile. frame_with keeps_id. Qed.
#[global] Hint Resolve restart_on_error_keeps_id : keeps_id.

Lemma same_identity_kept {A} (m : M A) :
  preserves same_identity m → preserves identity_kept m.
Proof. apply preserves_weaken. intros s s' [Hr Hg]. split; intros; congruence. Qed.

Lemma get_node_id_cached X p s v :
  read_node_id s = Some v → truthy v = true → get_node_id X p s = (Ok v, s).
Proof.
  intros Hv Ht. unfold get_node_id, bind, get. cbn -[truthy].
  rewrite Hv. cbn -[truthy]. by rewrite Ht.
Qed.

(** [get_node_id] writes a cache only when it is empty. *)
Lemma get_node_id_identity_kept X p : preserves identity_kept (get_node_id X p).
Proof.
  intros s. split.
  - intros v Hv Htruthy. by rewrite (get_node_id_cached X p s v Hv Htruthy).
  - intros u Hu Htruthy.
    unfold get_node_id, bind, try_except, get, ret, modify, raise,
      os_path_exists, open_read. cbn -[truthy].
    repeat (case_match; simplify_eq/=; try rewrite Hu in * ); try done;
      cbn -[truthy] in *; congruence.
Qed.

Create HintDb kept_id.
#[global] Hint Resolve get_node_id_identity_kept : kept_id.
#[global] Hint Extern 1 (preserves identity_kept _) =>
  apply same_identity_kept; solve [ auto 1 with keeps_id nocore ] : kept_id.

Lemma process_batch_identity_kept X cfg i local b ok :
  preserves identity_kept (process_batch X cfg i local b ok).
Proof. unfold process_batch. frame_with kept_id. Qed.
#[global] Hint Resolve process_batch_identity_kept : kept_id.

Lemma poll_feed_identity_kept X cfg i remote :
  preserves identity_kept (poll_feed X cfg i remote).
Proof. unfold poll_feed, time_time. frame_with kept_id. Qed.
#[global] Hint Resolve poll_feed_identity_kept : kept_id.

Lemma tick_identity_kept X cfg : preserves identity_kept (tick X cfg).
Proof. unfold tick. frame_with kept_id. Qed.

Lemma main_loop_identity_kept X cfg n : preserves identity_kept (main_loop X cfg n).
Proof.
  induction n as [|n IH]; simpl; [apply preserves_ret; typeclasses eauto |].
  apply preserves_bind; try typeclasses eauto; [apply tick_identity_kept | intros _; exact IH].
Qed.

(** X3: a node id read from the id file is permanent.  Once the cache
    [read_node_id] holds a non-empty id, every later resolution, after any
    number of iterations of the main loop and for any id path and any state
    of the file system, returns that id and leaves the state untouched. *)
Theorem node_id_from_file_is_permanent (X : Externals) (cfg : Config) (s : State)
    (v : string)
    (Hread : read_node_id s = Some v)
    (Hv : truthy v = true) (n : nat) (id_path : string) :
  let s' := (main_loop X cfg n s).2 in
  read_node_id s' = Some v
  ∧ get_node_id X id_path s' = (Ok v, s')
  ∧ (∀ files, get_node_id X id_path (set_fs files s') = (Ok v, set_fs files s')).
Proof.
  intros s'. destruct (main_loop_identity_kept X cfg n s) as [Hr _].
  specialize (Hr v Hread Hv). fold s' in Hr.
  split; [done |]. split; [by apply get_node_id_cached |].
  intros files. by apply get_node_id_cached.
Qed.

Lemma node_id_from_file_is_permanent_witness :
  let X := Sample.externals Runs.book150 in
  let s := startup X Sample.cfg 200000 Sample.files Runs.version_objects 100 in
  read_node_id s = Some "node-1"
  ∧ get_node_id X "/nowhere" (main_loop X Sample.cfg 3 s).2
    = (Ok "node-1", (main_loop X Sample.cfg 3 s).2).
Proof.
  intros X s.
  assert (Hread : read_node_id s = Some "node-1") by (vm_compute; reflexivity).
  split; [exact Hread |].
  exact (proj1 (proj2 (node_id_from_file_is_permanent X Sample.cfg s "node-1" Hread
                         eq_refl 3 "/nowhere"))).
Defined.

(** X4: the fallback id is generated once.  With no id file and nothing
    cached, the first resolution generates an id from [uuid1]; if that id is
    non-empty, every later resolution made while the file is still missing
    returns the same id without generating again, whatever the clock shows
    by then. *)
Theorem generated_id_is_reused (X : Externals) (id_path : string) (s : State)
    (Hnone : read_node_id s = None)
    (Hfresh : generated_uuid s = None)
    (Hmissing : fs s !! id_path = None)
    (Huuid : uuid1 X (clock s) ≠ "") :
  let u := uuid1 X (clock s) in
  get_node_id X id_path s = (Ok u, set_generated_uuid (Some u) s)
  ∧ (∀ s2, read_node_id s2 = None → generated_uuid s2 = Some u →
           fs s2 !! id_path = None →
           get_node_id X id_path s2 = (Ok u, s2)).
Proof.
  intros u. assert (Ht : truthy u = true).
  { unfold truthy. by rewrite bool_decide_eq_false_2. }
  split.
  - unfold get_node_id, bind, get, try_except, os_path_exists, ret, modify.
    cbv beta. rewrite Hnone. simpl. rewrite Hmissing. simpl. rewrite Hfresh. done.
  - intros s2 Hn2 Hg2 Hm2.
    unfold get_node_id, bind, get, try_except, os_path_exists, ret, modify.
    cbv beta. rewrite Hn2. simpl. rewrite Hm2. simpl. rewrite Hg2. simpl.
    rewrite Ht. by rewrite Hg2.
Qed.

Lemma generated_id_is_reused_witness :
  let X := Sample.externals [] in
  let s := set_fs ∅ (Sample.machine 5000 ∅) in
  uuid1 X (clock s) ≠ ""
  ∧ get_node_id X "/opt/xxnetwork/logs/IDF.json" s
    = (Ok "uuid-5000", set_generated_uuid (Some "uuid-5000") s)
  ∧ get_node_id X "/opt/xxnetwork/logs/IDF.json"
      (set_clock 99000 (set_generated_uuid (Some "uuid-5000") s))
    = (Ok "uuid-5000", set_clock 99000 (set_generated_uuid (Some "uuid-5000") s)).
Proof.
  intros X s.
  assert (Huuid : uuid1 X (clock s) ≠ "") by (vm_compute; discriminate).
  split; [exact Huuid |].
  destruct (generated_id_is_reused X "/opt/xxnetwork/logs/IDF.json" s
              eq_refl eq_refl eq_refl Huuid) as [Hfirst Hnext].
  split; [exact Hfirst |].
  apply Hnext; reflexivity.
Defined.

(** X5: resolving the node id cannot fail and touches nothing but the two
    caches: for any id path and any state (missing file, directory,
    undecodable content) it returns an id and leaves files, bucket, process,
    timestamps, clock and call trace as they were; the id is non-empty as
    long as [uuid1] never yields an empty string. *)
Theorem get_node_id_cannot_fail (X : Externals) (id_path : string) (s : State)
    (Huuid : ∀ now, uuid1 X now ≠ "") :
  ∃ node_id s',
    get_node_id X id_path s = (Ok node_id, s')
    ∧ node_id ≠ ""
    ∧ fs s' = fs s ∧ bucket s' = bucket s ∧ process s' = process s
    ∧ timestamps s' = timestamps s ∧ clock s' = clock s ∧ trace s' = trace s.
Proof.
  unfold get_node_id, bind, try_except, get, ret, modify, raise, os_path_exists,
    open_read, truthy in *.
  repeat (case_match; simplify_eq/=);
    eexists _, _; (split; [reflexivity |]); (split; [| done]);
    repeat match goal with
           | H : negb (bool_decide _) = true |- _ =>
               apply negb_true_iff, bool_decide_eq_false in H
           end; try done; try apply Huuid.
Qed.

Lemma get_node_id_cannot_fail_witness :
  (∀ now, uuid1 (Sample.externals []) now ≠ "")
  ∧ ∃ node_id s',
      get_node_id (Sample.externals []) "/opt/xxnetwork/logs" (Sample.machine 0 ∅)
      = (Ok node_id, s') ∧ node_id ≠ "".
Proof.
  assert (Huuid : ∀ now, uuid1 (Sample.externals []) now ≠ "") by (intros now; discriminate).
  split; [exact Huuid |].
  destruct (get_node_id_cannot_fail (Sample.externals []) "/opt/xxnetwork/logs"
              (Sample.machine 0 ∅) Huuid) as (node_id & s' & Hrun & Hne & _).
  eauto.
Defined.

(** ** The process supervisor *)



Lemma launch_spawnable cfg s : spawnable cfg s → launch cfg s = (Ok tt, launched cfg s).
Proof.
  intros [(f & Hf & Hx) Hlog].
  unfold launch, launched, launch_args, bind, os_path_isfile, get, start_binary, bind,
    open_append, subprocess_Popen, ret, modify.
  assert (Hargs : (if match fs s !! config_file cfg with
                      | Some f0 => negb (is_dir f0) | None => false end
                   then ["--config"; config_file cfg] else [])
                  = match fs s !! config_file cfg with
                    | Some f0 => if is_dir f0 then [] else ["--config"; config_file cfg]
                    | None => []
                    end).
  { destruct (fs s !! config_file cfg) as [f0 |]; [by destruct (is_dir f0) | done]. }
  rewrite Hargs.
  destruct (fs s !! log_path cfg) as [g |] eqn:Hg.
  - rewrite (Hlog g eq_refl). simpl. by rewrite Hf, Hx.
  - simpl. rewrite lookup_insert_ne by congruence. by rewrite Hf, Hx.
Qed.



Lemma subprocess_Popen_Ok b a s p s' :
  subprocess_Popen b a s = (Ok p, s') → returncode p = None.
Proof. unfold subprocess_Popen. repeat case_match; intros; by simplify_eq. Qed.

Lemma launch_Ok cfg s s1 :
  launch cfg s = (Ok tt, s1) → ∃ n, process s1 = Some {| pid := n; returncode := None |}.
Proof.
  unfold launch, bind at 1, os_path_isfile, get. cbv beta iota.
  unfold bind at 1.
  destruct (start_binary _ _ _ s) as [[p | e | c] s'] eqn:Hsb; [| done..].
  unfold modify. intros [= <-]. simpl.
  unfold start_binary, bind at 1 in Hsb.
  destruct (open_append _ s) as [[[] | e | c] s0]; [| done..].
  unfold bind in Hsb.
  destruct (subprocess_Popen _ _ s0) as [[p0 | e | c] s0'] eqn:HP; [| done..].
  unfold ret in Hsb. simplify_eq. apply subprocess_Popen_Ok in HP.
  destruct p as [n rc]. simpl in HP. subst rc. by exists n.
Qed.

(** X6: [start] is idempotent.  When a start entry has returned, running it
    again changes nothing: no second child is spawned while the first is
    alive; and a start entry addressed to this node is a no-op whenever a
    child is already running. *)
Theorem start_is_idempotent (cfg : Config) (i : nat) (t : Z) (node_id : string)
    (c : Command) (s s1 : State)
    (Hkind : cmd_command c = "start")
    (Hrun : run_command cfg i t node_id c s = (Ok tt, s1)) :
  run_command cfg i t node_id c s1 = (Ok tt, s1)
  ∧ (not_for_us node_id c = false → not_running (process s) = false → s1 = s).
Proof.
  unfold run_command in *. destruct (not_for_us node_id c).
  - unfold set_timestamp in *. case_decide as Hi; [| done]. simplify_eq. simpl.
    rewrite decide_True by (by rewrite length_insert).
    split; [| done]. by rewrite list_insert_insert_eq.
  - rewrite Hkind in *. simpl in *. unfold bind at 1, get in Hrun.
    unfold bind at 1, get. simpl in *.
    destruct (not_running (process s)) eqn:Hrunning.
    + destruct (launch_Ok cfg s s1 Hrun) as [n Hn].
      rewrite Hn. simpl. by split.
    + unfold ret in Hrun. simplify_eq. rewrite Hrunning. by split.
Qed.

Lemma start_is_idempotent_witness :
  let c := Supervised.start_cmd in
  let s := Sample.machine 100000 ∅ in
  let s1 := (run_command Sample.cfg 1 150 "node-1" c s).2 in
  run_command Sample.cfg 1 150 "node-1" c s = (Ok tt, s1)
  ∧ process s1 = Some {| pid := 100; returncode := None |}
  ∧ run_command Sample.cfg 1 150 "node-1" c s1 = (Ok tt, s1).
Proof.
  intros c s s1.
  assert (Hrun : run_command Sample.cfg 1 150 "node-1" c s = (Ok tt, s1))
    by (vm_compute; reflexivity).
  split; [exact Hrun |]. split; [vm_compute; reflexivity |].
  exact (proj1 (start_is_idempotent Sample.cfg 1 150 "node-1" c s s1 eq_refl Hrun)).
Defined.

Lemma run_command_stop cfg i t node_id c s :
  cmd_command c = "stop" → not_for_us node_id c = false →
  run_command cfg i t node_id c s = terminate_process (process s) s.
Proof. intros Hkind Hus. unfold run_command. rewrite Hus, Hkind. reflexivity. Qed.

Lemma run_command_start cfg i t node_id c s :
  cmd_command c = "start" → not_for_us node_id c = false →
  run_command cfg i t node_id c s
  = if not_running (process s) then launch cfg s else (Ok tt, s).
Proof.
  intros Hkind Hus. unfold run_command. rewrite Hus, Hkind. simpl.
  unfold bind, get. by destruct (not_running (process s)).
Qed.

(** X7: a [stop] that returns leaves no running child.  When a stop entry
    addressed to this node returns, which it does once [p.wait()] has
    returned, the recorded process, if any, has an exit code; files, bucket
    and timestamps are untouched, and with no process recorded nothing
    changes at all. *)
Theorem stop_that_returns_leaves_no_child (cfg : Config) (i : nat) (t : Z)
    (node_id : string) (c : Command) (s s' : State)
    (Hkind : cmd_command c = "stop")
    (Hus : not_for_us node_id c = false)
    (Hret : run_command cfg i t node_id c s = (Ok tt, s')) :
  not_running (process s') = true
  ∧ fs s' = fs s ∧ bucket s' = bucket s ∧ timestamps s' = timestamps s
  ∧ (process s = None → s' = s).
Proof.
  rewrite (run_command_stop cfg i t node_id c s Hkind Hus) in Hret.
  unfold terminate_process in Hret.
  destruct (process s) as [h |] eqn:Hp.
  - unfold bind, emit, modify in Hret. injection Hret as <-. simpl.
    repeat split; try done.
  - unfold ret in Hret. injection Hret as <-. by rewrite Hp.
Qed.

Lemma stop_that_returns_leaves_no_child_witness :
  let r := run_command Sample.cfg 1 150 "node-1" Supervised.stop_cmd Supervised.running in
  not_running (process Supervised.running) = false
  ∧ r.1 = Ok tt
  ∧ not_running (process r.2) = true.
Proof.
  intros r. split; [reflexivity |].
  assert (Hret : run_command Sample.cfg 1 150 "node-1" Supervised.stop_cmd Supervised.running
                 = (Ok tt, r.2)) by (vm_compute; reflexivity).
  split; [vm_compute; reflexivity |].
  exact (proj1 (stop_that_returns_leaves_no_child Sample.cfg 1 150 "node-1"
                  Supervised.stop_cmd Supervised.running r.2 eq_refl eq_refl Hret)).
Defined.

(** X8: a [stop] followed by a [start] relaunches the binary.  With a child
    recorded and the binary spawnable, when the two entries run in sequence
    return, the old child was terminated and a new one was spawned under
    the next pid, with [--config <config_file>] exactly when the config
    file is a regular file. *)
Theorem stop_then_start_relaunches (cfg : Config) (i : nat) (t : Z)
    (node_id : string) (stop start : Command) (s s' : State) (h : Popen)
    (Hstop : cmd_command stop = "stop") (Hstart : cmd_command start = "start")
    (Hus : not_for_us node_id stop = false) (Hus' : not_for_us node_id start = false)
    (Hp : process s = Some h)
    (Hsp : spawnable cfg s)
    (Hret : for_each [stop; start] (run_command cfg i t node_id) s = (Ok tt, s')) :
  process s' = Some {| pid := next_pid s; returncode := None |}
  ∧ trace s' = (trace s ++ [EvTerminate (pid h);
                             EvPopen (binary_path cfg) (launch_args cfg s) (next_pid s)])%list.
Proof.
  set (s1 := set_process (Some {| pid := pid h;
                                  returncode := Some (default (-15) (returncode h)) |})
               (set_trace (trace s ++ [EvTerminate (pid h)]) s)).
  assert (Hrun1 : run_command cfg i t node_id stop s = (Ok tt, s1)).
  { rewrite (run_command_stop cfg i t node_id stop s Hstop Hus). by rewrite Hp. }
  assert (Hsp1 : spawnable cfg s1) by exact Hsp.
  assert (Hrun2 : run_command cfg i t node_id start s1 = (Ok tt, launched cfg s1)).
  { rewrite (run_command_start cfg i t node_id start s1 Hstart Hus'). simpl.
    by apply launch_spawnable. }
  assert (Hr : for_each [stop; start] (run_command cfg i t node_id) s
               = (Ok tt, launched cfg s1)).
  { simpl. unfold bind. rewrite Hrun1. cbv beta iota. by rewrite Hrun2. }
  rewrite Hr in Hret. injection Hret as <-. simpl.
  split; [done |]. by rewrite <- app_assoc.
Qed.

Lemma stop_then_start_relaunches_witness :
  let r := for_each [Supervised.stop_cmd; Supervised.start_cmd]
             (run_command Sample.cfg 1 150 "node-1") Supervised.running in
  spawnable Sample.cfg Supervised.running
  ∧ r.1 = Ok tt
  ∧ process r.2 = Some {| pid := 100; returncode := None |}
  ∧ trace r.2 = [EvTerminate 7; EvPopen "/opt/xxnetwork/bin/node" [] 100].
Proof.
  intros r.
  assert (Hsp : spawnable Sample.cfg Supervised.running).
  { split; [exists (Sample.regular "v1" 493); by vm_compute |].
    intros g Hg. by vm_compute in Hg. }
  assert (Hret : for_each [Supervised.stop_cmd; Supervised.start_cmd]
                   (run_command Sample.cfg 1 150 "node-1") Supervised.running
                 = (Ok tt, r.2)) by (vm_compute; reflexivity).
  split; [exact Hsp |]. split; [vm_compute; reflexivity |].
  exact (stop_then_start_relaunches Sample.cfg 1 150 "node-1" Supervised.stop_cmd
           Supervised.start_cmd Supervised.running r.2 _ eq_refl eq_refl eq_refl eq_refl
           eq_refl Hsp Hret).
Defined.



(** ** Envelopes and the command log *)

Lemma string_app_cons c a b : String c a +:+ b = String c (a +:+ b).
Proof. reflexivity. Qed.

Lemma string_app_nil b : "" +:+ b = b.
Proof. reflexivity. Qed.

Lemma list_ascii_app a b :
  list_ascii_of_string (a +:+ b)
  = (list_ascii_of_string a ++ list_ascii_of_string b)%list.
Proof. induction a as [| c a IH]; simpl; [done | by rewrite <- IH]. Qed.

Lemma string_app_inj_r a b c : a +:+ c = b +:+ c → a = b.
Proof.
  intros H. apply (f_equal list_ascii_of_string) in H.
  rewrite !list_ascii_app in H. apply app_inv_tail in H.
  by rewrite <- (string_of_list_ascii_of_string a), H, string_of_list_ascii_of_string.
Qed.

Lemma string_app_assoc a b c : (a +:+ b) +:+ c = a +:+ b +:+ c.
Proof. induction a as [| x a IH]; [done | exact (f_equal (String x) IH)]. Qed.

Lemma readline_app line rest :
  one_line line → readline (line +:+ String newline rest) = (line +:+ String newline "", rest).
Proof.
  unfold one_line. induction line as [| c line IH]; intros Hline.
  - reflexivity.
  - inversion_clear Hline as [| ? ? [Hc Hc'] Hrest].
    rewrite !string_app_cons. simpl.
    rewrite decide_False by done. rewrite decide_False by done.
    by rewrite (IH Hrest).
Qed.

Lemma lstrip_blank ws y : Forall (fun c => is_space c = true) ws → lstrip (ws ++ y) = lstrip y.
Proof. induction 1 as [| c ws Hc _ IH]; simpl; [done | by rewrite Hc]. Qed.

Lemma lstrip_app_blank x ws :
  Forall (fun c => is_space c = true) ws →
  ∃ ws', Forall (fun c => is_space c = true) ws' ∧ lstrip (x ++ ws) = (lstrip x ++ ws')%list.
Proof.
  intros Hws. induction x as [| c x IH]; simpl.
  - exists []. split; [done |]. rewrite <- (app_nil_r ws). by rewrite lstrip_blank.
  - destruct (is_space c); [exact IH | by exists ws].
Qed.

Lemma rstrip_blank y ws :
  Forall (fun c => is_space c = true) ws → rev (lstrip (rev (y ++ ws))) = rev (lstrip (rev y)).
Proof.
  intros Hws. rewrite rev_app_distr, lstrip_blank; [done |].
  by apply List.Forall_rev.
Qed.

Lemma strip_padded pre line pad :
  blank pre → blank pad →
  strip (pre +:+ line +:+ pad +:+ String newline "") = strip (line +:+ String newline "").
Proof.
  unfold blank, strip. intros Hpre Hpad. f_equal.
  rewrite !list_ascii_app. simpl. rewrite lstrip_blank by done.
  assert (Hnl : Forall (fun c => is_space c = true) [newline]) by (by constructor).
  destruct (lstrip_app_blank (list_ascii_of_string line)
              (list_ascii_of_string pad ++ [newline])) as (ws1 & Hws1 & ->).
  { by apply Forall_app. }
  destruct (lstrip_app_blank (list_ascii_of_string line) [newline] Hnl) as (ws2 & Hws2 & ->).
  by rewrite !rstrip_blank.
Qed.

(** X10: surrounding white space is outside the signature.  [verify_cmd]
    checks the signature over the stripped first line, so padding that line
    with white space other than line ends (no newline, no carriage return),
    before it or between it and its newline, changes neither the decoded
    payload nor the verdict. *)
Theorem surrounding_whitespace_is_not_signed (X : Externals)
    (pre line pad rest public_key_path : string) (s : State)
    (Hpre : blank pre ∧ one_line pre)
    (Hline : one_line line)
    (Hpad : blank pad ∧ one_line pad) :
  verify_cmd X (pre +:+ line +:+ pad +:+ String newline rest) public_key_path s
  = verify_cmd X (line +:+ String newline rest) public_key_path s.
Proof.
  destruct Hpre as [Hpre Hpre1], Hpad as [Hpad Hpad1].
  assert (Hall : one_line (pre +:+ line +:+ pad)).
  { unfold one_line in *. rewrite !list_ascii_app. by rewrite !Forall_app. }
  assert (Htry : ∀ pem, verify_cmd_try X pem (pre +:+ line +:+ pad +:+ String newline rest)
                        = verify_cmd_try X pem (line +:+ String newline rest)).
  { intros pem. unfold verify_cmd_try.
    replace (pre +:+ line +:+ pad +:+ String newline rest)
      with ((pre +:+ line +:+ pad) +:+ String newline rest)
      by (by rewrite !string_app_assoc).
    rewrite (readline_app _ rest Hall), (readline_app line rest Hline).
    replace ((pre +:+ line +:+ pad) +:+ String newline "")
      with (pre +:+ line +:+ pad +:+ String newline "")
      by (by rewrite !string_app_assoc).
    by rewrite (strip_padded pre line pad Hpre Hpad). }
  unfold verify_cmd, bind.
  destruct (open_read public_key_path s) as [[pem | e | c] s']; [| done..].
  unfold ret. by rewrite Htry.
Qed.

Lemma surrounding_whitespace_is_not_signed_witness :
  let X := Sample.externals Runs.book150 in
  let s := Runs.started_at_200 in
  let cert := rsa_certificate_path Sample.cfg in
  let signed := Sample.pem +:+ "batch-150" +:+ String newline "" in
  (blank " " ∧ one_line " ") ∧ one_line "batch-150"
  ∧ verify_cmd X (" " +:+ "batch-150" +:+ " " +:+ String newline signed) cert s
    = (Ok (Some (Runs.stop_then_delay 150), true), s).
Proof.
  intros X s cert signed.
  assert (Hb : blank " " ∧ one_line " ") by (split; repeat constructor; done).
  assert (Hl : one_line "batch-150") by (repeat constructor; done).
  split; [exact Hb |]. split; [exact Hl |].
  rewrite (surrounding_whitespace_is_not_signed X " " "batch-150" " " signed cert s Hb Hl Hb).
  vm_compute. reflexivity.
Defined.

Lemma string_app_ne a c x : a +:+ String c x ≠ a.
Proof. induction a as [| y a IH]; [done |]. rewrite string_app_cons. intros [= H]. auto. Qed.

Lemma cmd_log_name_inj dest_dir f0 f1 valid t t' :
  cmd_log_name dest_dir f0 f1 valid t = cmd_log_name dest_dir f0 f1 valid t' → t = t'.
Proof.
  unfold cmd_log_name. intros H. do 4 apply String.app_inj in H.
  apply string_app_inj_r in H. by apply (inj pretty) in H.
Qed.

(** The copy [save_cmd] makes when the source can be read and the
    destination written. *)
Lemma save_cmd_copies file_path dest_dir f0 f1 rest valid t f s :
  split_on dot (basename file_path) = f0 :: f1 :: rest →
  fs s !! file_path = Some f → is_dir f = false →
  (∀ g, fs s !! cmd_log_name dest_dir f0 f1 valid t = Some g → is_dir g = false) →
  ∃ m, save_cmd file_path dest_dir valid t s
       = (Ok tt,
          set_trace (trace s ++ [EvCopyfile file_path (cmd_log_name dest_dir f0 f1 valid t)])
            (set_fs (<[cmd_log_name dest_dir f0 f1 valid t
                       := {| is_dir := false; data := data f; mode := m |}]> (fs s)) s)).
Proof.
  intros Hname Hsrc Hreg Hdst. unfold save_cmd. rewrite Hname.
  fold (cmd_log_name dest_dir f0 f1 valid t).
  unfold shutil_copyfile, bind, open_read. rewrite Hsrc, Hreg.
  destruct (fs s !! cmd_log_name dest_dir f0 f1 valid t) as [g |] eqn:Hg.
  - rewrite (Hdst g eq_refl). by exists (mode g).
  - by exists default_mode.
Qed.

(** X11: [save_cmd] copies the envelope under a name built from its base
    name, its validity and the command time.  With the log directory in
    place, when the source is a regular file whose base name has a dot and
    the destination is neither a directory nor the source itself, the call
    returns, the logged file holds exactly the source's bytes, every other
    path is untouched, and logging the same file again under the same time
    leaves the file system as it is. *)
Theorem save_cmd_copies_the_envelope (file_path dest_dir f0 f1 : string)
    (rest : list string) (valid : bool) (cmd_time : Z) (f d : File) (s : State)
    (Hname : split_on dot (basename file_path) = f0 :: f1 :: rest)
    (Hdir : fs s !! dest_dir = Some d ∧ is_dir d = true)
    (Hsrc : fs s !! file_path = Some f)
    (Hreg : is_dir f = false)
    (Hdst : ∀ g, fs s !! cmd_log_name dest_dir f0 f1 valid cmd_time = Some g →
                 is_dir g = false)
    (Hother : cmd_log_name dest_dir f0 f1 valid cmd_time ≠ file_path) :
  let dest := cmd_log_name dest_dir f0 f1 valid cmd_time in
  let r := save_cmd file_path dest_dir valid cmd_time s in
  r.1 = Ok tt
  ∧ data <$> fs r.2 !! dest = Some (data f)
  ∧ (∀ p, p ≠ dest → fs r.2 !! p = fs s !! p)
  ∧ fs (save_cmd file_path dest_dir valid cmd_time r.2).2 = fs r.2.
Proof.
  intros dest r.
  destruct (save_cmd_copies file_path dest_dir f0 f1 rest valid cmd_time f s
              Hname Hsrc Hreg Hdst) as [m Hr].
  subst r. rewrite Hr. simpl. fold dest.
  split; [done |]. split; [by rewrite lookup_insert_eq |].
  split; [intros p Hp; by apply lookup_insert_ne |].
  set (s1 := set_trace _ _).
  destruct (save_cmd_copies file_path dest_dir f0 f1 rest valid cmd_time f s1 Hname)
    as [m' Hr']; [simpl; by rewrite lookup_insert_ne | done | |].
  - intros g. simpl. fold dest. rewrite lookup_insert_eq. by intros [= <-].
  - rewrite Hr'. simpl. fold dest. rewrite insert_insert_eq. f_equal.
    assert (Hm : ∀ g, fs s1 !! dest = Some g → mode g = m)
      by (intros g; simpl; rewrite lookup_insert_eq; by intros [= <-]).
    clear Hr. unfold save_cmd in Hr'. rewrite Hname in Hr'.
    fold (cmd_log_name dest_dir f0 f1 valid cmd_time) in Hr'. fold dest in Hr'.
    unfold shutil_copyfile, bind, open_read in Hr'.
    assert (Hs1 : fs s1 !! file_path = Some f) by (simpl; by rewrite lookup_insert_ne).
    assert (Hd1 : fs s1 !! dest = Some {| is_dir := false; data := data f; mode := m |})
      by (simpl; by rewrite lookup_insert_eq).
    rewrite Hs1, Hreg, Hd1 in Hr'. simpl in Hr'.
    injection Hr' as Hr'. apply (f_equal (fun mp => mp !! dest)) in Hr'.
    rewrite !lookup_insert_eq in Hr'. by injection Hr' as ->.
Qed.

Lemma save_cmd_copies_the_envelope_witness :
  let s := Supervised.with_cmdlog in
  let r := save_cmd "/tmp/command.jsonl" (cmd_log_dir Sample.cfg) false 150 s in
  r.1 = Ok tt
  ∧ data <$> fs r.2 !! "/opt/xxnetwork/cmdlog/INVALID_command_150.jsonl" = Some "first".
Proof.
  intros s r.
  destruct (save_cmd_copies_the_envelope "/tmp/command.jsonl" (cmd_log_dir Sample.cfg)
              "command" "jsonl" [] false 150 (Sample.regular "first" 420)
              Supervised.directory s)
    as (Hok & Hdata & _);
    [vm_compute; reflexivity | split; [vm_compute; reflexivity | reflexivity]
    | vm_compute; reflexivity | reflexivity
    | intros g Hg; by vm_compute in Hg | by vm_compute |].
  split; [exact Hok | exact Hdata].
Defined.

(** X12: a log entry is replaced only by a copy made under the same time.
    With the log directory in place, an envelope is logged at time [t];
    the next download then replaces the scratch copy and the new envelope
    is logged, with the same validity, at time [t'].  The second entry
    holds the new bytes; when the two times differ (in whole seconds) the
    names differ and the first entry still holds the old bytes; when they
    are equal the one entry now holds the new bytes, the old ones are gone. *)
Theorem later_log_entry_keeps_the_earlier (file_path dest_dir f0 f1 : string)
    (rest : list string) (valid : bool) (t t' : Z) (f f' d : File) (s : State)
    (Hname : split_on dot (basename file_path) = f0 :: f1 :: rest)
    (Hdir : fs s !! dest_dir = Some d ∧ is_dir d = true)
    (Hsrc : fs s !! file_path = Some f)
    (Hreg : is_dir f = false ∧ is_dir f' = false)
    (Hdst : ∀ u g, fs s !! cmd_log_name dest_dir f0 f1 valid u = Some g → is_dir g = false)
    (Hother : ∀ u, cmd_log_name dest_dir f0 f1 valid u ≠ file_path) :
  let name := cmd_log_name dest_dir f0 f1 valid in
  let s1 := (save_cmd file_path dest_dir valid t s).2 in
  let s2 := set_fs (<[file_path := f']> (fs s1)) s1 in
  let s3 := (save_cmd file_path dest_dir valid t' s2).2 in
  data <$> fs s3 !! name t' = Some (data f')
  ∧ (t ≠ t' → name t ≠ name t' ∧ data <$> fs s3 !! name t = Some (data f))
  ∧ (t = t' → data <$> fs s3 !! name t = Some (data f')).
Proof.
  intros name s1 s2 s3. destruct Hreg as [Hreg Hreg'].
  destruct (save_cmd_copies file_path dest_dir f0 f1 rest valid t f s
              Hname Hsrc Hreg (Hdst t)) as [m Hr1].
  assert (Hfs1 : fs s1 = <[name t := {| is_dir := false; data := data f; mode := m |}]> (fs s))
    by (subst s1; by rewrite Hr1).
  assert (Hsrc2 : fs s2 !! file_path = Some f') by (simpl; apply lookup_insert_eq).
  assert (Hdst2 : ∀ g, fs s2 !! name t' = Some g → is_dir g = false).
  { intros g. simpl. rewrite lookup_insert_ne by (intros Heq; by apply (Hother t')).
    rewrite Hfs1. destruct (decide (name t = name t')) as [Heq | Hne].
    - rewrite Heq, lookup_insert_eq. by intros [= <-].
    - rewrite lookup_insert_ne by done. apply Hdst. }
  destruct (save_cmd_copies file_path dest_dir f0 f1 rest valid t' f' s2
              Hname Hsrc2 Hreg' Hdst2) as [m' Hr3].
  assert (Hfs3 : fs s3 = <[name t' := {| is_dir := false; data := data f'; mode := m' |}]>
                           (<[file_path := f']> (fs s1)))
    by (subst s3; by rewrite Hr3).
  assert (Hnew : data <$> fs s3 !! name t' = Some (data f'))
    by (by rewrite Hfs3, lookup_insert_eq).
  split; [exact Hnew |]. split.
  - intros Hne.
    assert (Hnames : name t ≠ name t')
      by (intros Heq; apply Hne; exact (cmd_log_name_inj _ _ _ _ _ _ Heq)).
    split; [exact Hnames |].
    rewrite Hfs3, lookup_insert_ne by done.
    rewrite lookup_insert_ne by (intros Heq; by apply (Hother t)).
    by rewrite Hfs1, lookup_insert_eq.
  - by intros ->.
Qed.

Lemma later_log_entry_keeps_the_earlier_witness :
  let s := Supervised.with_cmdlog in
  let again := Sample.regular "second" 420 in
  let s1 := (save_cmd "/tmp/command.jsonl" (cmd_log_dir Sample.cfg) true 150 s).2 in
  let s2 := set_fs (<["/tmp/command.jsonl" := again]> (fs s1)) s1 in
  let s3 := (save_cmd "/tmp/command.jsonl" (cmd_log_dir Sample.cfg) true 151 s2).2 in
  data <$> fs s3 !! "/opt/xxnetwork/cmdlog/command_150.jsonl" = Some "first"
  ∧ data <$> fs s3 !! "/opt/xxnetwork/cmdlog/command_151.jsonl" = Some "second".
Proof.
  intros s again s1 s2 s3.
  destruct (later_log_entry_keeps_the_earlier "/tmp/command.jsonl" (cmd_log_dir Sample.cfg)
              "command" "jsonl" [] true 150 151 (Sample.regular "first" 420) again
              Supervised.directory s)
    as (Hnew & Hold & _).
  - vm_compute; reflexivity.
  - split; [vm_compute; reflexivity | reflexivity].
  - vm_compute; reflexivity.
  - split; reflexivity.
  - intros u g Hg. unfold s, Supervised.with_cmdlog in Hg. simpl in Hg.
    unfold Sample.files in Hg. rewrite !lookup_insert_Some, lookup_empty in Hg.
    destruct Hg as [[Heq _] | [_ [[_ <-] | [_ [[_ <-] | [_ [[_ <-] | [_ [[_ <-] | [_ Hg]]]]]]]]]];
      [| done..].
    exfalso. unfold cmd_log_name in Heq. by apply eq_sym, string_app_ne in Heq.
  - intros u Heq. unfold cmd_log_name in Heq.
    cbv [String.append Sample.cfg cmd_log_dir] in Heq. discriminate Heq.
  - split; [exact (proj2 (Hold ltac:(lia))) | exact Hnew].
Defined.

(** ** Updates, end to end *)

Lemma installed_fs_lookup cfg target nf m p :
  binary_path cfg ≠ target +:+ ".tmp" →
  installed_fs cfg target nf m !! p
  = if decide (p = binary_path cfg) then
      as_executable <$> (if decide (binary_path cfg = target) then Some nf
                         else m !! binary_path cfg)
    else if decide (p = target) then Some nf
    else if decide (p = target +:+ ".tmp") then None
    else m !! p.
Proof.
  intros Hcfg. pose proof (tmp_path_differs target) as Htmp. unfold installed_fs.
  assert (Hbin : (<[target := nf]> (delete (target +:+ ".tmp") m)) !! binary_path cfg
                 = if decide (binary_path cfg = target) then Some nf
                   else m !! binary_path cfg).
  { case_decide as Hb.
    - by rewrite Hb, lookup_insert_eq.
    - by rewrite lookup_insert_ne, lookup_delete_ne. }
  rewrite Hbin.
  destruct (decide (p = binary_path cfg)) as [-> | Hp].
  - destruct (decide (binary_path cfg = target)) as [Hb | Hb].
    + by rewrite lookup_insert_eq.
    + destruct (m !! binary_path cfg) as [f |] eqn:Hf.
      * by rewrite lookup_insert_eq.
      * by rewrite lookup_insert_ne, lookup_delete_ne.
  - assert (Hrest : (<[target := nf]> (delete (target +:+ ".tmp") m)) !! p
                    = if decide (p = target) then Some nf
                      else if decide (p = target +:+ ".tmp") then None else m !! p).
    { destruct (decide (p = target)) as [-> | Ht]; [by rewrite lookup_insert_eq |].
      rewrite lookup_insert_ne by done.
      destruct (decide (p = target +:+ ".tmp")) as [-> | Hq];
        [by rewrite lookup_delete_eq | by rewrite lookup_delete_ne]. }
    destruct (if decide (binary_path cfg = target) then Some nf else m !! binary_path cfg);
      [by rewrite lookup_insert_ne |]; done.
Qed.

Lemma installed_fs_fresh_tmp cfg target nf nf' m :
  installed_fs cfg target nf (<[target +:+ ".tmp" := nf']> m) = installed_fs cfg target nf m.
Proof. unfold installed_fs. by rewrite delete_insert_eq. Qed.

Lemma installed_fs_idem cfg target nf m :
  binary_path cfg ≠ target +:+ ".tmp" →
  installed_fs cfg target nf (installed_fs cfg target nf m) = installed_fs cfg target nf m.
Proof.
  intros Hcfg. apply map_eq. intros p.
  rewrite (installed_fs_lookup cfg target nf (installed_fs cfg target nf m) p Hcfg).
  rewrite (installed_fs_lookup cfg target nf m (binary_path cfg) Hcfg).
  rewrite (installed_fs_lookup cfg target nf m p Hcfg).
  rewrite (decide_True (P := binary_path cfg = binary_path cfg)) by done.
  destruct (decide (p = binary_path cfg)) as [-> | Hp].
  - destruct (decide (binary_path cfg = target)) as [Hb | Hb]; [done |].
    by destruct (m !! binary_path cfg).
  - by repeat case_decide.
Qed.

(** From the entry found at [<target>.tmp] after the download to the end
    of the update. *)
Lemma update_command_from_tmp cfg i t info target s nf :
  let src := management_directory cfg +:+ "/" +:+ info_path info in
  let tmp := target +:+ ".tmp" in
  let s1 := (download src tmp s).2 in
  disableupdates cfg = false →
  valid_paths cfg !! info_install_path info = Some target →
  fs s1 !! tmp = Some nf → is_dir nf = false →
  Sha256.hexdigest (data nf) = info_sha256sum info →
  (∀ g, fs s1 !! target = Some g → is_dir g = false) →
  (binary_path cfg ≠ target → is_Some (fs s1 !! binary_path cfg)) →
  binary_path cfg ≠ tmp →
  ∃ s', update_command cfg i t info s
        = (if bool_decide (target = "wrapper") then Exit 0 else Ok tt, s')
        ∧ fs s' = installed_fs cfg target nf (fs s1)
        ∧ trace s' = (trace s1 ++ [EvReplace tmp target; EvChmod (binary_path cfg) S_IEXEC])%list
        ∧ bucket s' = bucket s1 ∧ timestamps s' = timestamps s1 ∧ process s' = process s1.
Proof.
  intros src tmp s1 Henabled Hkey Htmp Hreg Hhash Htarget Hbin Hcfg.
  assert (Hread : open_read tmp s1 = (Ok (data nf), s1)).
  { unfold open_read. by rewrite Htmp, Hreg. }
  set (s2 := set_trace (trace s1 ++ [EvReplace tmp target])
               (set_fs (<[target := nf]> (delete tmp (fs s1))) s1)).
  assert (Hmv : os_replace tmp target s1 = (Ok tt, s2)).
  { unfold os_replace. rewrite Htmp. destruct (fs s1 !! target) as [g |] eqn:Hg; [| done].
    by rewrite Hreg, (Htarget g eq_refl). }
  assert (Hb2 : ∃ f, fs s2 !! binary_path cfg = Some f).
  { simpl. destruct (decide (binary_path cfg = target)) as [Hb | Hb].
    - exists nf. by rewrite Hb, lookup_insert_eq.
    - destruct (Hbin Hb) as [f Hf]. exists f.
      by rewrite lookup_insert_ne, lookup_delete_ne. }
  destruct Hb2 as [f Hf].
  exists (chmod_binary cfg f s2). split.
  - rewrite (update_command_hash_check cfg i t info target s Henabled Hkey (data nf) Hread).
    rewrite bool_decide_eq_true_2 by done.
    by rewrite (install_update_replaced cfg i t info target s s2 f Hmv Hf).
  - split; [| split; [| done]].
    + unfold installed_fs. simpl in Hf. fold tmp. by rewrite Hf.
    + simpl. by rewrite <- app_assoc.
Qed.

(** The whole update when the object is in the bucket with the announced
    digest. *)
Lemma update_command_published cfg i t info target bytes s :
  disableupdates cfg = false →
  valid_paths cfg !! info_install_path info = Some target →
  bucket s !! (management_directory cfg +:+ "/" +:+ info_path info) = Some bytes →
  info_sha256sum info = Sha256.hexdigest bytes →
  (∀ g, fs s !! (target +:+ ".tmp") = Some g → is_dir g = false) →
  (∀ g, fs s !! target = Some g → is_dir g = false) →
  (binary_path cfg ≠ target → is_Some (fs s !! binary_path cfg)) →
  binary_path cfg ≠ target +:+ ".tmp" →
  ∃ s', update_command cfg i t info s
        = (if bool_decide (target = "wrapper") then Exit 0 else Ok tt, s')
        ∧ fs s' = installed_fs cfg target (downloaded bytes) (fs s)
        ∧ bucket s' = bucket s ∧ timestamps s' = timestamps s ∧ process s' = process s.
Proof.
  intros Henabled Hkey Hobj Hhash Htmp Htarget Hbin Hcfg.
  pose proof (tmp_path_differs target) as Hdiff.
  assert (Hdl : (download (management_directory cfg +:+ "/" +:+ info_path info)
                   (target +:+ ".tmp") s).2
                = set_trace (trace s ++ [EvDownload
                                           (management_directory cfg +:+ "/" +:+ info_path info)
                                           (target +:+ ".tmp") true])
                    (set_fs (<[target +:+ ".tmp" := downloaded bytes]> (fs s)) s)).
  { unfold download. rewrite Hobj.
    destruct (fs s !! (target +:+ ".tmp")) as [g |] eqn:Hg; [| done].
    by rewrite (Htmp g eq_refl). }
  destruct (update_command_from_tmp cfg i t info target s (downloaded bytes))
    as (s' & Hrun & Hfs & _ & Hb & Hts & Hproc); try done.
  - rewrite Hdl. simpl. apply lookup_insert_eq.
  - rewrite Hdl. simpl. intros g. rewrite lookup_insert_ne by done. apply Htarget.
  - rewrite Hdl. simpl. intros Hne. rewrite lookup_insert_ne by done. by apply Hbin.
  - exists s'. rewrite Hdl in Hfs, Hb, Hts, Hproc. simpl in *.
    by rewrite installed_fs_fresh_tmp in Hfs.
Qed.

(** X14: an update installs exactly the published bytes.  With updates
    enabled, a known key, the object in the bucket and its digest as
    announced, no directory in the way and the binary present, the update
    returns normally; the target then holds the object's bytes, no [.tmp]
    file is left, no other file but the binary's mode has changed, and the
    feed's timestamps are untouched (they are set at the end of the batch). *)
Theorem update_installs_the_published_bytes (cfg : Config) (i : nat) (t : Z)
    (info : Info) (target bytes : string) (s : State)
    (Henabled : disableupdates cfg = false)
    (Hkey : valid_paths cfg !! info_install_path info = Some target)
    (Hobj : bucket s !! (management_directory cfg +:+ "/" +:+ info_path info) = Some bytes)
    (Hhash : info_sha256sum info = Sha256.hexdigest bytes)
    (Htmp : ∀ g, fs s !! (target +:+ ".tmp") = Some g → is_dir g = false)
    (Htarget : ∀ g, fs s !! target = Some g → is_dir g = false)
    (Hbin : binary_path cfg ≠ target → is_Some (fs s !! binary_path cfg))
    (Hcfg : binary_path cfg ≠ target +:+ ".tmp")
    (Hnot : target ≠ "wrapper") :
  let r := update_command cfg i t info s in
  r.1 = Ok tt
  ∧ data <$> fs r.2 !! target = Some bytes
  ∧ is_dir <$> fs r.2 !! target = Some false
  ∧ fs r.2 !! (target +:+ ".tmp") = None
  ∧ (∀ p, p ≠ target → p ≠ target +:+ ".tmp" → p ≠ binary_path cfg →
          fs r.2 !! p = fs s !! p)
  ∧ timestamps r.2 = timestamps s
  ∧ process r.2 = process s.
Proof.
  pose proof (tmp_path_differs target) as Hdiff.
  destruct (update_command_published cfg i t info target bytes s)
    as (s' & Hrun & Hfs & _ & Hts & Hproc); try done.
  intros r. subst r. rewrite Hrun. rewrite bool_decide_eq_false_2 by done.
  simpl. rewrite Hfs. split; [done |].
  rewrite !(installed_fs_lookup cfg target _ _ _ Hcfg).
  split; [| split; [| split; [| split; [| done]]]].
  - destruct (decide (target = binary_path cfg)) as [Hb | Hb].
    + rewrite decide_True by done. done.
    + by rewrite decide_True.
  - destruct (decide (target = binary_path cfg)) as [Hb | Hb].
    + rewrite decide_True by done. done.
    + by rewrite decide_True.
  - rewrite decide_False by done. rewrite decide_False by done. by rewrite decide_True.
  - intros p Hp1 Hp2 Hp3. rewrite !(installed_fs_lookup cfg target _ _ _ Hcfg).
    by rewrite !decide_False.
Qed.

Lemma update_installs_the_published_bytes_witness :
  let cfg := Sample.cfg in
  let info := Runs.update_info "binary" Runs.v2_digest in
  let r := update_command cfg 1 150 info Runs.with_artifact in
  r.1 = Ok tt
  ∧ data <$> fs r.2 !! binary_path cfg = Some "v2"
  ∧ fs r.2 !! (binary_path cfg +:+ ".tmp") = None.
Proof.
  intros cfg info r.
  destruct (update_installs_the_published_bytes cfg 1 150 info (binary_path cfg) "v2"
              Runs.with_artifact)
    as (Hok & Hdata & _ & Htmp & _);
    [ reflexivity | vm_compute; reflexivity | vm_compute; reflexivity
    | vm_compute; reflexivity | intros g Hg; by vm_compute in Hg
    | intros g Hg; vm_compute in Hg; by injection Hg as <- | done
    | by vm_compute | by vm_compute | ].
  split; [exact Hok |]. split; [exact Hdata | exact Htmp].
Defined.

(** X15: an update is idempotent.  Under the same conditions, applying the
    update a second time returns normally and leaves the file system
    exactly as the first application left it. *)
Theorem update_is_idempotent (cfg : Config) (i : nat) (t : Z)
    (info : Info) (target bytes : string) (s : State)
    (Henabled : disableupdates cfg = false)
    (Hkey : valid_paths cfg !! info_install_path info = Some target)
    (Hobj : bucket s !! (management_directory cfg +:+ "/" +:+ info_path info) = Some bytes)
    (Hhash : info_sha256sum info = Sha256.hexdigest bytes)
    (Htmp : ∀ g, fs s !! (target +:+ ".tmp") = Some g → is_dir g = false)
    (Htarget : ∀ g, fs s !! target = Some g → is_dir g = false)
    (Hbin : binary_path cfg ≠ target → is_Some (fs s !! binary_path cfg))
    (Hcfg : binary_path cfg ≠ target +:+ ".tmp")
    (Hnot : target ≠ "wrapper") :
  let once := update_command cfg i t info s in
  let twice := update_command cfg i t info once.2 in
  once.1 = Ok tt ∧ twice.1 = Ok tt ∧ fs twice.2 = fs once.2.
Proof.
  pose proof (tmp_path_differs target) as Hdiff.
  destruct (update_command_published cfg i t info target bytes s)
    as (s1 & Hrun & Hfs & Hb & _); try done.
  intros once twice. subst twice once. rewrite Hrun.
  rewrite bool_decide_eq_false_2 by done. simpl.
  destruct (update_command_published cfg i t info target bytes s1)
    as (s2 & Hrun2 & Hfs2 & _); try done.
  - by rewrite Hb.
  - intros g. rewrite Hfs, (installed_fs_lookup cfg target _ _ _ Hcfg).
    rewrite decide_False by done. rewrite decide_False by done. by rewrite decide_True.
  - intros g. rewrite Hfs, (installed_fs_lookup cfg target _ _ _ Hcfg).
    destruct (decide (target = binary_path cfg)) as [Ht | Ht].
    + rewrite decide_True by done. by intros [= <-].
    + rewrite decide_True by done. by intros [= <-].
  - intros Hne. rewrite Hfs, (installed_fs_lookup cfg target _ _ _ Hcfg).
    rewrite decide_True by done. rewrite decide_False by done.
    destruct (Hbin Hne) as [f ->]. by eexists.
  - rewrite Hrun2. rewrite bool_decide_eq_false_2 by done. simpl.
    split; [done |]. split; [done |].
    by rewrite Hfs2, Hfs, installed_fs_idem.
Qed.

Lemma update_is_idempotent_witness :
  let cfg := Sample.cfg in
  let info := Runs.update_info "config" Runs.v2_digest in
  let once := update_command cfg 1 150 info Runs.with_artifact in
  let twice := update_command cfg 1 150 info once.2 in
  fs once.2 !! config_file cfg = Some (Sample.regular "v2" 420)
  ∧ fs twice.2 = fs once.2.
Proof.
  intros cfg info once twice.
  destruct (update_is_idempotent cfg 1 150 info (config_file cfg) "v2" Runs.with_artifact)
    as (_ & _ & Hfs);
    [ reflexivity | vm_compute; reflexivity | vm_compute; reflexivity
    | vm_compute; reflexivity | intros g Hg; by vm_compute in Hg
    | intros g Hg; by vm_compute in Hg | intros _; eexists; vm_compute; reflexivity
    | by vm_compute | by vm_compute | ].
  split; [vm_compute; reflexivity | exact Hfs].
Defined.

(** X16: a failed download falls back to a leftover temporary file.
    [download] swallows its errors, so when the object is missing from the
    bucket but a regular file sits at [<target>.tmp] whose digest is the
    announced one, the update installs that leftover: the target gets its
    bytes and the only calls are the failed download, the rename and the
    chmod. *)
Theorem failed_download_installs_leftover (cfg : Config) (i : nat) (t : Z)
    (info : Info) (target : string) (s : State) (g : File)
    (Henabled : disableupdates cfg = false)
    (Hkey : valid_paths cfg !! info_install_path info = Some target)
    (Hobj : bucket s !! (management_directory cfg +:+ "/" +:+ info_path info) = None)
    (Hleft : fs s !! (target +:+ ".tmp") = Some g)
    (Hreg : is_dir g = false)
    (Hhash : info_sha256sum info = Sha256.hexdigest (data g))
    (Htarget : ∀ g, fs s !! target = Some g → is_dir g = false)
    (Hbin : binary_path cfg ≠ target → is_Some (fs s !! binary_path cfg))
    (Hcfg : binary_path cfg ≠ target +:+ ".tmp")
    (Hnot : target ≠ "wrapper") :
  let r := update_command cfg i t info s in
  r.1 = Ok tt
  ∧ data <$> fs r.2 !! target = Some (data g)
  ∧ fs r.2 !! (target +:+ ".tmp") = None
  ∧ trace r.2
    = (trace s ++ [EvDownload (management_directory cfg +:+ "/" +:+ info_path info)
                     (target +:+ ".tmp") false;
                   EvReplace (target +:+ ".tmp") target;
                   EvChmod (binary_path cfg) S_IEXEC])%list.
Proof.
  pose proof (tmp_path_differs target) as Hdiff.
  assert (Hdl : (download (management_directory cfg +:+ "/" +:+ info_path info)
                   (target +:+ ".tmp") s).2
                = set_trace (trace s ++ [EvDownload
                                           (management_directory cfg +:+ "/" +:+ info_path info)
                                           (target +:+ ".tmp") false]) s).
  { unfold download. by rewrite Hobj. }
  destruct (update_command_from_tmp cfg i t info target s g)
    as (s' & Hrun & Hfs & Htr & _); try done.
  - by rewrite Hdl.
  - by rewrite Hdl.
  - by rewrite Hdl.
  - intros r. subst r. rewrite Hrun. rewrite bool_decide_eq_false_2 by done.
    rewrite Hdl in Hfs, Htr. simpl in *. rewrite Hfs, Htr.
    split; [done |].
    rewrite !(installed_fs_lookup cfg target _ _ _ Hcfg).
    split; [| split].
    + destruct (decide (target = binary_path cfg)) as [Hb | Hb].
      * rewrite decide_True by done. done.
      * by rewrite decide_True.
    + rewrite decide_False by done. rewrite decide_False by done. by rewrite decide_True.
    + by rewrite <- app_assoc.
Qed.

Lemma failed_download_installs_leftover_witness :
  let cfg := Sample.cfg in
  let info := Runs.update_info "config" Runs.v2_digest in
  let s0 := Sample.machine 100000 ∅ in
  let s := set_fs (<[config_file cfg +:+ ".tmp" := Sample.regular "v2" 420]> (fs s0)) s0 in
  let r := update_command cfg 1 150 info s in
  bucket s !! "mgmt/v2/node" = None
  ∧ r.1 = Ok tt
  ∧ data <$> fs r.2 !! config_file cfg = Some "v2".
Proof.
  intros cfg info s0 s r.
  split; [reflexivity |].
  destruct (failed_download_installs_leftover cfg 1 150 info (config_file cfg) s
              (Sample.regular "v2" 420))
    as (Hok & Hdata & _);
    [ reflexivity | vm_compute; reflexivity | vm_compute; reflexivity
    | vm_compute; reflexivity | reflexivity | vm_compute; reflexivity
    | intros g Hg; by vm_compute in Hg | intros _; eexists; vm_compute; reflexivity
    | by vm_compute | by vm_compute | ].
  split; [exact Hok | exact Hdata].
Defined.

Lemma get_node_id_frame X p s :
  let s' := (get_node_id X p s).2 in
  fs s' = fs s ∧ bucket s' = bucket s ∧ trace s' = trace s.
Proof.
  unfold get_node_id, bind, try_except, get, ret, modify, raise, os_path_exists, open_read.
  by repeat (case_match; simplify_eq/=).
Qed.

Lemma update_command_missing cfg i t info target s :
  disableupdates cfg = false →
  valid_paths cfg !! info_install_path info = Some target →
  bucket s !! (management_directory cfg +:+ "/" +:+ info_path info) = None →
  fs s !! (target +:+ ".tmp") = None →
  update_command cfg i t info s
  = (Raise OSError,
     set_trace (trace s ++ [EvDownload (management_directory cfg +:+ "/" +:+ info_path info)
                              (target +:+ ".tmp") false]) s).
Proof.
  intros Henabled Hkey Hobj Htmp. unfold update_command. rewrite Henabled, Hkey.
  unfold bind at 1, download. rewrite Hobj.
  unfold bind, open_read. simpl. by rewrite Htmp.
Qed.

(** X17: an update whose object is missing is left for a retry when it is
    the first entry of its batch.  The batch verified and passed the guard;
    its first entry is an update addressed to every node, the object is
    missing from the bucket and no file sits at [<target>.tmp].  Then the
    entry raises at the read of the temporary file, the entries after it
    are not run and the poll returns normally: nothing is installed and the
    feed's timestamps are what they were before the poll, so the same batch
    passes the guard again at the next poll.  (After an earlier entry that
    was skipped or rejected the feed would already carry the batch's
    timestamp.) *)
Theorem missing_artifact_is_retried (X : Externals) (cfg : Config) (i : nat)
    (remote : string) (b : Batch) (sp s s0 : State) (last : Z)
    (c : Command) (rest : list Command) (target : string)
    (Hfetch : fetch_commands X cfg remote sp = (Ok (Some b, true), s))
    (Hsave : save_cmd (local_path_of remote) (cmd_log_dir cfg) true (timestamp b) s
             = (Ok tt, s0))
    (Hlast : timestamps sp !! i = Some last)
    (Hguard : last < timestamp b)
    (Hfirst : commands b = c :: rest)
    (Hkind : cmd_command c = "update")
    (Hall : cmd_nodes c = None)
    (Henabled : disableupdates cfg = false)
    (Hkey : valid_paths cfg !! info_install_path (cmd_info c) = Some target)
    (Hobj : bucket s0 !! (management_directory cfg +:+ "/" +:+ info_path (cmd_info c)) = None)
    (Htmp : fs s0 !! (target +:+ ".tmp") = None) :
  let r := poll_feed X cfg i remote sp in
  r.1 = Ok tt
  ∧ fs r.2 = fs s0
  ∧ timestamps r.2 = timestamps sp
  ∧ trace r.2
    = (trace s0 ++ [EvDownload (management_directory cfg +:+ "/" +:+ info_path (cmd_info c))
                      (target +:+ ".tmp") false])%list
  ∧ (∃ last', timestamps r.2 !! i = Some last' ∧ last' < timestamp b).
Proof.
  pose proof (fetch_commands_keeps_ts X cfg remote sp) as Hk0.
  pose proof (save_cmd_keeps_ts (local_path_of remote) (cmd_log_dir cfg) true
                (timestamp b) s) as Hk1.
  pose proof (get_node_id_keeps_ts X (idpath cfg) s0) as Hk2.
  destruct (get_node_id_frame X (idpath cfg) s0) as (Hfs & Hbucket & Htrace).
  destruct (get_node_id_returns X (idpath cfg) s0) as [node_id Hid].
  rewrite Hfetch in Hk0. rewrite Hsave in Hk1.
  unfold same_timestamps in Hk0, Hk1, Hk2. simpl in Hk0, Hk1.
  set (s0' := (get_node_id X (idpath cfg) s0).2) in *.
  assert (Hc : run_command cfg i (timestamp b) node_id c s0'
               = (Raise OSError,
                  set_trace (trace s0' ++ [EvDownload
                               (management_directory cfg +:+ "/" +:+ info_path (cmd_info c))
                               (target +:+ ".tmp") false]) s0')).
  { unfold run_command, not_for_us. rewrite Hall, Hkind. simpl.
    apply update_command_missing; [done | done | by rewrite Hbucket | by rewrite Hfs]. }
  intros r.
  assert (Hr : r = (Ok tt, set_trace (trace s0' ++ [EvDownload
                               (management_directory cfg +:+ "/" +:+ info_path (cmd_info c))
                               (target +:+ ".tmp") false]) s0')).
  { subst r.
    rewrite (poll_feed_dispatches X cfg i remote sp s s0 b last Hfetch Hsave Hlast Hguard).
    unfold try_except, bind at 1. rewrite Hid. rewrite Hfirst. simpl.
    unfold bind. by rewrite Hc. }
  rewrite Hr. simpl. split; [done |]. split; [done |].
  split; [by rewrite Hk2, Hk1, Hk0 |]. split; [by rewrite Htrace |].
  exists last. split; [by rewrite Hk2, Hk1, Hk0 | done].
Qed.

Lemma missing_artifact_is_retried_witness :
  let cfg := Sample.cfg in
  let X := Sample.externals Supervised.unpublished_book in
  let sp := Supervised.unpublished in
  let r := poll_feed X cfg 1 (command_file cfg) sp in
  timestamps sp = [0; 100]
  ∧ r.1 = Ok tt
  ∧ timestamps r.2 = [0; 100]
  ∧ (poll_feed X cfg 1 (command_file cfg) r.2).1 = Ok tt.
Proof.
  intros cfg X sp r.
  set (s := (fetch_commands X cfg (command_file cfg) sp).2).
  set (s0 := (save_cmd (local_path_of (command_file cfg)) (cmd_log_dir cfg) true 150 s).2).
  destruct (missing_artifact_is_retried X cfg 1 (command_file cfg) Supervised.unpublished_batch
              sp s s0 100 (Sample.update "binary" "v3/node" Runs.v2_digest)
              [Sample.delay 5] (binary_path cfg))
    as (Hok & _ & Hts & _);
    [ vm_compute; reflexivity | vm_compute; reflexivity | reflexivity | simpl; lia
    | reflexivity | reflexivity | reflexivity | reflexivity | vm_compute; reflexivity
    | vm_compute; reflexivity | vm_compute; reflexivity | ].
  split; [reflexivity |]. split; [exact Hok |]. split; [exact Hts |].
  vm_compute. reflexivity.
Defined.

(** ** What the dispatch never does *)

#[global] Instance installs_nothing_refl : Reflexive installs_nothing.
Proof. intros s. exists []. by rewrite app_nil_r. Qed.

#[global] Instance installs_nothing_trans : Transitive installs_nothing.
Proof.
  intros s1 s2 s3 (e12 & H12 & F12) (e23 & H23 & F23). exists (e12 ++ e23)%list.
  split; [by rewrite H23, H12, <- app_assoc | by apply Forall_app].
Qed.

Lemma installs_nothing_same s s' : trace s' = trace s → installs_nothing s s'.
Proof. intros H. exists []. by rewrite app_nil_r. Qed.

Lemma installs_nothing_event s s' e :
  trace s' = (trace s ++ [e])%list → is_install e = false → installs_nothing s s'.
Proof. intros H He. exists [e]. split; [done | by apply Forall_singleton]. Qed.

Create HintDb no_install.

Ltac prim_no_install f :=
  intros s; unfold f; repeat case_match; simpl;
  first [ by apply installs_nothing_same | by eapply installs_nothing_event ].

Lemma emit_no_install e : is_install e = false → preserves installs_nothing (emit e).
Proof. intros He s. by eapply installs_nothing_event. Qed.

Lemma time_sleep_ms_no_install ms : preserves installs_nothing (time_sleep_ms ms).
Proof.
  unfold time_sleep_ms. frame_with no_install.
  - apply preserves_modify. intros s. by apply installs_nothing_same.
  - by apply emit_no_install.
Qed.
#[global] Hint Resolve time_sleep_ms_no_install : no_install.

Lemma open_read_no_install p : preserves installs_nothing (open_read p).
Proof. prim_no_install open_read. Qed.
#[global] Hint Resolve open_read_no_install : no_install.

Lemma open_append_no_install p : preserves installs_nothing (open_append p).
Proof. prim_no_install open_append. Qed.
#[global] Hint Resolve open_append_no_install : no_install.

Lemma subprocess_Popen_no_install b a : preserves installs_nothing (subprocess_Popen b a).
Proof. prim_no_install subprocess_Popen. Qed.
#[global] Hint Resolve subprocess_Popen_no_install : no_install.

Lemma download_no_install a b : preserves installs_nothing (download a b).
Proof. prim_no_install download. Qed.
#[global] Hint Resolve download_no_install : no_install.

Lemma get_timestamp_no_install i : preserves installs_nothing (get_timestamp i).
Proof. prim_no_install get_timestamp. Qed.
#[global] Hint Resolve get_timestamp_no_install : no_install.

Lemma set_timestamp_no_install i t : preserves installs_nothing (set_timestamp i t).
Proof. intros s. unfold set_timestamp. case_decide; by apply installs_nothing_same. Qed.
#[global] Hint Resolve set_timestamp_no_install : no_install.

Lemma shutil_copyfile_no_install a b : preserves installs_nothing (shutil_copyfile a b).
Proof.
  unfold shutil_copyfile. apply preserves_bind; try typeclasses eauto;
    [auto with no_install |].
  intros content s. repeat case_match; simpl;
    first [ by apply installs_nothing_same | by eapply installs_nothing_event ].
Qed.
#[global] Hint Resolve shutil_copyfile_no_install : no_install.

Lemma save_cmd_no_install f d v t : preserves installs_nothing (save_cmd f d v t).
Proof. unfold save_cmd. frame_with no_install. Qed.
#[global] Hint Resolve save_cmd_no_install : no_install.

Lemma start_binary_no_install b l a : preserves installs_nothing (start_binary b l a).
Proof. unfold start_binary. frame_with no_install. Qed.
#[global] Hint Resolve start_binary_no_install : no_install.

Lemma launch_no_install cfg : preserves installs_nothing (launch cfg).
Proof.
  unfold launch, os_path_isfile. frame_with no_install.
  apply preserves_modify. intros s. by apply installs_nothing_same.
Qed.
#[global] Hint Resolve launch_no_install : no_install.

Lemma terminate_process_no_install p : preserves installs_nothing (terminate_process p).
Proof.
  unfold terminate_process. frame_with no_install.
  - by apply emit_no_install.
  - apply preserves_modify. intros s. by apply installs_nothing_same.
Qed.
#[global] Hint Resolve terminate_process_no_install : no_install.

Lemma verify_cmd_no_install X inbuf p : preserves installs_nothing (verify_cmd X inbuf p).
Proof. unfold verify_cmd. frame_with no_install. Qed.
#[global] Hint Resolve verify_cmd_no_install : no_install.

Lemma get_node_id_no_install X p : preserves installs_nothing (get_node_id X p).
Proof.
  unfold get_node_id, os_path_exists. frame_with no_install;
    apply preserves_modify; intros ?; by apply installs_nothing_same.
Qed.
#[global] Hint Resolve get_node_id_no_install : no_install.

Lemma fetch_commands_no_install X cfg remote :
  preserves installs_nothing (fetch_commands X cfg remote).
Proof. unfold fetch_commands. frame_with no_install. Qed.
#[global] Hint Resolve fetch_commands_no_install : no_install.

Lemma restart_on_error_no_install cfg : preserves installs_nothing (restart_on_error cfg).
Proof.
  unfold restart_on_error, os_path_isfile. frame_with no_install.
  by apply emit_no_install.
Qed.
#[global] Hint Resolve restart_on_error_no_install : no_install.

Section Disabled.

Context (X : Externals) (cfg : Config).
Hypothesis Hdis : disableupdates cfg = true.

Lemma update_command_disabled i t info : update_command cfg i t info = set_timestamp i t.
Proof. unfold update_command. by rewrite Hdis. Qed.

Lemma run_command_no_install i t node_id c :
  preserves installs_nothing (run_command cfg i t node_id c).
Proof. unfold run_command. rewrite update_command_disabled. frame_with no_install. Qed.

Lemma process_batch_no_install i local b ok :
  preserves installs_nothing (process_batch X cfg i local b ok).
Proof.
  pose proof run_command_no_install. unfold process_batch. frame_with no_install.
Qed.

Lemma poll_feed_no_install i remote : preserves installs_nothing (poll_feed X cfg i remote).
Proof.
  pose proof process_batch_no_install. unfold poll_feed, time_time.
  frame_with no_install.
Qed.

Lemma tick_no_install : preserves installs_nothing (tick X cfg).
Proof. pose proof poll_feed_no_install. unfold tick. frame_with no_install. Qed.

Lemma main_loop_no_install n : preserves installs_nothing (main_loop X cfg n).
Proof.
  induction n as [| n IH]; simpl; [apply preserves_ret; typeclasses eauto |].
  apply preserves_bind; try typeclasses eauto; [apply tick_no_install | intros _; exact IH].
Qed.

End Disabled.

(** X18: with updates disabled nothing is ever installed.  When the agent
    runs with [--disableupdates], no number of iterations of the main loop
    calls [os.replace] or [os.chmod], whatever the feeds carry and whatever
    state the machine is in. *)
Theorem disabled_updates_install_nothing (X : Externals) (cfg : Config)
    (Hdis : disableupdates cfg = true) (n : nat) (s : State) :
  ∃ evs : list event,
    trace (main_loop X cfg n s).2 = (trace s ++ evs)%list
    ∧ Forall (fun e => is_install e = false) evs.
Proof. exact (main_loop_no_install X cfg Hdis n s). Qed.

Lemma disabled_updates_install_nothing_witness :
  ∃ evs : list event,
    trace (main_loop (Sample.externals Runs.wrapper_book) Supervised.cfg_no_updates 2
             Runs.wrapper_published).2 = evs
    ∧ Forall (fun e => is_install e = false) evs.
Proof.
  destruct (disabled_updates_install_nothing (Sample.externals Runs.wrapper_book)
              Supervised.cfg_no_updates eq_refl 2 Runs.wrapper_published)
    as (evs & Htrace & Hevs).
  exists evs. split; [exact Htrace | exact Hevs].
Defined.

Lemma run_command_inert cfg i t node_id c s :
  inert node_id c →
  run_command cfg i t node_id c s = set_timestamp i t s
  ∨ run_command cfg i t node_id c s = (Ok tt, s).
Proof.
  intros [Hus | Hkind]; unfold run_command.
  - left. by rewrite Hus.
  - destruct (not_for_us node_id c); [by left | right].
    rewrite !bool_decide_eq_false_2; [done | intros Heq; apply Hkind; rewrite Heq..].
    + do 3 right. left.
    + do 2 right. left.
    + right. left.
    + left.
Qed.

Lemma for_each_inert cfg i t node_id cmds s :
  Forall (inert node_id) cmds →
  (i < length (timestamps s))%nat →
  for_each cmds (run_command cfg i t node_id) s = (Ok tt, s)
  ∨ for_each cmds (run_command cfg i t node_id) s
    = (Ok tt, set_timestamps (<[i := t]> (timestamps s)) s).
Proof.
  intros Hin. revert s. induction Hin as [| c cmds Hc _ IH]; intros s Hi; [by left |].
  simpl. unfold bind.
  destruct (run_command_inert cfg i t node_id c s Hc) as [-> | ->].
  - rewrite (set_timestamp_in_range i t s Hi). right.
    destruct (IH (set_timestamps (<[i := t]> (timestamps s)) s)) as [-> | ->].
    + simpl. by rewrite length_insert.
    + done.
    + simpl. by rewrite list_insert_insert_eq.
  - destruct (IH s Hi) as [-> | ->]; [by left | by right].
Qed.

(** X19: a batch that does not concern this node only moves the
    timestamp.  When every entry is addressed to other nodes or has a kind
    other than [start], [stop], [delay], [update], running the entries and
    recording the timestamp returns normally and changes nothing but the
    feed's timestamp: files, bucket, process and system calls are as
    before. *)
Theorem inert_batch_only_stamps (cfg : Config) (i : nat) (t : Z) (node_id : string)
    (cmds : list Command) (s : State)
    (Hin : Forall (inert node_id) cmds)
    (Hi : (i < length (timestamps s))%nat) :
  (for_each cmds (run_command cfg i t node_id) >> set_timestamp i t) s
  = (Ok tt, set_timestamps (<[i := t]> (timestamps s)) s).
Proof.
  unfold bind.
  destruct (for_each_inert cfg i t node_id cmds s Hin Hi) as [-> | ->].
  - by apply set_timestamp_in_range.
  - rewrite set_timestamp_in_range by (simpl; by rewrite length_insert).
    simpl. by rewrite list_insert_insert_eq.
Qed.

Lemma inert_batch_only_stamps_witness :
  let s := Supervised.running in
  Forall (inert "node-1") Supervised.foreign_batch
  ∧ (for_each Supervised.foreign_batch (run_command Sample.cfg 1 150 "node-1")
       >> set_timestamp 1 150) s
    = (Ok tt, set_timestamps [0; 150] s).
Proof.
  intros s.
  assert (Hin : Forall (inert "node-1") Supervised.foreign_batch).
  { apply List.Forall_cons; [left; by vm_compute |].
    apply List.Forall_cons; [| apply List.Forall_nil].
    right. intros H. repeat (apply elem_of_cons in H as [H | H]; [discriminate H |]).
    by apply elem_of_nil in H. }
  split; [exact Hin |].
  exact (inert_batch_only_stamps Sample.cfg 1 150 "node-1" Supervised.foreign_batch s Hin
           ltac:(simpl; lia)).
Defined.

Lemma fetch_commands_no_exit X cfg remote s c : (fetch_commands X cfg remote s).1 ≠ Exit c.
Proof.
  intros H. pose proof (fetch_commands_ends X cfg remote false s) as He.
  by rewrite H in He.
Qed.

(** X20: an envelope that does not verify is never run.  When the fetched
    feed does not yield a verified payload (the download failed, the
    envelope is malformed, the signature is wrong), the poll of that feed
    returns normally and is quiet: the wrapped process and the timestamps
    are untouched, the only calls are the download and the copy to the
    command log, and the only files written are the scratch copy and log
    entries. *)
Theorem unverified_feed_runs_nothing (X : Externals) (cfg : Config) (i : nat)
    (remote : string) (s : State)
    (Hbad : ∀ b, (fetch_commands X cfg remote s).1 ≠ Ok (Some b, true)) :
  (poll_feed X cfg i remote s).1 = Ok tt
  ∧ quiet cfg remote s (poll_feed X cfg i remote s).2.
Proof.
  split.
  - pose proof (fetch_commands_no_exit X cfg remote s) as Hexit.
    unfold poll_feed, try_except, bind at 1.
    destruct (fetch_commands X cfg remote s) as [[[[b |] ok] | e | c] s1] eqn:Hf;
      simpl in *; [| | done | exfalso; by apply (Hexit c)].
    + destruct ok; [exfalso; by apply (Hbad b) |]. simpl.
      unfold bind, time_time, get.
      pose proof (save_cmd_no_exit (local_path_of remote) (cmd_log_dir cfg) false
                    (clock s1 / 1000) s1) as Hsave.
      destruct (save_cmd _ _ _ _ s1) as [[[] | e | c] s2]; simpl in *;
        [done | done | exfalso; by apply (Hsave c)].
    + unfold bind, time_time, get.
      pose proof (save_cmd_no_exit (local_path_of remote) (cmd_log_dir cfg) false
                    (clock s1 / 1000) s1) as Hsave.
      destruct (save_cmd _ _ _ _ s1) as [[[] | e | c] s2]; simpl in *;
        [done | done | exfalso; by apply (Hsave c)].
  - destruct (poll_feed_quiet_or_newer X cfg i remote s)
      as [Hq | (b & s1 & last & Hf & _)]; [exact Hq |].
    exfalso. apply (Hbad b). by rewrite Hf.
Qed.

Lemma unverified_feed_runs_nothing_witness :
  let X := Sample.externals Runs.book150 in
  let s := Supervised.forged_feed in
  let r := poll_feed X Sample.cfg 1 (command_file Sample.cfg) s in
  (fetch_commands X Sample.cfg (command_file Sample.cfg) s).1
  = Ok (Some (Runs.stop_then_delay 150), false)
  ∧ r.1 = Ok tt ∧ process r.2 = process s ∧ timestamps r.2 = timestamps s.
Proof.
  intros X s r.
  assert (Hf : (fetch_commands X Sample.cfg (command_file Sample.cfg) s).1
               = Ok (Some (Runs.stop_then_delay 150), false)) by (vm_compute; reflexivity).
  split; [exact Hf |].
  destruct (unverified_feed_runs_nothing X Sample.cfg 1 (command_file Sample.cfg) s)
    as (Hok & Hp & Hts & _).
  - intros b Hb. rewrite Hf in Hb. discriminate Hb.
  - split; [exact Hok |]. split; [exact Hp | exact Hts].
Defined.

(** ** The log backup *)

Lemma time_sleep_ms_frame ms s :
  let s' := (time_sleep_ms ms s).2 in
  fs s' = fs s ∧ read_node_id s' = read_node_id s ∧ generated_uuid s' = generated_uuid s.
Proof. unfold time_sleep_ms. by destruct (Z.ltb ms 0). Qed.

Lemma upload_world src dst b : world (upload src dst b) = world b.
Proof. unfold upload. by repeat case_match. Qed.

(** The first steps of an iteration: the sleep, then the node id. *)
Lemma backup_prefix X id_path w :
  ∃ log_prefix w2,
    get_node_id X id_path (time_sleep_ms (backup_frequency * 1000) w).2 = (Ok log_prefix, w2)
    ∧ fs w2 = fs w
    ∧ (∀ nid, read_node_id w = Some nid → truthy nid = true → log_prefix = nid).
Proof.
  destruct (time_sleep_ms_frame (backup_frequency * 1000) w) as (Hfs1 & Hid1 & _).
  destruct (get_node_id_returns X id_path (time_sleep_ms (backup_frequency * 1000) w).2)
    as [log_prefix Hget].
  exists log_prefix, (get_node_id X id_path (time_sleep_ms (backup_frequency * 1000) w).2).2.
  split; [exact Hget |].
  split; [by rewrite (proj1 (get_node_id_frame X id_path _)) |].
  intros nid Hnid Ht. rewrite <- Hid1 in Hnid.
  rewrite (get_node_id_cached X id_path _ nid Hnid Ht) in Hget. by injection Hget.
Qed.

Lemma backup_object_key_inj log_prefix log_name i j :
  backup_object_key log_prefix i log_name = backup_object_key log_prefix j log_name → i = j.
Proof.
  unfold backup_object_key. intros H. do 2 apply String.app_inj in H.
  apply string_app_inj_r in H. by apply (inj pretty) in H.
Qed.

(** X21: the backup uploads the log, then rotates it whether or not the
    upload went through.  One iteration of [backup_log] on a regular log
    file hands the file's bytes, as they were, to the store under
    [<node id>-<index>-<base name>], where the node id is the cached one
    when there is one; when the store accepts them the bucket holds them
    under that key, and when it refuses the failure is swallowed and the
    bucket is as before.  In both cases the file is then truncated in place
    (same mode, no bytes) and the index incremented exactly when the file
    is larger than 100 MiB, and both are left alone otherwise: a large log
    whose upload failed is emptied all the same.  No other file changes. *)
Theorem backup_uploads_then_rotates (X : Externals) (src_path id_path : string)
    (b : BackupState) (f : File)
    (Hlog : fs (world b) !! src_path = Some f)
    (Hreg : is_dir f = false) :
  let r := backup_log_iteration X src_path id_path b in
  ∃ log_prefix,
    (∀ nid, read_node_id (world b) = Some nid → truthy nid = true → log_prefix = nid)
    ∧ log_bucket r
      = (if put_succeeds b
         then <[backup_object_key log_prefix (log_index b) (basename src_path) := data f]>
                (log_bucket b)
         else log_bucket b)
    ∧ (if Z.ltb (100 * megabyte) (Z.of_nat (String.length (data f)))
       then fs (world r) !! src_path = Some (emptied f) ∧ log_index r = log_index b + 1
       else fs (world r) !! src_path = Some f ∧ log_index r = log_index b)
    ∧ (∀ p, p ≠ src_path → fs (world r) !! p = fs (world b) !! p).
Proof.
  intros r. subst r. unfold backup_log_iteration.
  destruct (backup_prefix X id_path (world b)) as (log_prefix & w2 & Hget & Hfs2 & Hcached).
  cbv zeta. rewrite Hget.
  assert (Hlog2 : fs w2 !! src_path = Some f) by (by rewrite Hfs2).
  exists log_prefix. split; [exact Hcached |].
  unfold upload, os_path_getsize, open_truncate, open_read. simpl.
  rewrite Hlog2, Hreg. simpl.
  destruct (put_succeeds b); simpl; rewrite ?Hlog2;
    destruct (Z.ltb (100 * megabyte) (Z.of_nat (String.length (data f)))); simpl;
    rewrite ?Hlog2, ?Hreg; simpl.
  - split; [done |]. split; [by rewrite lookup_insert_eq |].
    intros p Hp. by rewrite lookup_insert_ne, Hfs2.
  - split; [done |]. split; [done |]. intros p Hp. by rewrite Hfs2.
  - split; [done |]. split; [by rewrite lookup_insert_eq |].
    intros p Hp. by rewrite lookup_insert_ne, Hfs2.
  - split; [done |]. split; [done |]. intros p Hp. by rewrite Hfs2.
Qed.

Lemma backup_uploads_then_rotates_witness :
  let b := Supervised.logging in
  let src := log_path Sample.cfg in
  let r := backup_log_iteration (Sample.externals []) src (idpath Sample.cfg) b in
  log_bucket r !! "node-1-3-xx.log" = Some "started"
  ∧ fs (world r) !! src = Some (Sample.regular "started" 420)
  ∧ log_index r = 3.
Proof.
  intros b src r.
  destruct (backup_uploads_then_rotates (Sample.externals []) src (idpath Sample.cfg) b
              (Sample.regular "started" 420) ltac:(vm_compute; reflexivity) eq_refl)
    as (log_prefix & Hid & Hbucket & Hrot & _).
  rewrite (Hid "node-1" eq_refl eq_refl) in Hbucket.
  fold r in Hbucket, Hrot. split; [| exact Hrot].
  rewrite Hbucket. vm_compute. reflexivity.
Defined.

(** X13: an iteration of the backup touches one key of the bucket.  With
    the node id cached, the objects stored for this node and log under
    every rotation index other than the current one are left as they are:
    the keys are injective in the index.  Within one run of [backup_log],
    where the index only grows, the last upload of a rotated log is
    therefore kept (the index starts again at 0 with the script). *)
Theorem backup_keeps_objects_of_other_indices (X : Externals) (src_path id_path : string)
    (b : BackupState) (nid : string) (i : Z)
    (Hid : read_node_id (world b) = Some nid)
    (Hnid : truthy nid = true)
    (Hne : i ≠ log_index b) :
  let r := backup_log_iteration X src_path id_path b in
  log_bucket r !! backup_object_key nid i (basename src_path)
  = log_bucket b !! backup_object_key nid i (basename src_path)
  ∧ (log_index r = log_index b ∨ log_index r = log_index b + 1).
Proof.
  intros r. subst r. unfold backup_log_iteration.
  destruct (backup_prefix X id_path (world b)) as (log_prefix & w2 & Hget & Hfs2 & Hcached).
  cbv zeta. rewrite Hget. rewrite (Hcached nid Hid Hnid).
  assert (Hkey : backup_object_key nid (log_index b) (basename src_path)
                 ≠ backup_object_key nid i (basename src_path)).
  { intros Heq. apply Hne. symmetry. by eapply backup_object_key_inj. }
  unfold upload, os_path_getsize, open_truncate, open_read. simpl.
  repeat (case_match; simplify_eq/=); rewrite ?lookup_insert_ne by done; auto.
Qed.

Lemma backup_keeps_objects_of_other_indices_witness :
  let b := Supervised.logging in
  let r := backup_log_iteration (Sample.externals []) (log_path Sample.cfg)
             (idpath Sample.cfg) b in
  log_bucket r !! "node-1-2-xx.log" = None
  ∧ log_bucket r !! "node-1-3-xx.log" = Some "started".
Proof.
  intros b r.
  destruct (backup_keeps_objects_of_other_indices (Sample.externals []) (log_path Sample.cfg)
              (idpath Sample.cfg) b "node-1" 2 eq_refl eq_refl ltac:(discriminate))
    as [Hkept _].
  split; [| vm_compute; reflexivity].
  etransitivity; [exact Hkept | vm_compute; reflexivity].
Defined.

(** X22: without a log file the backup does nothing.  When the log path
    holds no regular file (nothing, or a directory), one iteration uploads
    nothing, keeps the rotation index and leaves every file as it is: the
    failures of [upload] and of the size check are swallowed. *)
Theorem backup_without_log_uploads_nothing (X : Externals) (src_path id_path : string)
    (b : BackupState)
    (Hlog : ∀ f, fs (world b) !! src_path = Some f → is_dir f = true) :
  let r := backup_log_iteration X src_path id_path b in
  log_bucket r = log_bucket b ∧ log_index r = log_index b ∧ fs (world r) = fs (world b).
Proof.
  intros r. subst r. unfold backup_log_iteration.
  destruct (backup_prefix X id_path (world b)) as (log_prefix & w2 & Hget & Hfs2 & _).
  cbv zeta. rewrite Hget.
  assert (Hlog2 : fs w2 !! src_path = fs (world b) !! src_path) by (by rewrite Hfs2).
  unfold upload, os_path_getsize, open_truncate, open_read. simpl. rewrite Hlog2.
  destruct (fs (world b) !! src_path) as [f |] eqn:Hf.
  - rewrite (Hlog f eq_refl). simpl. rewrite ?Hlog2.
    destruct (Z.ltb (100 * megabyte) (Z.of_nat (String.length (data f)))); simpl.
    + rewrite ?Hlog2, ?(Hlog f eq_refl). simpl. by rewrite Hfs2.
    + by rewrite Hfs2.
  - simpl. rewrite ?Hlog2. simpl. by rewrite Hfs2.
Qed.

Lemma backup_without_log_uploads_nothing_witness :
  let b := Supervised.logging in
  let r := backup_log_iteration (Sample.externals []) "/var/log/none.log"
             (idpath Sample.cfg) b in
  log_bucket r = ∅ ∧ log_index r = 3.
Proof.
  intros b r.
  destruct (backup_without_log_uploads_nothing (Sample.externals []) "/var/log/none.log"
              (idpath Sample.cfg) b)
    as (Hbucket & Hindex & _).
  - intros f Hf. by vm_compute in Hf.
  - split; [exact Hbucket | exact Hindex].
Defined.

(** ** The pace of the loop *)

#[global] Instance later_refl : Reflexive later.
Proof. intros s. unfold later. lia. Qed.

#[global] Instance later_trans : Transitive later.
Proof. intros s1 s2 s3. unfold later. lia. Qed.

Lemma later_same s s' : clock s' = clock s → later s s'.
Proof. unfold later. lia. Qed.

Create HintDb pace.

Ltac prim_later f :=
  intros s; unfold f; repeat case_match; simpl; by apply later_same.

Lemma emit_later e : preserves later (emit e).
Proof. intros s. by apply later_same. Qed.
#[global] Hint Resolve emit_later : pace.

Lemma time_sleep_ms_later ms : preserves later (time_sleep_ms ms).
Proof.
  intros s. unfold time_sleep_ms. destruct (Z.ltb_spec ms 0); [reflexivity |].
  unfold later. simpl. lia.
Qed.
#[global] Hint Resolve time_sleep_ms_later : pace.

Lemma open_read_later p : preserves later (open_read p).
Proof. prim_later open_read. Qed.
#[global] Hint Resolve open_read_later : pace.

Lemma open_append_later p : preserves later (open_append p).
Proof. prim_later open_append. Qed.
#[global] Hint Resolve open_append_later : pace.

Lemma os_replace_later a b : preserves later (os_replace a b).
Proof. prim_later os_replace. Qed.
#[global] Hint Resolve os_replace_later : pace.

Lemma os_chmod_later p m : preserves later (os_chmod p m).
Proof. prim_later os_chmod. Qed.
#[global] Hint Resolve os_chmod_later : pace.

Lemma subprocess_Popen_later b a : preserves later (subprocess_Popen b a).
Proof. prim_later subprocess_Popen. Qed.
#[global] Hint Resolve subprocess_Popen_later : pace.

Lemma download_later a b : preserves later (download a b).
Proof. prim_later download. Qed.
#[global] Hint Resolve download_later : pace.

Lemma get_timestamp_later i : preserves later (get_timestamp i).
Proof. prim_later get_timestamp. Qed.
#[global] Hint Resolve get_timestamp_later : pace.

Lemma set_timestamp_later i t : preserves later (set_timestamp i t).
Proof. intros s. unfold set_timestamp. case_decide; by apply later_same. Qed.
#[global] Hint Resolve set_timestamp_later : pace.

Lemma modify_later (f : State → State) :
  (∀ s, clock (f s) = clock s) → preserves later (modify f).
Proof. intros Hf s. by apply later_same, Hf. Qed.

Lemma shutil_copyfile_later a b : preserves later (shutil_copyfile a b).
Proof.
  unfold shutil_copyfile. apply preserves_bind; try typeclasses eauto;
    [auto with pace |].
  intros content s. repeat case_match; simpl; by apply later_same.
Qed.
#[global] Hint Resolve shutil_copyfile_later : pace.

Lemma save_cmd_later f d v t : preserves later (save_cmd f d v t).
Proof. unfold save_cmd. frame_with pace. Qed.
#[global] Hint Resolve save_cmd_later : pace.

Lemma start_binary_later b l a : preserves later (start_binary b l a).
Proof. unfold start_binary. frame_with pace. Qed.
#[global] Hint Resolve start_binary_later : pace.

Lemma launch_later cfg : preserves later (launch cfg).
Proof. unfold launch, os_path_isfile. frame_with pace. by apply modify_later. Qed.
#[global] Hint Resolve launch_later : pace.

Lemma terminate_process_later p : preserves later (terminate_process p).
Proof. unfold terminate_process. frame_with pace. by apply modify_later. Qed.
#[global] Hint Resolve terminate_process_later : pace.

Lemma verify_cmd_later X inbuf p : preserves later (verify_cmd X inbuf p).
Proof. unfold verify_cmd. frame_with pace. Qed.
#[global] Hint Resolve verify_cmd_later : pace.

Lemma get_node_id_later X p : preserves later (get_node_id X p).
Proof.
  unfold get_node_id, os_path_exists. frame_with pace; by apply modify_later.
Qed.
#[global] Hint Resolve get_node_id_later : pace.

Lemma fetch_commands_later X cfg remote : preserves later (fetch_commands X cfg remote).
Proof. unfold fetch_commands. frame_with pace. Qed.
#[global] Hint Resolve fetch_commands_later : pace.

Lemma install_update_later cfg i t tmp target :
  preserves later (install_update cfg i t tmp target).
Proof. unfold install_update. frame_with pace. Qed.
#[global] Hint Resolve install_update_later : pace.

Lemma update_command_later cfg i t info : preserves later (update_command cfg i t info).
Proof. unfold update_command. frame_with pace. Qed.
#[global] Hint Resolve update_command_later : pace.

Lemma run_command_later cfg i t node_id c :
  preserves later (run_command cfg i t node_id c).
Proof. unfold run_command. frame_with pace. Qed.
#[global] Hint Resolve run_command_later : pace.

Lemma process_batch_later X cfg i local b ok :
  preserves later (process_batch X cfg i local b ok).
Proof. unfold process_batch. frame_with pace. Qed.
#[global] Hint Resolve process_batch_later : pace.

Lemma poll_feed_later X cfg i remote : preserves later (poll_feed X cfg i remote).
Proof. unfold poll_feed, time_time. frame_with pace. Qed.
#[global] Hint Resolve poll_feed_later : pace.

Lemma restart_on_error_later cfg : preserves later (restart_on_error cfg).
Proof. unfold restart_on_error, os_path_isfile. frame_with pace. Qed.
#[global] Hint Resolve restart_on_error_later : pace.

Lemma tick_pace X cfg s :
  (tick X cfg s).1 = Ok tt → (clock s + command_frequency * 1000 ≤ clock (tick X cfg s).2)%Z.
Proof.
  unfold tick. unfold bind at 1.
  assert (Hsleep : time_sleep_ms (command_frequency * 1000) s
                   = (Ok tt, set_trace (trace s ++ [EvSleep (command_frequency * 1000)])
                               (set_clock (clock s + command_frequency * 1000) s)))
    by reflexivity.
  rewrite Hsleep. intros _.
  assert (Hrest : preserves later
                    (restart_on_error cfg >>
                     for_each (enumerate (remotes_paths cfg))
                       (fun ir => poll_feed X cfg ir.1 ir.2))) by frame_with pace.
  exact (Hrest _).
Qed.

(** X24: the loop keeps its pace.  The clock never runs backwards under
    any step of the script, and every tick starts with a sleep of
    [command_frequency] seconds, so [n] iterations that return take at
    least [10 n] seconds: the feeds are polled at most once every ten
    seconds, however many commands they carry. *)
Theorem main_loop_keeps_its_pace (X : Externals) (cfg : Config) (n : nat) (s : State)
    (Hok : (main_loop X cfg n s).1 = Ok tt) :
  (clock s + Z.of_nat n * 10000 ≤ clock (main_loop X cfg n s).2)%Z.
Proof.
  revert s Hok. induction n as [| n IH]; intros s Hok; [simpl; lia |].
  simpl in *. unfold bind in *.
  pose proof (tick_pace X cfg s) as Htick.
  destruct (tick X cfg s) as [[[] | e | c] s1]; simpl in *; [| done..].
  specialize (Htick eq_refl). specialize (IH s1 Hok).
  unfold command_frequency in Htick. lia.
Qed.

Lemma main_loop_keeps_its_pace_witness :
  let X := Sample.externals Runs.book150 in
  let s := Runs.started_at_200 in
  (main_loop X Sample.cfg 2 s).1 = Ok tt
  ∧ (220000 ≤ clock (main_loop X Sample.cfg 2 s).2)%Z.
Proof.
  intros X s.
  assert (Hok : (main_loop X Sample.cfg 2 s).1 = Ok tt) by (vm_compute; reflexivity).
  split; [exact Hok |].
  exact (main_loop_keeps_its_pace X Sample.cfg 2 s Hok).
Defined.
